(** * ChatApp1 image editor: gesture-to-pixel coordinate engine

    A shallow embedding of the geometry and state code of the editor
    ([src/utils/exifOrientation.ts], [src/utils/imageProcessor.ts],
    [src/utils/imageOptimizer.ts], [src/utils/undoRedo.ts],
    [src/screens/ImageEditorScreen.tsx]) and the properties stated about
    it.

    Numbers.  A JavaScript [number] that carries a length, a scale or an
    angle is read as a real number: [+ - * /] are the field operations of
    [R], [Math.max]/[Math.min]/[Math.abs] are [Rmax]/[Rmin]/[Rabs],
    [Math.cos]/[Math.sin]/[Math.PI] are [cos]/[sin]/[PI], and
    [Math.round x] is [floor (x + 1/2)].  IEEE rounding error, NaN and the
    infinities are outside this model; a theorem that depends on the value
    of a quotient assumes its divisor non-zero.  Integer codes (EXIF
    orientation, the stack bound) are [Z]. *)

From Stdlib Require Import Reals Lra Lia ZArith List String Bool.
Import ListNotations.

Open Scope R_scope.

(* ================================================================== *)
(** ** The part of [Math] the editor uses *)

Module JsMath.

(** [Math.round]: the nearest integer, halves rounded up. *)
Definition round (v : R) : R := IZR (Zfloor (v + / 2)).

(** [Math.min(...vs)] and [Math.max(...vs)] over a spread array.  The
    editor only spreads four-element arrays; the empty case (JavaScript's
    infinities) has no real value and is given as [0]. *)
Definition min_of (vs : list R) : R :=
  match vs with
  | [] => 0
  | v :: rest => fold_left Rmin rest v
  end.

Definition max_of (vs : list R) : R :=
  match vs with
  | [] => 0
  | v :: rest => fold_left Rmax rest v
  end.

(** [a % b] on numbers: the remainder takes the sign of the dividend. *)
Definition trunc (v : R) : Z :=
  if Rle_dec 0 v then Zfloor v else (- Zfloor (- v))%Z.

Definition rem (a b : R) : R := a - b * IZR (trunc (a / b)).

(** [a > b], [a < b], [a !== b] and [a === b] as they steer an [if]. *)
Definition gt (a b : R) : bool := if Rgt_dec a b then true else false.
Definition lt (a b : R) : bool := if Rlt_dec a b then true else false.
Definition neq (a b : R) : bool := if Req_dec_T a b then false else true.
Definition eq (a b : R) : bool := if Req_dec_T a b then true else false.
Definition le (a b : R) : bool := if Rle_dec a b then true else false.

End JsMath.

(* ================================================================== *)
(** ** Rectangles and points shared by the coordinate code

    [ScreenCropRect], [ImageCropRect] and [CropParams] are the same
    structural type [{x, y, width, height}]. *)

Record Rect : Type := mkRect
  { rect_x : R; rect_y : R; rect_width : R; rect_height : R }.

Record Point : Type := mkPoint { pt_x : R; pt_y : R }.

(** [{width, height}], as [imageSize] and [displaySize] are. *)
Record Size : Type := mkSize { size_width : R; size_height : R }.

(* ================================================================== *)
(** ** [src/utils/exifOrientation.ts] *)

Module ExifOrientation.

Inductive ExifOrientation : Type :=
| Normal | FlipHorizontal | Rotate180 | FlipVertical
| Rotate90FlipHorizontal | Rotate270 | Rotate90FlipVertical | Rotate90.

(** The numeric value of each enum member. *)
Definition code (o : ExifOrientation) : Z :=
  match o with
  | Normal => 1 | FlipHorizontal => 2 | Rotate180 => 3 | FlipVertical => 4
  | Rotate90FlipHorizontal => 5 | Rotate270 => 6
  | Rotate90FlipVertical => 7 | Rotate90 => 8
  end%Z.

(** Which [case] label, if any, a number matches in a [switch]. *)
Definition of_code (n : Z) : option ExifOrientation :=
  match n with
  | 1 => Some Normal | 2 => Some FlipHorizontal | 3 => Some Rotate180
  | 4 => Some FlipVertical | 5 => Some Rotate90FlipHorizontal
  | 6 => Some Rotate270 | 7 => Some Rotate90FlipVertical
  | 8 => Some Rotate90 | _ => None
  end%Z.

Definition getRotationForOrientation (orientation : Z) : Z :=
  match of_code orientation with
  | Some Normal => 0
  | Some FlipHorizontal => 0
  | Some Rotate180 => 180
  | Some FlipVertical => 0
  | Some Rotate90FlipHorizontal => 90
  | Some Rotate270 => -90
  | Some Rotate90FlipVertical => 90
  | Some Rotate90 => 90
  | None => 0
  end%Z.

Definition getScaleForOrientation (orientation : Z) : Z * Z :=
  match of_code orientation with
  | Some FlipHorizontal => (-1, 1)
  | Some FlipVertical => (1, -1)
  | Some Rotate90FlipHorizontal => (-1, 1)
  | Some Rotate90FlipVertical => (1, -1)
  | _ => (1, 1)
  end%Z.

Definition getCorrectedDimensions (width height : R) (orientation : Z)
  : Size :=
  let needsSwap :=
    (orientation =? code Rotate90)%Z
    || (orientation =? code Rotate270)%Z
    || (orientation =? code Rotate90FlipHorizontal)%Z
    || (orientation =? code Rotate90FlipVertical)%Z in
  if needsSwap then mkSize height width else mkSize width height.

Record ImageDisplayParams : Type := mkParams
  { imageWidth : R; imageHeight : R;
    displayWidth : R; displayHeight : R;
    scale : R; translateX : R; translateY : R;
    rotation : R }.

Record DisplayBounds : Type := mkBounds
  { displayedWidth : R; displayedHeight : R;
    displayedX : R; displayedY : R }.

(** The rotated bounding box.  [cos] and [sin] are the exact functions
    here, [Math.cos] and [Math.sin] of a rounded radian value in the code:
    at rotation 0 both give 1 and 0 and the model's box is the code's; at
    other angles they part in the last place (the code's cosine of a
    quarter turn is about 6.1e-17, not 0), so the exact side lengths are
    stated at rotation 0 only. *)
Definition calculateImageDisplayBounds (params : ImageDisplayParams)
  : DisplayBounds :=
  let scaledWidth := imageWidth params * scale params in
  let scaledHeight := imageHeight params * scale params in
  let radians := rotation params * PI / 180 in
  let cos_ := Rabs (cos radians) in
  let sin_ := Rabs (sin radians) in
  let rotatedWidth := scaledWidth * cos_ + scaledHeight * sin_ in
  let rotatedHeight := scaledWidth * sin_ + scaledHeight * cos_ in
  let displayedX := (displayWidth params - rotatedWidth) / 2
                    + translateX params in
  let displayedY := (displayHeight params - rotatedHeight) / 2
                    + translateY params in
  mkBounds rotatedWidth rotatedHeight displayedX displayedY.

(** The converter.  It divides by the scale: at scale 0 the code's
    quotients are NaN or infinite, which no real number stands for, so the
    statements about this function are made for a scale that is not 0. *)
Definition screenToImageCoordinates
           (screenCrop : Rect) (params : ImageDisplayParams) : Rect :=
  let displayBounds := calculateImageDisplayBounds params in
  let cropRelativeX := rect_x screenCrop - displayedX displayBounds in
  let cropRelativeY := rect_y screenCrop - displayedY displayBounds in
  let imageCropX := cropRelativeX / scale params in
  let imageCropY := cropRelativeY / scale params in
  let imageCropWidth := rect_width screenCrop / scale params in
  let imageCropHeight := rect_height screenCrop / scale params in
  let '(imageCropX, imageCropY, imageCropWidth, imageCropHeight) :=
    if JsMath.neq (rotation params) 0
    then
      let radians := - rotation params * PI / 180 in
      let centerX := imageWidth params / 2 in
      let centerY := imageHeight params / 2 in
      let corners :=
        [ mkPoint imageCropX imageCropY;
          mkPoint (imageCropX + imageCropWidth) imageCropY;
          mkPoint imageCropX (imageCropY + imageCropHeight);
          mkPoint (imageCropX + imageCropWidth)
                  (imageCropY + imageCropHeight) ] in
      let rotatedCorners :=
        map (fun corner =>
               let dx := pt_x corner - centerX in
               let dy := pt_y corner - centerY in
               mkPoint (centerX + dx * cos radians - dy * sin radians)
                       (centerY + dx * sin radians + dy * cos radians))
            corners in
      let minX := JsMath.min_of (map pt_x rotatedCorners) in
      let maxX := JsMath.max_of (map pt_x rotatedCorners) in
      let minY := JsMath.min_of (map pt_y rotatedCorners) in
      let maxY := JsMath.max_of (map pt_y rotatedCorners) in
      (minX, minY, maxX - minX, maxY - minY)
    else (imageCropX, imageCropY, imageCropWidth, imageCropHeight) in
  let imageCropX := Rmax 0 (Rmin (imageWidth params - 1) imageCropX) in
  let imageCropY := Rmax 0 (Rmin (imageHeight params - 1) imageCropY) in
  let imageCropWidth :=
    Rmax 1 (Rmin (imageWidth params - imageCropX) imageCropWidth) in
  let imageCropHeight :=
    Rmax 1 (Rmin (imageHeight params - imageCropY) imageCropHeight) in
  mkRect (JsMath.round imageCropX) (JsMath.round imageCropY)
         (JsMath.round imageCropWidth) (JsMath.round imageCropHeight).

Definition calculateMinScale
           (imageWidth imageHeight cropWidth cropHeight : R) : R :=
  let scaleX := cropWidth / imageWidth in
  let scaleY := cropHeight / imageHeight in
  Rmax scaleX scaleY.

End ExifOrientation.

(* ================================================================== *)
(** ** [src/utils/imageProcessor.ts] *)

Module ImageProcessor.

Record TransformParams : Type := mkTransform
  { rotation : R; scale : R; translateX : R; translateY : R }.

Definition calculateCropCoordinates
           (imageSize displaySize : Size) (cropArea : Rect)
           (transform : TransformParams) : Rect :=
  let scaledWidth := size_width imageSize * scale transform in
  let scaledHeight := size_height imageSize * scale transform in
  let imageDisplayX := (size_width displaySize - scaledWidth) / 2
                       + translateX transform in
  let imageDisplayY := (size_height displaySize - scaledHeight) / 2
                       + translateY transform in
  let cropX := (rect_x cropArea - imageDisplayX) / scale transform in
  let cropY := (rect_y cropArea - imageDisplayY) / scale transform in
  let cropWidth := rect_width cropArea / scale transform in
  let cropHeight := rect_height cropArea / scale transform in
  let '(cropX, cropY, cropWidth, cropHeight) :=
    if JsMath.neq (rotation transform) 0
    then
      let centerX := size_width imageSize / 2 in
      let centerY := size_height imageSize / 2 in
      let radians := - rotation transform * PI / 180 in
      let corners :=
        [ mkPoint cropX cropY;
          mkPoint (cropX + cropWidth) cropY;
          mkPoint cropX (cropY + cropHeight);
          mkPoint (cropX + cropWidth) (cropY + cropHeight) ] in
      let rotatedCorners :=
        map (fun corner =>
               let dx := pt_x corner - centerX in
               let dy := pt_y corner - centerY in
               mkPoint (centerX + dx * cos radians - dy * sin radians)
                       (centerY + dx * sin radians + dy * cos radians))
            corners in
      let minX := JsMath.min_of (map pt_x rotatedCorners) in
      let maxX := JsMath.max_of (map pt_x rotatedCorners) in
      let minY := JsMath.min_of (map pt_y rotatedCorners) in
      let maxY := JsMath.max_of (map pt_y rotatedCorners) in
      (minX, minY, maxX - minX, maxY - minY)
    else (cropX, cropY, cropWidth, cropHeight) in
  let cropX := Rmax 0 (Rmin (size_width imageSize - 1) cropX) in
  let cropY := Rmax 0 (Rmin (size_height imageSize - 1) cropY) in
  let cropWidth := Rmax 1 (Rmin (size_width imageSize - cropX) cropWidth) in
  let cropHeight :=
    Rmax 1 (Rmin (size_height imageSize - cropY) cropHeight) in
  mkRect (JsMath.round cropX) (JsMath.round cropY)
         (JsMath.round cropWidth) (JsMath.round cropHeight).

End ImageProcessor.

(* ================================================================== *)
(** ** [src/utils/imageOptimizer.ts] *)

Module ImageOptimizer.

Definition MAX_PREVIEW_DIMENSION : R := 1024.

Record PreviewDimensions : Type := mkPreview
  { preview_width : R; preview_height : R; preview_scale : R }.

(** The third argument defaults to [MAX_PREVIEW_DIMENSION] in the source;
    here it is always passed. *)
Definition calculatePreviewDimensions
           (originalWidth originalHeight maxDimension : R)
  : PreviewDimensions :=
  if JsMath.le originalWidth maxDimension
     && JsMath.le originalHeight maxDimension
  then mkPreview originalWidth originalHeight 1
  else
    let scale := maxDimension / Rmax originalWidth originalHeight in
    mkPreview (JsMath.round (originalWidth * scale))
              (JsMath.round (originalHeight * scale))
              scale.

End ImageOptimizer.

(* ================================================================== *)
(** ** [src/types/index.ts]: the annotation records and the snapshot *)

Record DrawingPath : Type := mkDrawingPath
  { path_id : string; path_points : list Point;
    path_color : string; path_strokeWidth : R }.

Record TextSticker : Type := mkTextSticker
  { sticker_id : string; sticker_text : string;
    sticker_x : R; sticker_y : R; sticker_fontSize : R;
    sticker_color : string; sticker_fontFamily : option string;
    sticker_rotation : option R; sticker_scale : option R }.

Inductive CropAspectRatio : Type :=
| free | ratio_1_1 | ratio_4_5 | ratio_16_9.

(* ================================================================== *)
(** ** [src/utils/undoRedo.ts] *)

Module UndoRedo.

Record EditorState : Type := mkEditorState
  { rotation : R; scale : R; translateX : R; translateY : R;
    cropWidth : R; cropHeight : R;
    brightness : R; contrast : R; saturation : R;
    drawings : list DrawingPath; textStickers : list TextSticker }.

(** A JavaScript array has its oldest element first: [push] appends,
    [pop] takes the last element off, [shift] drops the first. *)
Definition push {A : Type} (arr : list A) (v : A) : list A := arr ++ [v].

Definition pop {A : Type} (arr : list A) : option A * list A :=
  match rev arr with
  | [] => (None, [])
  | v :: front => (Some v, rev front)
  end.

Definition shift {A : Type} (arr : list A) : list A := tl arr.

(** [[...arr]]: a fresh array with the same elements. *)
Definition spread {A : Type} (arr : list A) : list A :=
  map (fun v => v) arr.

Record UndoRedoStack : Type := mkStack
  { undoStack : list EditorState;
    redoStack : list EditorState;
    maxStackSize : Z }.

(** [new UndoRedoStack(maxStackSize)]; the editor passes [50]. *)
Definition new (maxStackSize : Z) : UndoRedoStack :=
  mkStack [] [] maxStackSize.

Definition cloneState (state : EditorState) : EditorState :=
  mkEditorState
    (rotation state) (scale state)
    (translateX state) (translateY state)
    (cropWidth state) (cropHeight state)
    (brightness state) (contrast state) (saturation state)
    (map (fun d => mkDrawingPath (path_id d) (spread (path_points d))
                                 (path_color d) (path_strokeWidth d))
         (drawings state))
    (map (fun s => mkTextSticker
                     (sticker_id s) (sticker_text s)
                     (sticker_x s) (sticker_y s) (sticker_fontSize s)
                     (sticker_color s) (sticker_fontFamily s)
                     (sticker_rotation s) (sticker_scale s))
         (textStickers state)).

Definition saveState (state : EditorState) (this : UndoRedoStack)
  : UndoRedoStack :=
  let clonedState := cloneState state in
  let undoStack1 := push (undoStack this) clonedState in
  let undoStack2 :=
    if (Z.of_nat (List.length undoStack1) >? maxStackSize this)%Z
    then shift undoStack1 else undoStack1 in
  mkStack undoStack2 [] (maxStackSize this).

(** [undo] and [redo] return the restored state ([None] for [null])
    together with the stack after the call. *)
Definition undo (currentState : EditorState) (this : UndoRedoStack)
  : option EditorState * UndoRedoStack :=
  if Nat.eqb (List.length (undoStack this)) 0 then (None, this)
  else
    let redoStack1 := push (redoStack this) (cloneState currentState) in
    let '(previousState, undoStack1) := pop (undoStack this) in
    (previousState, mkStack undoStack1 redoStack1 (maxStackSize this)).

Definition redo (currentState : EditorState) (this : UndoRedoStack)
  : option EditorState * UndoRedoStack :=
  if Nat.eqb (List.length (redoStack this)) 0 then (None, this)
  else
    let undoStack1 := push (undoStack this) (cloneState currentState) in
    let '(nextState, redoStack1) := pop (redoStack this) in
    (nextState, mkStack undoStack1 redoStack1 (maxStackSize this)).

Definition canUndo (this : UndoRedoStack) : bool :=
  negb (Nat.eqb (List.length (undoStack this)) 0).

Definition canRedo (this : UndoRedoStack) : bool :=
  negb (Nat.eqb (List.length (redoStack this)) 0).

Definition clear (this : UndoRedoStack) : UndoRedoStack :=
  mkStack [] [] (maxStackSize this).

End UndoRedo.

(* ================================================================== *)
(** ** [src/screens/ImageEditorScreen.tsx] *)

Module ImageEditorScreen.

Inductive Corner : Type := topLeft | topRight | bottomLeft | bottomRight.

(** [CropHandle] is a corner name or [null]. *)
Definition CropHandle : Type := option Corner.

Inductive EditorMode : Type := crop | adjust | draw | text.

(** *** The component's state

    The [useState] hooks are the fields of [ReactState].  The
    [useSharedValue] hooks are mutable cells that all hold a number; they
    are the names of [SharedValue], and the cells together are a store
    read with [cells k] and written with [write k v cells]. *)

Record ReactState : Type := mkReact
  { imageUri : option string; originalImageUri : option string;
    imageSize : Size; previewSize : Size; previewScale : R;
    rotation : R; aspectRatio : CropAspectRatio;
    brightness : R; contrast : R; saturation : R;
    mode : EditorMode; activeHandle : CropHandle;
    drawings : list DrawingPath; drawColor : string; drawStrokeWidth : R;
    textStickers : list TextSticker; selectedStickerId : option string;
    exifOrientation : Z; isAnimating : bool }.

Inductive SharedValue : Type :=
| scale | translateX | translateY | rotationValue
| baseScale | baseTranslateX | baseTranslateY
| cropX | cropY | cropWidth | cropHeight
| baseCropX | baseCropY | baseCropWidth | baseCropHeight.

Definition SharedValue_eq_dec (a b : SharedValue) : {a = b} + {a <> b}.
Proof. decide equality. Defined.

Definition Cells : Type := SharedValue -> R.

Definition write (k : SharedValue) (v : R) (cells : Cells) : Cells :=
  fun k' => if SharedValue_eq_dec k k' then v else cells k'.

Record Editor : Type := mkEditor
  { react : ReactState;
    cells : Cells;
    undoRedoStack : UndoRedo.UndoRedoStack }.

(** The state setters the modelled handlers call. *)
Definition setRotation (v : R) (s : ReactState) : ReactState :=
  let 'mkReact a b c d e _ g h i j k l m n o p q r t := s in
  mkReact a b c d e v g h i j k l m n o p q r t.
Definition setBrightness (v : R) (s : ReactState) : ReactState :=
  let 'mkReact a b c d e f g _ i j k l m n o p q r t := s in
  mkReact a b c d e f g v i j k l m n o p q r t.
Definition setContrast (v : R) (s : ReactState) : ReactState :=
  let 'mkReact a b c d e f g h _ j k l m n o p q r t := s in
  mkReact a b c d e f g h v j k l m n o p q r t.
Definition setSaturation (v : R) (s : ReactState) : ReactState :=
  let 'mkReact a b c d e f g h i _ k l m n o p q r t := s in
  mkReact a b c d e f g h i v k l m n o p q r t.
Definition setImageSize (v : Size) (s : ReactState) : ReactState :=
  let 'mkReact a b _ d e f g h i j k l m n o p q r t := s in
  mkReact a b v d e f g h i j k l m n o p q r t.
Definition setAspectRatio (v : CropAspectRatio) (s : ReactState)
  : ReactState :=
  let 'mkReact a b c d e f _ h i j k l m n o p q r t := s in
  mkReact a b c d e f v h i j k l m n o p q r t.
Definition setImageUri (v : option string) (s : ReactState) : ReactState :=
  let 'mkReact _ b c d e f g h i j k l m n o p q r t := s in
  mkReact v b c d e f g h i j k l m n o p q r t.
Definition setOriginalImageUri (v : option string) (s : ReactState)
  : ReactState :=
  let 'mkReact a _ c d e f g h i j k l m n o p q r t := s in
  mkReact a v c d e f g h i j k l m n o p q r t.
Definition setActiveHandle (v : CropHandle) (s : ReactState) : ReactState :=
  let 'mkReact a b c d e f g h i j k _ m n o p q r t := s in
  mkReact a b c d e f g h i j k v m n o p q r t.
Definition setDrawings (v : list DrawingPath) (s : ReactState)
  : ReactState :=
  let 'mkReact a b c d e f g h i j k l _ n o p q r t := s in
  mkReact a b c d e f g h i j k l v n o p q r t.
Definition setTextStickers (v : list TextSticker) (s : ReactState)
  : ReactState :=
  let 'mkReact a b c d e f g h i j k l m n o _ q r t := s in
  mkReact a b c d e f g h i j k l m n o v q r t.
Definition setIsAnimating (v : bool) (s : ReactState) : ReactState :=
  let 'mkReact a b c d e f g h i j k l m n o p q r _ := s in
  mkReact a b c d e f g h i j k l m n o p q r v.

Definition with_react (f : ReactState -> ReactState) (ed : Editor)
  : Editor :=
  mkEditor (f (react ed)) (cells ed) (undoRedoStack ed).
Definition with_cells (f : Cells -> Cells) (ed : Editor) : Editor :=
  mkEditor (react ed) (f (cells ed)) (undoRedoStack ed).
Definition with_stack (st : UndoRedo.UndoRedoStack) (ed : Editor)
  : Editor :=
  mkEditor (react ed) (cells ed) st.

Definition MIN_CROP_SIZE : R := 100.

(** [cond ? a : b] chain that turns the ratio's name into its value. *)
Definition targetAspect_of (aspectRatio : CropAspectRatio) : R :=
  match aspectRatio with
  | ratio_1_1 => 1
  | ratio_4_5 => 4 / 5
  | ratio_16_9 => 16 / 9
  | free => 1
  end.

(** *** Undo and redo *)

Definition getCurrentEditorState (ed : Editor) : UndoRedo.EditorState :=
  UndoRedo.mkEditorState
    (rotation (react ed))
    (cells ed scale) (cells ed translateX) (cells ed translateY)
    (cells ed cropWidth) (cells ed cropHeight)
    (brightness (react ed)) (contrast (react ed)) (saturation (react ed))
    (UndoRedo.spread (drawings (react ed)))
    (UndoRedo.spread (textStickers (react ed))).

Definition applyEditorState (state : UndoRedo.EditorState) (ed : Editor)
  : Editor :=
  let ed := with_react (setRotation (UndoRedo.rotation state)) ed in
  let ed := with_react (setBrightness (UndoRedo.brightness state)) ed in
  let ed := with_react (setContrast (UndoRedo.contrast state)) ed in
  let ed := with_react (setSaturation (UndoRedo.saturation state)) ed in
  let ed := with_react (setDrawings (UndoRedo.drawings state)) ed in
  let ed :=
    with_react (setTextStickers (UndoRedo.textStickers state)) ed in
  let ed := with_cells (write scale (UndoRedo.scale state)) ed in
  let ed := with_cells (write translateX (UndoRedo.translateX state)) ed in
  let ed := with_cells (write translateY (UndoRedo.translateY state)) ed in
  let ed :=
    with_cells (write rotationValue (UndoRedo.rotation state)) ed in
  let ed := with_cells (write cropWidth (UndoRedo.cropWidth state)) ed in
  let ed := with_cells (write cropHeight (UndoRedo.cropHeight state)) ed in
  ed.

Definition saveStateBeforeAction (ed : Editor) : Editor :=
  let currentState := getCurrentEditorState ed in
  with_stack (UndoRedo.saveState currentState (undoRedoStack ed)) ed.

Definition handleUndo (ed : Editor) : Editor :=
  let currentState := getCurrentEditorState ed in
  let '(previousState, stack) :=
    UndoRedo.undo currentState (undoRedoStack ed) in
  let ed := with_stack stack ed in
  match previousState with
  | Some previousState => applyEditorState previousState ed
  | None => ed
  end.

Definition handleRedo (ed : Editor) : Editor :=
  let currentState := getCurrentEditorState ed in
  let '(nextState, stack) :=
    UndoRedo.redo currentState (undoRedoStack ed) in
  let ed := with_stack stack ed in
  match nextState with
  | Some nextState => applyEditorState nextState ed
  | None => ed
  end.

(** [withSpring(v)] and [withTiming(v)] start an animation of the cell
    toward [v]; the value the cell holds once settled is [v]. *)
Definition withSpring (v : R) : R := v.
Definition withTiming (v : R) : R := v.

Definition handleRotate (ed : Editor) : Editor :=
  let ed := saveStateBeforeAction ed in
  let newRotation :=
    JsMath.rem (JsMath.rem (rotation (react ed) + 90) 360 + 360) 360 in
  let ed := with_react (setRotation newRotation) ed in
  let ed := with_react (setIsAnimating true) ed in
  with_cells (write rotationValue (withTiming newRotation)) ed.

(** *** Drawing and text stickers *)

Definition setSelectedStickerId (v : option string) (s : ReactState)
  : ReactState :=
  let 'mkReact a b c d e f g h i j k l m n o p _ r t := s in
  mkReact a b c d e f g h i j k l m n o p v r t.

Definition handleDrawingStart (ed : Editor) : Editor :=
  saveStateBeforeAction ed.

Definition handleDrawingComplete (path : DrawingPath) (ed : Editor)
  : Editor :=
  with_react (setDrawings (drawings (react ed) ++ [path])) ed.

Definition handleStickerUpdateStart (ed : Editor) : Editor :=
  saveStateBeforeAction ed.

Definition handleStickerUpdate (updatedSticker : TextSticker) (ed : Editor)
  : Editor :=
  with_react
    (setTextStickers
       (map (fun s =>
               if String.eqb (sticker_id s) (sticker_id updatedSticker)
               then updatedSticker else s)
            (textStickers (react ed))))
    ed.

Definition handleStickerDelete (stickerId : string) (ed : Editor) : Editor :=
  let ed := saveStateBeforeAction ed in
  let ed' :=
    with_react
      (setTextStickers
         (filter (fun s => negb (String.eqb (sticker_id s) stickerId))
                 (textStickers (react ed))))
      ed in
  match selectedStickerId (react ed) with
  | Some selected =>
      if String.eqb selected stickerId
      then with_react (setSelectedStickerId None) ed'
      else ed'
  | None => ed'
  end.

Section Window.

(** [Dimensions.get('window')], read once when the module loads. *)
Variables SCREEN_WIDTH SCREEN_HEIGHT : R.

Definition EDITOR_HEIGHT : R := SCREEN_HEIGHT - 120.
Definition CROP_SIZE : R :=
  Rmin (SCREEN_WIDTH - 80) (SCREEN_HEIGHT * (5 / 10)).
Definition MAX_CROP_SIZE : R :=
  Rmin (SCREEN_WIDTH - 80) (SCREEN_HEIGHT * (6 / 10)).

(** The hooks' initial values: the editor as it is first rendered. *)
Definition initialReact : ReactState :=
  mkReact None None (mkSize 0 0) (mkSize 0 0) 1
          0 free 0 0 0 crop None
          [] "#FF0000" 5 [] None 1%Z false.

Definition initialCells : Cells :=
  fun k =>
    match k with
    | scale | baseScale => 1
    | translateX | translateY | rotationValue
    | baseTranslateX | baseTranslateY => 0
    | cropX | baseCropX => (SCREEN_WIDTH - CROP_SIZE) / 2
    | cropY | baseCropY => (EDITOR_HEIGHT - CROP_SIZE) / 2
    | cropWidth | cropHeight | baseCropWidth | baseCropHeight => CROP_SIZE
    end.

Definition initialEditor : Editor :=
  mkEditor initialReact initialCells (UndoRedo.new 50).

(** *** Pan and pinch *)

Definition panOnStart (ed : Editor) : Editor :=
  let ed :=
    with_cells (write baseTranslateX (cells ed translateX)) ed in
  with_cells (write baseTranslateY (cells ed translateY)) ed.

Definition panOnUpdate (translationX translationY : R) (ed : Editor)
  : Editor :=
  let ed :=
    with_cells
      (write translateX (cells ed baseTranslateX + translationX)) ed in
  with_cells
    (write translateY (cells ed baseTranslateY + translationY)) ed.

Definition panOnEnd (ed : Editor) : Editor :=
  let ed :=
    with_cells (write baseTranslateX (cells ed translateX)) ed in
  let ed :=
    with_cells (write baseTranslateY (cells ed translateY)) ed in
  let ed := with_react (setIsAnimating true) ed in
  let ed :=
    with_cells (write translateX (withSpring (cells ed translateX))) ed in
  with_cells (write translateY (withSpring (cells ed translateY))) ed.

Definition pinchOnStart (ed : Editor) : Editor :=
  with_cells (write baseScale (cells ed scale)) ed.

Definition pinchOnUpdate (e_scale : R) (ed : Editor) : Editor :=
  let newScale := cells ed baseScale * e_scale in
  let minScale :=
    Rmax (cells ed cropWidth / size_width (imageSize (react ed)))
         (cells ed cropHeight / size_height (imageSize (react ed))) in
  with_cells (write scale (Rmax minScale (Rmin newScale 3))) ed.

Definition pinchOnEnd (ed : Editor) : Editor :=
  let ed := with_cells (write baseScale (cells ed scale)) ed in
  let ed := with_react (setIsAnimating true) ed in
  with_cells (write scale (withSpring (cells ed scale))) ed.

(** *** The crop rectangle *)

Definition clampCropToBounds (x y width height : R) : Rect :=
  let width := Rmax MIN_CROP_SIZE width in
  let height := Rmax MIN_CROP_SIZE height in
  let '(width, x) :=
    if JsMath.lt x 0 then (width + x, 0) else (width, x) in
  let '(height, y) :=
    if JsMath.lt y 0 then (height + y, 0) else (height, y) in
  let width :=
    if JsMath.gt (x + width) SCREEN_WIDTH
    then SCREEN_WIDTH - x else width in
  let height :=
    if JsMath.gt (y + height) EDITOR_HEIGHT
    then EDITOR_HEIGHT - y else height in
  let width := Rmax MIN_CROP_SIZE width in
  let height := Rmax MIN_CROP_SIZE height in
  let x :=
    if JsMath.gt (x + width) SCREEN_WIDTH
    then SCREEN_WIDTH - width else x in
  let y :=
    if JsMath.gt (y + height) EDITOR_HEIGHT
    then EDITOR_HEIGHT - height else y in
  mkRect x y width height.

Definition isLeft (handle : Corner) : bool :=
  match handle with topLeft | bottomLeft => true | _ => false end.
Definition isTop (handle : Corner) : bool :=
  match handle with topLeft | topRight => true | _ => false end.

(** The rectangle a corner [onUpdate] computes before it clamps:
    the [switch] on the handle, then the aspect-ratio block. *)
Definition cornerResize (handle : Corner) (aspectRatio : CropAspectRatio)
           (base : Rect) (deltaX deltaY : R) : Rect :=
  let newX := rect_x base in
  let newY := rect_y base in
  let newWidth := rect_width base in
  let newHeight := rect_height base in
  let '(newX, newY, newWidth, newHeight) :=
    match handle with
    | topLeft =>
        (rect_x base + deltaX, rect_y base + deltaY,
         rect_width base - deltaX, rect_height base - deltaY)
    | topRight =>
        (newX, rect_y base + deltaY,
         rect_width base + deltaX, rect_height base - deltaY)
    | bottomLeft =>
        (rect_x base + deltaX, newY,
         rect_width base - deltaX, rect_height base + deltaY)
    | bottomRight =>
        (newX, newY,
         rect_width base + deltaX, rect_height base + deltaY)
    end in
  match aspectRatio with
  | free => mkRect newX newY newWidth newHeight
  | _ =>
    let targetAspect := targetAspect_of aspectRatio in
    let absDeltaX := Rabs deltaX in
    let absDeltaY := Rabs deltaY in
    let fixedCornerX :=
      if isLeft handle then rect_x base + rect_width base
      else rect_x base in
    let fixedCornerY :=
      if isTop handle then rect_y base + rect_height base
      else rect_y base in
    if JsMath.gt absDeltaX absDeltaY then
      let newHeight := newWidth / targetAspect in
      let newX :=
        if isLeft handle then fixedCornerX - newWidth
        else rect_x base in
      let newY :=
        if isTop handle then fixedCornerY - newHeight
        else rect_y base in
      mkRect newX newY newWidth newHeight
    else
      let newWidth := newHeight * targetAspect in
      let newX :=
        if isLeft handle then fixedCornerX - newWidth
        else rect_x base in
      let newY :=
        if isTop handle then fixedCornerY - newHeight
        else rect_y base in
      mkRect newX newY newWidth newHeight
  end.

(** The live and the base crop rectangle held in the cells. *)
Definition cropRect (c : Cells) : Rect :=
  mkRect (c cropX) (c cropY) (c cropWidth) (c cropHeight).
Definition baseCropRect (c : Cells) : Rect :=
  mkRect (c baseCropX) (c baseCropY)
         (c baseCropWidth) (c baseCropHeight).

(** [createCornerHandleGesture(handle)]: its three callbacks. *)
Definition cornerOnStart (handle : CropHandle) (ed : Editor) : Editor :=
  let ed := with_cells (write baseCropX (cells ed cropX)) ed in
  let ed := with_cells (write baseCropY (cells ed cropY)) ed in
  let ed := with_cells (write baseCropWidth (cells ed cropWidth)) ed in
  let ed := with_cells (write baseCropHeight (cells ed cropHeight)) ed in
  with_react (setActiveHandle handle) ed.

Definition cornerOnUpdate (handle : CropHandle) (deltaX deltaY : R)
           (ed : Editor) : Editor :=
  match handle with
  | None => ed
  | Some corner =>
    let tentative :=
      cornerResize corner (aspectRatio (react ed))
                   (baseCropRect (cells ed)) deltaX deltaY in
    let clamped :=
      clampCropToBounds (rect_x tentative) (rect_y tentative)
                        (rect_width tentative) (rect_height tentative) in
    let ed := with_cells (write cropX (rect_x clamped)) ed in
    let ed := with_cells (write cropY (rect_y clamped)) ed in
    let ed := with_cells (write cropWidth (rect_width clamped)) ed in
    with_cells (write cropHeight (rect_height clamped)) ed
  end.

Definition cornerOnEnd (handle : CropHandle) (ed : Editor) : Editor :=
  let ed := with_cells (write baseCropX (cells ed cropX)) ed in
  let ed := with_cells (write baseCropY (cells ed cropY)) ed in
  let ed := with_cells (write baseCropWidth (cells ed cropWidth)) ed in
  let ed := with_cells (write baseCropHeight (cells ed cropHeight)) ed in
  with_react (setActiveHandle None) ed.

(** *** Gesture callbacks as events

    The gesture handler delivers callbacks on one timeline; a run of
    the editor is the fold of [step] over the delivered events. *)
Inductive GestureEvent : Type :=
| PanStart
| PanUpdate (translationX translationY : R)
| PanEnd
| PinchStart
| PinchUpdate (e_scale : R)
| PinchEnd
| CornerStart (handle : CropHandle)
| CornerUpdate (handle : CropHandle) (translationX translationY : R)
| CornerEnd (handle : CropHandle)
| SpringSettled.

Definition step (ed : Editor) (ev : GestureEvent) : Editor :=
  match ev with
  | PanStart => panOnStart ed
  | PanUpdate tx ty => panOnUpdate tx ty ed
  | PanEnd => panOnEnd ed
  | PinchStart => pinchOnStart ed
  | PinchUpdate s => pinchOnUpdate s ed
  | PinchEnd => pinchOnEnd ed
  | CornerStart h => cornerOnStart h ed
  | CornerUpdate h dx dy => cornerOnUpdate h dx dy ed
  | CornerEnd h => cornerOnEnd h ed
  | SpringSettled => with_react (setIsAnimating false) ed
  end.

Definition run (evs : list GestureEvent) (ed : Editor) : Editor :=
  fold_left step evs ed.

(** One corner-resize session: [onStart], the updates, [onEnd]. *)
Definition cornerSession (handle : CropHandle)
           (deltas : list (R * R)) : list GestureEvent :=
  CornerStart handle
    :: map (fun d => CornerUpdate handle (fst d) (snd d)) deltas
    ++ [CornerEnd handle].

(** The corner diagonally opposite [handle] of a rectangle. *)
Definition oppositeCorner (handle : Corner) (r : Rect) : Point :=
  mkPoint (if isLeft handle then rect_x r + rect_width r else rect_x r)
          (if isTop handle then rect_y r + rect_height r else rect_y r).

(** *** Aspect-ratio selection *)

Definition updateCropForAspectRatio (ed : Editor) : Editor :=
  match aspectRatio (react ed) with
  | free => ed
  | _ =>
    let targetAspect := targetAspect_of (aspectRatio (react ed)) in
    let currentWidth := cells ed cropWidth in
    let currentHeight := cells ed cropHeight in
    let currentCenterX := cells ed cropX + currentWidth / 2 in
    let currentCenterY := cells ed cropY + currentHeight / 2 in
    let '(newWidth, newHeight) :=
      if JsMath.gt (currentWidth / currentHeight) targetAspect
      then (currentHeight * targetAspect, currentHeight)
      else (currentWidth, currentWidth / targetAspect) in
    let maxWidth := SCREEN_WIDTH - 40 in
    let maxHeight := EDITOR_HEIGHT - 40 in
    let '(newWidth, newHeight) :=
      if JsMath.gt newWidth maxWidth
      then (maxWidth, maxWidth / targetAspect)
      else (newWidth, newHeight) in
    let '(newWidth, newHeight) :=
      if JsMath.gt newHeight maxHeight
      then (maxHeight * targetAspect, maxHeight)
      else (newWidth, newHeight) in
    let '(newWidth, newHeight) :=
      if JsMath.lt newWidth MIN_CROP_SIZE
      then (MIN_CROP_SIZE, MIN_CROP_SIZE / targetAspect)
      else (newWidth, newHeight) in
    let '(newWidth, newHeight) :=
      if JsMath.lt newHeight MIN_CROP_SIZE
      then (MIN_CROP_SIZE * targetAspect, MIN_CROP_SIZE)
      else (newWidth, newHeight) in
    let newX := currentCenterX - newWidth / 2 in
    let newY := currentCenterY - newHeight / 2 in
    let clamped := clampCropToBounds newX newY newWidth newHeight in
    let ed := with_cells (write cropX (withSpring (rect_x clamped))) ed in
    let ed := with_cells (write cropY (withSpring (rect_y clamped))) ed in
    let ed :=
      with_cells (write cropWidth (withSpring (rect_width clamped))) ed in
    let ed :=
      with_cells (write cropHeight (withSpring (rect_height clamped))) ed in
    let ed := with_cells (write baseCropX (rect_x clamped)) ed in
    let ed := with_cells (write baseCropY (rect_y clamped)) ed in
    let ed := with_cells (write baseCropWidth (rect_width clamped)) ed in
    with_cells (write baseCropHeight (rect_height clamped)) ed
  end.

(** *** Commit: [handleSave]

    The calls that leave the component (the view-shot capture and the
    file system) are answered by a [SaveEnv]: what each call returns,
    or that it throws. *)
Record EditMetadata : Type := mkEditMetadata
  { meta_rotation : R; meta_scale : R;
    meta_translateX : R; meta_translateY : R;
    meta_crop : Rect; meta_aspectRatio : CropAspectRatio;
    meta_brightness : R; meta_contrast : R; meta_saturation : R;
    meta_drawings : option (list DrawingPath);
    meta_textStickers : option (list TextSticker);
    meta_exifOrientation : Z }.

Record MediaFile : Type := mkMediaFile
  { media_uri : string; media_name : string; media_type : string;
    media_size : R; editMetadata : EditMetadata }.

Record SaveEnv : Type := mkSaveEnv
  { viewShotRef : bool;          (* [viewShotRef.current] is set *)
    capture : option string;     (* [None]: [capture] throws *)
    outputFileName : string;     (* [generateEditedImageFileName(..)] *)
    DocumentDirectoryPath : string;
    fs_exists : option bool;     (* [None]: [RNFS.exists] throws *)
    fs_mkdir : bool;             (* [false]: [RNFS.mkdir] throws *)
    fs_moveFile : bool;          (* [false]: [RNFS.moveFile] throws *)
    fs_stat : option R }.        (* [stats.size]; [None]: throws *)

Inductive SaveOutcome : Type :=
| SaveSkipped                       (* the guard's bare [return] *)
| SaveDone (media : MediaFile)      (* [onSave(media); handleClose()] *)
| SaveFailed (title message : string).  (* the [catch]'s alert *)

(** [!s] for a string or [null]. *)
Definition falsy (s : option string) : bool :=
  match s with
  | None => true
  | Some EmptyString => true
  | Some _ => false
  end.

Definition saveAlert : SaveOutcome :=
  SaveFailed "Error" "Failed to save edited image. Please try again.".

Definition handleSave (env : SaveEnv) (ed : Editor) : SaveOutcome :=
  let st := react ed in
  if falsy (imageUri st) || falsy (originalImageUri st)
     || JsMath.eq (size_width (imageSize st)) 0
     || JsMath.eq (size_height (imageSize st)) 0
  then SaveSkipped
  else
    let normalizedRotation :=
      JsMath.rem (JsMath.rem (rotation st) 360 + 360) 360 in
    let currentScale := cells ed scale in
    let currentTranslateX := cells ed translateX in
    let currentTranslateY := cells ed translateY in
    let currentCropX := cells ed cropX in
    let currentCropY := cells ed cropY in
    let currentCropWidth := cells ed cropWidth in
    let currentCropHeight := cells ed cropHeight in
    if negb (viewShotRef env) then saveAlert
    else
      match capture env with
      | None => saveAlert
      | Some capturedUri =>
        if falsy (Some capturedUri) then saveAlert
        else
          let imagesEditedDir :=
            (DocumentDirectoryPath env ++ "/images/edited")%string in
          match fs_exists env with
          | None => saveAlert
          | Some dirExists =>
            if negb dirExists && negb (fs_mkdir env) then saveAlert
            else
              let finalPath :=
                (imagesEditedDir ++ "/" ++ outputFileName env)%string in
              if negb (fs_moveFile env) then saveAlert
              else
                match fs_stat env with
                | None => saveAlert
                | Some size =>
                  SaveDone
                    (mkMediaFile
                       ("file://" ++ finalPath)%string
                       (outputFileName env)
                       "image/jpeg"
                       size
                       (mkEditMetadata
                          normalizedRotation currentScale
                          currentTranslateX currentTranslateY
                          (mkRect currentCropX currentCropY
                                  currentCropWidth currentCropHeight)
                          (aspectRatio st)
                          (brightness st) (contrast st) (saturation st)
                          (match drawings st with
                           | [] => None | ds => Some ds end)
                          (match textStickers st with
                           | [] => None | ts => Some ts end)
                          (exifOrientation st)))
                end
          end
      end.

End Window.

End ImageEditorScreen.

(* ================================================================== *)
(** ** Predicates used by the statements *)

Module Spec.

Import ImageEditorScreen.

(** The cells a restored snapshot writes. *)
Definition restoredCell (k : SharedValue) : bool :=
  match k with
  | scale | translateX | translateY | rotationValue
  | cropWidth | cropHeight => true
  | _ => false
  end.

(** Everything of the editor that a snapshot does not record is the same
    in [ed'] as in [ed]: the cells outside [restoredCell] (the crop
    position and every base value among them) and the React state other
    than rotation, the three filters and the two annotation layers. *)
Definition unrecordedKept (ed ed' : Editor) : Prop :=
  (forall k, restoredCell k = false -> cells ed' k = cells ed k)
  /\ imageUri (react ed') = imageUri (react ed)
  /\ originalImageUri (react ed') = originalImageUri (react ed)
  /\ imageSize (react ed') = imageSize (react ed)
  /\ previewSize (react ed') = previewSize (react ed)
  /\ previewScale (react ed') = previewScale (react ed)
  /\ aspectRatio (react ed') = aspectRatio (react ed)
  /\ mode (react ed') = mode (react ed)
  /\ activeHandle (react ed') = activeHandle (react ed)
  /\ drawColor (react ed') = drawColor (react ed)
  /\ drawStrokeWidth (react ed') = drawStrokeWidth (react ed)
  /\ selectedStickerId (react ed') = selectedStickerId (react ed)
  /\ exifOrientation (react ed') = exifOrientation (react ed)
  /\ isAnimating (react ed') = isAnimating (react ed).

(** The recorded part of [ed'] is what the snapshot holds. *)
Definition snapshotRestored (state : UndoRedo.EditorState) (ed' : Editor)
  : Prop :=
  rotation (react ed') = UndoRedo.rotation state
  /\ cells ed' rotationValue = UndoRedo.rotation state
  /\ cells ed' scale = UndoRedo.scale state
  /\ cells ed' translateX = UndoRedo.translateX state
  /\ cells ed' translateY = UndoRedo.translateY state
  /\ cells ed' cropWidth = UndoRedo.cropWidth state
  /\ cells ed' cropHeight = UndoRedo.cropHeight state
  /\ brightness (react ed') = UndoRedo.brightness state
  /\ contrast (react ed') = UndoRedo.contrast state
  /\ saturation (react ed') = UndoRedo.saturation state
  /\ drawings (react ed') = UndoRedo.drawings state
  /\ textStickers (react ed') = UndoRedo.textStickers state.

(** [minScale] of the pinch callback, from the crop size and the image
    size the editor holds at that moment. *)
Definition minScaleOf (ed : Editor) : R :=
  ExifOrientation.calculateMinScale
    (size_width (imageSize (react ed))) (size_height (imageSize (react ed)))
    (cells ed cropWidth) (cells ed cropHeight).

(** The screen rectangle that is exactly the displayed image. *)
Definition displayedRect (params : ExifOrientation.ImageDisplayParams)
  : Rect :=
  let b := ExifOrientation.calculateImageDisplayBounds params in
  mkRect (ExifOrientation.displayedX b) (ExifOrientation.displayedY b)
         (ExifOrientation.displayedWidth b)
         (ExifOrientation.displayedHeight b).

(** The two conversions' parameters for one common input. *)
Definition paramsOf (imageSize displaySize : Size)
           (transform : ImageProcessor.TransformParams)
  : ExifOrientation.ImageDisplayParams :=
  ExifOrientation.mkParams
    (size_width imageSize) (size_height imageSize)
    (size_width displaySize) (size_height displaySize)
    (ImageProcessor.scale transform)
    (ImageProcessor.translateX transform)
    (ImageProcessor.translateY transform)
    (ImageProcessor.rotation transform).

(** One axis of [clampCropToBounds]: the position and the length it
    returns for a viewport extent [limit].  The function treats the two
    axes alike and independently. *)
Definition clampAxis (limit pos len : R) : R * R :=
  let len := Rmax MIN_CROP_SIZE len in
  let '(len, pos) :=
    if JsMath.lt pos 0 then (len + pos, 0) else (len, pos) in
  let len := if JsMath.gt (pos + len) limit then limit - pos else len in
  let len := Rmax MIN_CROP_SIZE len in
  let pos := if JsMath.gt (pos + len) limit then limit - len else pos in
  (pos, len).

(** What one axis looks like once clamped: inside the viewport and at
    least the minimum long, or, in a viewport shorter than the minimum,
    the minimum length ending at the viewport's far edge. *)
Definition axisSettled (limit pos len : R) : Prop :=
  (0 <= pos /\ MIN_CROP_SIZE <= len /\ pos + len <= limit)
  \/ (limit < MIN_CROP_SIZE /\ len = MIN_CROP_SIZE
      /\ pos = limit - MIN_CROP_SIZE).

(** The width and the height a corner drag asks for by itself, as the
    [switch] on the handle computes them. *)
Definition dragWidth (handle : Corner) (base : Rect) (deltaX : R) : R :=
  if isLeft handle then rect_width base - deltaX
  else rect_width base + deltaX.

Definition dragHeight (handle : Corner) (base : Rect) (deltaY : R) : R :=
  if isTop handle then rect_height base - deltaY
  else rect_height base + deltaY.

(** Width-primary: the width is the dragged one, the height follows from
    the ratio.  Height-primary: the other way round. *)
Definition widthPrimary (handle : Corner) (ratio : CropAspectRatio)
           (base : Rect) (deltaX : R) (r : Rect) : Prop :=
  rect_width r = dragWidth handle base deltaX
  /\ rect_height r = dragWidth handle base deltaX / targetAspect_of ratio.

Definition heightPrimary (handle : Corner) (ratio : CropAspectRatio)
           (base : Rect) (deltaY : R) (r : Rect) : Prop :=
  rect_height r = dragHeight handle base deltaY
  /\ rect_width r = dragHeight handle base deltaY * targetAspect_of ratio.

(** [clampCropToBounds] applied to a rectangle's four fields. *)
Definition clampRect (SCREEN_WIDTH SCREEN_HEIGHT : R) (r : Rect) : Rect :=
  clampCropToBounds SCREEN_WIDTH SCREEN_HEIGHT
                    (rect_x r) (rect_y r) (rect_width r) (rect_height r).

(** A commit outcome with the recorded scale replaced. *)
Definition recordScale (s : R) (outcome : SaveOutcome) : SaveOutcome :=
  match outcome with
  | SaveDone (mkMediaFile uri name type size
                (mkEditMetadata rot _ tx ty rect ratio b c sa ds ts exif)) =>
      SaveDone (mkMediaFile uri name type size
                  (mkEditMetadata rot s tx ty rect ratio b c sa ds ts exif))
  | other => other
  end.

(** The condition under which [handleSave] returns at once: a missing or
    empty preview or original URI, or an image width or height of 0. *)
Definition imageMissing (ed : Editor) : Prop :=
  let st := react ed in
  (imageUri st = None \/ imageUri st = Some EmptyString)
  \/ (originalImageUri st = None \/ originalImageUri st = Some EmptyString)
  \/ size_width (imageSize st) = 0
  \/ size_height (imageSize st) = 0.

(** Every external step of [handleSave] goes through: the view-shot ref is
    set, the capture returns a non-empty URI, the output directory exists or
    is created, the file is moved and can be stat'ed. *)
Definition callsSucceed (env : SaveEnv) : Prop :=
  viewShotRef env = true
  /\ (exists uri, capture env = Some uri /\ uri <> EmptyString)
  /\ (fs_exists env = Some true
      \/ (fs_exists env = Some false /\ fs_mkdir env = true))
  /\ fs_moveFile env = true
  /\ (exists size, fs_stat env = Some size).

(** *** Predicates of the further properties *)

(** A crop rectangle that respects the viewport and the minimum size. *)
Definition validCrop (SCREEN_WIDTH SCREEN_HEIGHT : R) (r : Rect) : Prop :=
  0 <= rect_x r /\ 0 <= rect_y r
  /\ MIN_CROP_SIZE <= rect_width r /\ MIN_CROP_SIZE <= rect_height r
  /\ rect_x r + rect_width r <= SCREEN_WIDTH
  /\ rect_y r + rect_height r <= EDITOR_HEIGHT SCREEN_HEIGHT.

(** The width and height [updateCropForAspectRatio] settles on before it
    positions and clamps the rectangle. *)
Definition aspectFit (SCREEN_WIDTH SCREEN_HEIGHT : R)
           (ratio : CropAspectRatio) (currentWidth currentHeight : R)
  : R * R :=
  let targetAspect := targetAspect_of ratio in
  let '(newWidth, newHeight) :=
    if JsMath.gt (currentWidth / currentHeight) targetAspect
    then (currentHeight * targetAspect, currentHeight)
    else (currentWidth, currentWidth / targetAspect) in
  let maxWidth := SCREEN_WIDTH - 40 in
  let maxHeight := EDITOR_HEIGHT SCREEN_HEIGHT - 40 in
  let '(newWidth, newHeight) :=
    if JsMath.gt newWidth maxWidth
    then (maxWidth, maxWidth / targetAspect)
    else (newWidth, newHeight) in
  let '(newWidth, newHeight) :=
    if JsMath.gt newHeight maxHeight
    then (maxHeight * targetAspect, maxHeight)
    else (newWidth, newHeight) in
  let '(newWidth, newHeight) :=
    if JsMath.lt newWidth MIN_CROP_SIZE
    then (MIN_CROP_SIZE, MIN_CROP_SIZE / targetAspect)
    else (newWidth, newHeight) in
  if JsMath.lt newHeight MIN_CROP_SIZE
  then (MIN_CROP_SIZE * targetAspect, MIN_CROP_SIZE)
  else (newWidth, newHeight).

(** The centre of a rectangle. *)
Definition centre (r : Rect) : Point :=
  mkPoint (rect_x r + rect_width r / 2) (rect_y r + rect_height r / 2).

(** The operations of an [UndoRedoStack], and a run of them. *)
Inductive StackOp : Type :=
| OpSave (state : UndoRedo.EditorState)
| OpUndo (currentState : UndoRedo.EditorState)
| OpRedo (currentState : UndoRedo.EditorState)
| OpClear.

Definition applyOp (stack : UndoRedo.UndoRedoStack) (op : StackOp)
  : UndoRedo.UndoRedoStack :=
  match op with
  | OpSave state => UndoRedo.saveState state stack
  | OpUndo currentState => snd (UndoRedo.undo currentState stack)
  | OpRedo currentState => snd (UndoRedo.redo currentState stack)
  | OpClear => UndoRedo.clear stack
  end.

Definition runOps (ops : list StackOp) (stack : UndoRedo.UndoRedoStack)
  : UndoRedo.UndoRedoStack :=
  fold_left applyOp ops stack.

(** [v] is a whole number. *)
Definition isInteger (v : R) : Prop := exists z : Z, v = IZR z.

(** [a] and [b] differ by a whole number of full turns. *)
Definition sameAngle (a b : R) : Prop := exists k : Z, a = b + 360 * IZR k.

(** [n] presses of the rotate button. *)
Fixpoint rotateTimes (n : nat) (ed : Editor) : Editor :=
  match n with
  | O => ed
  | S n' => rotateTimes n' (handleRotate ed)
  end.

(** The events of one pan session and of one pinch session. *)
Definition panSession (deltas : list (R * R)) : list GestureEvent :=
  PanStart :: map (fun d => PanUpdate (fst d) (snd d)) deltas ++ [PanEnd].

Definition pinchSession (factors : list R) : list GestureEvent :=
  PinchStart :: map PinchUpdate factors ++ [PinchEnd].

End Spec.

(* ================================================================== *)
(** ** Concrete inputs the examples run on *)

Module Samples.

Import ImageEditorScreen.

(** A 400 x 920 window, so the editor area is 400 x 800. *)
Definition W : R := 400.
Definition H : R := 920.

(** An editor showing [photo.jpg] of the given pixel size, with the crop
    rectangle and the aspect ratio as given. *)
Definition editorWith (image : Size) (ratio : CropAspectRatio)
           (rect : Rect) : Editor :=
  let ed := initialEditor W H in
  let ed := with_react (setImageUri (Some "file:///photo.jpg"%string)) ed in
  let ed :=
    with_react (setOriginalImageUri (Some "file:///photo.jpg"%string)) ed in
  let ed := with_react (setImageSize image) ed in
  let ed := with_react (setAspectRatio ratio) ed in
  let ed := with_cells (write cropX (rect_x rect)) ed in
  let ed := with_cells (write cropY (rect_y rect)) ed in
  let ed := with_cells (write cropWidth (rect_width rect)) ed in
  with_cells (write cropHeight (rect_height rect)) ed.

(** A small image under a large crop frame. *)
Definition smallImageEditor : Editor :=
  editorWith (mkSize 100 100) free (mkRect 0 200 400 400).

(** A square-locked crop rectangle in the middle of the editor. *)
Definition squareLockedEditor : Editor :=
  editorWith (mkSize 1000 1000) ratio_1_1 (mkRect 100 100 200 200).

Definition baseRect : Rect := mkRect 100 100 200 200.

Definition snapshot0 : UndoRedo.EditorState :=
  UndoRedo.mkEditorState 0 1 0 0 300 300 0 0 0 [] [].

Definition snapshot1 : UndoRedo.EditorState :=
  UndoRedo.mkEditorState
    90 2 10 (-5) 300 300 0 0 0
    [mkDrawingPath "d1" [mkPoint 1 2; mkPoint 3 4] "#FF0000" 5] [].

(** Every external call of a commit succeeds. *)
Definition goodEnv : SaveEnv :=
  mkSaveEnv true (Some "/tmp/capture.jpg"%string) "photo_edited.jpg"
            "/data/documents" (Some true) true true (Some 2048).

(** A 1000 x 750 image at half scale, panned by (50, -30), unrotated. *)
Definition unrotatedParams : ExifOrientation.ImageDisplayParams :=
  ExifOrientation.mkParams 1000 750 400 800 (1 / 2) 50 (-30) 0.

(** A 200 x 100 image in a 400 x 400 viewport. *)
Definition wideImage : Size := mkSize 200 100.
Definition squareDisplay : Size := mkSize 400 400.
Definition centreCrop : Rect := mkRect 100 100 100 100.

Definition unrotated : ImageProcessor.TransformParams :=
  ImageProcessor.mkTransform 0 1 0 0.
Definition quarterTurn : ImageProcessor.TransformParams :=
  ImageProcessor.mkTransform 90 1 0 0.

(** The crop rectangle (10, 10, 300, 200) under a 1:1 lock. *)
Definition wideCropEditor : Editor :=
  editorWith (mkSize 1000 1000) ratio_1_1 (mkRect 10 10 300 200).

End Samples.

(* ================================================================== *)
(** * Properties *)

(** A term with no comparison left to decide inside it. *)
Ltac no_pending_test t :=
  lazymatch t with
  | context [Rle_dec] => fail
  | context [Rlt_dec] => fail
  | context [Rgt_dec] => fail
  | context [Rcase_abs] => fail
  | _ => idtac
  end.

(** Decide the comparisons of a concrete computation, innermost first,
    dropping the branch the numbers rule out. *)
Ltac decide_reals :=
  repeat match goal with
         | |- context [Rgt_dec ?a ?b] =>
             no_pending_test a; no_pending_test b;
             destruct (Rgt_dec a b); try (exfalso; lra)
         | |- context [Rlt_dec ?a ?b] =>
             no_pending_test a; no_pending_test b;
             destruct (Rlt_dec a b); try (exfalso; lra)
         | |- context [Rle_dec ?a ?b] =>
             no_pending_test a; no_pending_test b;
             destruct (Rle_dec a b); try (exfalso; lra)
         | |- context [Rcase_abs ?a] =>
             no_pending_test a;
             destruct (Rcase_abs a); try (exfalso; lra)
         end.

(** ** EXIF orientation *)

(** C4, counterexample: orientation 6 is not mapped to 90 degrees. *)
Lemma getRotationForOrientation_6_not_90 :
  ExifOrientation.getRotationForOrientation 6 <> 90%Z.
Proof. vm_compute. discriminate. Qed.

(** C4, as the code has it: orientation 1 maps to 0, 3 to 180, 6 to -90
    (a quarter turn the other way), 8, 5 and 7 to 90, the flips 2 and 4 to
    0, and every other code to 0. *)
Theorem getRotationForOrientation_table :
  ExifOrientation.getRotationForOrientation 1 = 0%Z
  /\ ExifOrientation.getRotationForOrientation 3 = 180%Z
  /\ ExifOrientation.getRotationForOrientation 6 = (-90)%Z
  /\ ExifOrientation.getRotationForOrientation 8 = 90%Z
  /\ ExifOrientation.getRotationForOrientation 5 = 90%Z
  /\ ExifOrientation.getRotationForOrientation 7 = 90%Z
  /\ ExifOrientation.getRotationForOrientation 2 = 0%Z
  /\ ExifOrientation.getRotationForOrientation 4 = 0%Z
  /\ (forall n : Z, ~ (1 <= n <= 8)%Z ->
      ExifOrientation.getRotationForOrientation n = 0%Z).
Proof.
  repeat split; try reflexivity.
  intros n Hn. unfold ExifOrientation.getRotationForOrientation.
  assert (Hnone : ExifOrientation.of_code n = None).
  { destruct n as [|p|p]; try reflexivity.
    do 4 (destruct p as [p|p|]; try reflexivity; try (exfalso; lia)). }
  now rewrite Hnone.
Qed.

(** ** Undo and redo *)

Section UndoRedoLaws.

Import UndoRedo.

Lemma spread_id {A : Type} (arr : list A) : spread arr = arr.
Proof. unfold spread. apply map_id. Qed.

(** A clone is value-equal to the state it was taken from. *)
Lemma cloneState_value (state : EditorState) : cloneState state = state.
Proof.
  destruct state as [r s tx ty cw ch b c sa ds ts].
  unfold cloneState; simpl. f_equal.
  - induction ds as [|d ds IH]; simpl; [reflexivity|].
    rewrite IH, spread_id. now destruct d.
  - induction ts as [|t ts IH]; simpl; [reflexivity|].
    rewrite IH. now destruct t.
Qed.

Lemma pop_push {A : Type} (arr : list A) (v : A) :
  pop (push arr v) = (Some v, arr).
Proof.
  unfold pop, push. rewrite rev_app_distr. simpl.
  now rewrite rev_involutive.
Qed.

Lemma length_push {A : Type} (arr : list A) (v : A) :
  List.length (push arr v) = S (List.length arr).
Proof. unfold push. rewrite length_app. simpl. lia. Qed.

(** After [saveState], the saved state is the newest undo entry, as long
    as the stack may hold at least one entry. *)
Lemma saveState_top (state : EditorState) (this : UndoRedoStack) :
  (1 <= maxStackSize this)%Z ->
  exists older,
    saveState state this = mkStack (push older state) [] (maxStackSize this).
Proof.
  intros Hmax. unfold saveState. rewrite cloneState_value.
  destruct (Z.of_nat (List.length (push (undoStack this) state))
            >? maxStackSize this)%Z eqn:Hover.
  - destruct (undoStack this) as [|oldest rest] eqn:Hu.
    + exfalso. apply Z.gtb_lt in Hover. simpl in Hover. lia.
    + exists rest. reflexivity.
  - exists (undoStack this). reflexivity.
Qed.

End UndoRedoLaws.

(** C8: for every pair of snapshots and every prior stack contents (on a
    stack whose bound is at least one, as the editor's bound of 50 is):
    after [saveState s0], [undo] with current state [s1] returns [s0], and
    the following [redo] with current state [s0] returns [s1]. *)
Theorem undo_redo_after_saveState :
  forall (s0 s1 : UndoRedo.EditorState) (stack : UndoRedo.UndoRedoStack),
    (1 <= UndoRedo.maxStackSize stack)%Z ->
    let saved := UndoRedo.saveState s0 stack in
    let undone := UndoRedo.undo s1 saved in
    let redone := UndoRedo.redo s0 (snd undone) in
    fst undone = Some s0 /\ fst redone = Some s1.
Proof.
  intros s0 s1 stack Hmax saved undone redone.
  destruct (saveState_top s0 stack Hmax) as [older Hsaved].
  subst redone undone saved. rewrite Hsaved.
  unfold UndoRedo.undo; simpl.
  rewrite length_push; simpl. rewrite pop_push; simpl.
  split; [reflexivity|].
  unfold UndoRedo.redo; simpl.
  rewrite !cloneState_value. reflexivity.
Qed.

(** C8, at a concrete input: the editor's stack of bound 50. *)
Lemma undo_redo_after_saveState_witness :
  (1 <= UndoRedo.maxStackSize (UndoRedo.new 50))%Z
  /\ fst (UndoRedo.undo Samples.snapshot1
            (UndoRedo.saveState Samples.snapshot0 (UndoRedo.new 50)))
     = Some Samples.snapshot0
  /\ fst (UndoRedo.redo Samples.snapshot0
            (snd (UndoRedo.undo Samples.snapshot1
                    (UndoRedo.saveState Samples.snapshot0
                                        (UndoRedo.new 50)))))
     = Some Samples.snapshot1.
Proof.
  split; [simpl; lia|].
  apply (undo_redo_after_saveState
           Samples.snapshot0 Samples.snapshot1 (UndoRedo.new 50)).
  simpl; lia.
Defined.

(** ** What a restored snapshot touches *)

Section RestoreFrame.

Import ImageEditorScreen.

Lemma applyEditorState_restores state ed :
  Spec.snapshotRestored state (applyEditorState state ed).
Proof.
  destruct ed as [st c stack]; destruct st.
  unfold Spec.snapshotRestored; repeat split; reflexivity.
Qed.

Lemma applyEditorState_keeps state ed :
  Spec.unrecordedKept ed (applyEditorState state ed).
Proof.
  destruct ed as [st c stack]; destruct st.
  unfold Spec.unrecordedKept; repeat split; try reflexivity.
  intros k Hk. destruct k; try discriminate Hk; reflexivity.
Qed.

Lemma with_stack_keeps stack ed :
  Spec.unrecordedKept ed (with_stack stack ed).
Proof. unfold Spec.unrecordedKept; repeat split; reflexivity. Qed.

Lemma unrecordedKept_trans ed1 ed2 ed3 :
  Spec.unrecordedKept ed1 ed2 -> Spec.unrecordedKept ed2 ed3 ->
  Spec.unrecordedKept ed1 ed3.
Proof.
  unfold Spec.unrecordedKept.
  intros (Hc & H1) (Hc' & H2). split.
  - intros k Hk. now rewrite (Hc' k Hk), (Hc k Hk).
  - repeat match goal with
           | H : _ /\ _ |- _ => destruct H
           end.
    repeat split; congruence.
Qed.

Lemma handleUndo_keeps ed : Spec.unrecordedKept ed (handleUndo ed).
Proof.
  unfold handleUndo.
  destruct (UndoRedo.undo (getCurrentEditorState ed) (undoRedoStack ed))
    as [[previous|] stack].
  - eapply unrecordedKept_trans;
      [apply with_stack_keeps | apply applyEditorState_keeps].
  - apply with_stack_keeps.
Qed.

Lemma handleRedo_keeps ed : Spec.unrecordedKept ed (handleRedo ed).
Proof.
  unfold handleRedo.
  destruct (UndoRedo.redo (getCurrentEditorState ed) (undoRedoStack ed))
    as [[next|] stack].
  - eapply unrecordedKept_trans;
      [apply with_stack_keeps | apply applyEditorState_keeps].
  - apply with_stack_keeps.
Qed.

End RestoreFrame.

(** C10: for every editor state and every restored snapshot,
    [applyEditorState] sets rotation (and its animated cell), scale,
    translateX, translateY, cropWidth, cropHeight, brightness, contrast,
    saturation, drawings and textStickers to the snapshot's values and
    changes nothing else: cropX, cropY, the aspect ratio and the mode keep
    their values, as does every other cell and state field; the same frame
    holds for the undo and redo handlers built on it. *)
Theorem applyEditorState_frame :
  forall (state : UndoRedo.EditorState) (ed : ImageEditorScreen.Editor),
    let ed' := ImageEditorScreen.applyEditorState state ed in
    Spec.snapshotRestored state ed'
    /\ ImageEditorScreen.cells ed' ImageEditorScreen.cropX
       = ImageEditorScreen.cells ed ImageEditorScreen.cropX
    /\ ImageEditorScreen.cells ed' ImageEditorScreen.cropY
       = ImageEditorScreen.cells ed ImageEditorScreen.cropY
    /\ ImageEditorScreen.aspectRatio (ImageEditorScreen.react ed')
       = ImageEditorScreen.aspectRatio (ImageEditorScreen.react ed)
    /\ ImageEditorScreen.mode (ImageEditorScreen.react ed')
       = ImageEditorScreen.mode (ImageEditorScreen.react ed)
    /\ Spec.unrecordedKept ed ed'
    /\ ImageEditorScreen.undoRedoStack ed'
       = ImageEditorScreen.undoRedoStack ed
    /\ Spec.unrecordedKept ed (ImageEditorScreen.handleUndo ed)
    /\ Spec.unrecordedKept ed (ImageEditorScreen.handleRedo ed).
Proof.
  intros state ed ed'.
  pose proof (applyEditorState_keeps state ed) as Hkeep.
  split; [apply applyEditorState_restores|].
  split; [apply Hkeep; reflexivity|].
  split; [apply Hkeep; reflexivity|].
  split; [apply Hkeep|].
  split; [apply Hkeep|].
  split; [exact Hkeep|].
  split; [reflexivity|].
  split; [apply handleUndo_keeps | apply handleRedo_keeps].
Qed.

(** ** Clamping the crop rectangle *)

Section Clamp.

Import ImageEditorScreen.

(** Case analysis on every comparison the clamp makes, innermost first,
    so that no hypothesis is left with a pending test. *)
Ltac split_comparisons :=
  repeat match goal with
         | |- context [Rle_dec ?a ?b] =>
             no_pending_test a; no_pending_test b; destruct (Rle_dec a b)
         | |- context [Rlt_dec ?a ?b] =>
             no_pending_test a; no_pending_test b; destruct (Rlt_dec a b)
         | |- context [Rgt_dec ?a ?b] =>
             no_pending_test a; no_pending_test b; destruct (Rgt_dec a b)
         end.

Lemma clampCropToBounds_axes W H x y width height :
  clampCropToBounds W H x y width height
  = mkRect (fst (Spec.clampAxis W x width))
           (fst (Spec.clampAxis (EDITOR_HEIGHT H) y height))
           (snd (Spec.clampAxis W x width))
           (snd (Spec.clampAxis (EDITOR_HEIGHT H) y height)).
Proof.
  unfold clampCropToBounds, Spec.clampAxis.
  destruct (JsMath.lt x 0), (JsMath.lt y 0); reflexivity.
Qed.

Lemma clampAxis_settled limit pos len :
  Spec.axisSettled limit (fst (Spec.clampAxis limit pos len))
                   (snd (Spec.clampAxis limit pos len)).
Proof.
  unfold Spec.axisSettled, Spec.clampAxis, JsMath.lt, JsMath.gt, Rmax,
    MIN_CROP_SIZE.
  split_comparisons; simpl; lra.
Qed.

Lemma clampAxis_fixpoint limit pos len :
  Spec.axisSettled limit pos len ->
  Spec.clampAxis limit pos len = (pos, len).
Proof.
  unfold Spec.axisSettled, Spec.clampAxis, JsMath.lt, JsMath.gt, Rmax,
    MIN_CROP_SIZE.
  intros Hsettled.
  split_comparisons; simpl; try (f_equal; lra); exfalso; lra.
Qed.

Lemma clampAxis_idempotent limit pos len :
  Spec.clampAxis limit (fst (Spec.clampAxis limit pos len))
                 (snd (Spec.clampAxis limit pos len))
  = Spec.clampAxis limit pos len.
Proof.
  rewrite (clampAxis_fixpoint _ _ _ (clampAxis_settled limit pos len)).
  now destruct (Spec.clampAxis limit pos len).
Qed.

End Clamp.

(** C7: [clampCropToBounds] is idempotent: for every window size and every
    input rectangle, clamping the clamped rectangle returns it unchanged. *)
Theorem clampCropToBounds_idempotent :
  forall (SCREEN_WIDTH SCREEN_HEIGHT x y width height : R),
    let r := ImageEditorScreen.clampCropToBounds
               SCREEN_WIDTH SCREEN_HEIGHT x y width height in
    ImageEditorScreen.clampCropToBounds
      SCREEN_WIDTH SCREEN_HEIGHT
      (rect_x r) (rect_y r) (rect_width r) (rect_height r)
    = r.
Proof.
  intros W H x y width height r. subst r.
  rewrite (clampCropToBounds_axes W H x y width height); simpl.
  rewrite clampCropToBounds_axes.
  now rewrite !clampAxis_idempotent.
Qed.

(** ** Corner resize under a locked ratio *)

Section CornerResize.

Import ImageEditorScreen.

(** With a ratio locked, the rectangle a corner update computes before
    clamping has its opposite corner where the base rectangle has it. *)
Lemma cornerResize_fixes_opposite handle ratio base deltaX deltaY :
  ratio <> free ->
  oppositeCorner handle (cornerResize handle ratio base deltaX deltaY)
  = oppositeCorner handle base.
Proof.
  intros Hlocked. unfold cornerResize, oppositeCorner.
  destruct ratio; [contradiction| | |];
    destruct (JsMath.gt (Rabs deltaX) (Rabs deltaY));
    destruct handle; simpl; f_equal; lra.
Qed.

Lemma cornerResize_height_primary handle ratio base deltaX deltaY :
  ratio <> free -> ~ Rabs deltaX > Rabs deltaY ->
  Spec.heightPrimary handle ratio base deltaY
                     (cornerResize handle ratio base deltaX deltaY).
Proof.
  intros Hlocked Hle. unfold cornerResize, JsMath.gt.
  destruct (Rgt_dec (Rabs deltaX) (Rabs deltaY)); [contradiction|].
  unfold Spec.heightPrimary, Spec.dragHeight.
  destruct ratio; [contradiction| | |];
    destruct handle; simpl; split; reflexivity.
Qed.

Lemma cornerResize_width_primary handle ratio base deltaX deltaY :
  ratio <> free -> Rabs deltaX > Rabs deltaY ->
  Spec.widthPrimary handle ratio base deltaX
                    (cornerResize handle ratio base deltaX deltaY).
Proof.
  intros Hlocked Hgt. unfold cornerResize, JsMath.gt.
  destruct (Rgt_dec (Rabs deltaX) (Rabs deltaY)); [|contradiction].
  unfold Spec.widthPrimary, Spec.dragWidth.
  destruct ratio; [contradiction| | |];
    destruct handle; simpl; split; reflexivity.
Qed.

End CornerResize.

(** C2, counterexample: dragging the bottom-right corner of a 200 x 200
    rectangle by (10, 10) under 16:9 is a tie, and the result is not the
    width-primary one (width 210, height 210 / (16/9)). *)
Lemma corner_tie_not_width_primary :
  Rabs 10 = Rabs 10
  /\ ~ Spec.widthPrimary
         ImageEditorScreen.bottomRight ratio_16_9 Samples.baseRect 10
         (ImageEditorScreen.cornerResize
            ImageEditorScreen.bottomRight ratio_16_9 Samples.baseRect 10 10).
Proof.
  split; [reflexivity|].
  intros [Hwidth _].
  pose proof (cornerResize_height_primary
                ImageEditorScreen.bottomRight ratio_16_9 Samples.baseRect
                10 10) as [_ Hw].
  - discriminate.
  - lra.
  - rewrite Hw in Hwidth.
    unfold Spec.dragHeight, Spec.dragWidth, Samples.baseRect in Hwidth.
    simpl in Hwidth. lra.
Qed.

(** C2, as the code has it: under a locked ratio, for every corner handle,
    base rectangle and target ratio, an update with |deltaX| = |deltaY|
    takes the height-primary branch: the new height is the drag-derived
    height and the new width is newHeight * targetAspect. *)
Theorem corner_tie_uses_height_primary :
  forall (handle : ImageEditorScreen.Corner) (ratio : CropAspectRatio)
         (base : Rect) (deltaX deltaY : R),
    ratio <> free ->
    Rabs deltaX = Rabs deltaY ->
    Spec.heightPrimary
      handle ratio base deltaY
      (ImageEditorScreen.cornerResize handle ratio base deltaX deltaY).
Proof.
  intros handle ratio base deltaX deltaY Hlocked Htie.
  apply cornerResize_height_primary; [exact Hlocked | lra].
Qed.

(** C2, at a concrete input: the bottom-right handle under 16:9, dragged
    by (10, 10). *)
Lemma corner_tie_uses_height_primary_witness :
  ratio_16_9 <> free
  /\ Rabs 10 = Rabs 10
  /\ Spec.heightPrimary
       ImageEditorScreen.bottomRight ratio_16_9 Samples.baseRect 10
       (ImageEditorScreen.cornerResize
          ImageEditorScreen.bottomRight ratio_16_9 Samples.baseRect 10 10).
Proof.
  split; [discriminate|]. split; [reflexivity|].
  apply (corner_tie_uses_height_primary
           ImageEditorScreen.bottomRight ratio_16_9 Samples.baseRect 10 10).
  - discriminate.
  - reflexivity.
Defined.

(** ** Corner-resize sessions *)

Section CornerSession.

Import ImageEditorScreen.

Variables SCREEN_WIDTH SCREEN_HEIGHT : R.

Lemma run_app evs1 evs2 ed :
  run SCREEN_WIDTH SCREEN_HEIGHT (evs1 ++ evs2) ed
  = run SCREEN_WIDTH SCREEN_HEIGHT evs2
        (run SCREEN_WIDTH SCREEN_HEIGHT evs1 ed).
Proof. unfold run. apply fold_left_app. Qed.

Lemma cornerOnStart_base handle ed :
  baseCropRect (cells (cornerOnStart handle ed)) = cropRect (cells ed)
  /\ aspectRatio (react (cornerOnStart handle ed)) = aspectRatio (react ed).
Proof. destruct ed as [st c stack]; destruct st. split; reflexivity. Qed.

Lemma cornerOnUpdate_rect corner deltaX deltaY ed :
  let ed' :=
    cornerOnUpdate SCREEN_WIDTH SCREEN_HEIGHT (Some corner)
                   deltaX deltaY ed in
  cropRect (cells ed')
  = Spec.clampRect SCREEN_WIDTH SCREEN_HEIGHT
      (cornerResize corner (aspectRatio (react ed))
                            (baseCropRect (cells ed)) deltaX deltaY)
  /\ baseCropRect (cells ed') = baseCropRect (cells ed)
  /\ aspectRatio (react ed') = aspectRatio (react ed).
Proof.
  unfold cornerOnUpdate, Spec.clampRect.
  destruct (clampCropToBounds _ _ _ _ _ _) as [cx cy cw ch].
  repeat split; reflexivity.
Qed.

Lemma cornerOnEnd_rect handle ed :
  cropRect (cells (cornerOnEnd handle ed)) = cropRect (cells ed).
Proof. reflexivity. Qed.

Lemma run_cons ev evs ed :
  run SCREEN_WIDTH SCREEN_HEIGHT (ev :: evs) ed
  = run SCREEN_WIDTH SCREEN_HEIGHT evs
        (step SCREEN_WIDTH SCREEN_HEIGHT ed ev).
Proof. reflexivity. Qed.

Lemma run_nil ed : run SCREEN_WIDTH SCREEN_HEIGHT [] ed = ed.
Proof. reflexivity. Qed.

(** Updates leave the base rectangle and the ratio of the session. *)
Lemma cornerUpdates_keep_base corner deltas ed :
  let ed' :=
    run SCREEN_WIDTH SCREEN_HEIGHT
        (map (fun d => CornerUpdate (Some corner) (fst d) (snd d)) deltas)
        ed in
  baseCropRect (cells ed') = baseCropRect (cells ed)
  /\ aspectRatio (react ed') = aspectRatio (react ed).
Proof.
  revert ed. induction deltas as [|d deltas IH]; intros ed;
    [split; reflexivity|].
  cbv zeta in *. rewrite map_cons, run_cons. cbn [step].
  destruct (IH (cornerOnUpdate SCREEN_WIDTH SCREEN_HEIGHT
                               (Some corner) (fst d) (snd d) ed))
    as [Hbase Hratio].
  destruct (cornerOnUpdate_rect corner (fst d) (snd d) ed)
    as (_ & Hbase' & Hratio').
  split; congruence.
Qed.

(** A session's outcome is decided by its last update alone: the crop
    rectangle it leaves is the clamped resize of the pre-drag rectangle
    by the last cumulative delta. *)
Lemma cornerSession_rect corner deltas deltaX deltaY ed :
  cropRect
    (cells (run SCREEN_WIDTH SCREEN_HEIGHT
                (cornerSession (Some corner)
                               (deltas ++ [(deltaX, deltaY)]))
                ed))
  = Spec.clampRect SCREEN_WIDTH SCREEN_HEIGHT
      (cornerResize corner (aspectRatio (react ed))
                            (cropRect (cells ed)) deltaX deltaY).
Proof.
  unfold cornerSession. rewrite map_app. cbn [map fst snd].
  rewrite run_cons, !run_app, !run_cons, !run_nil. cbn [step].
  rewrite cornerOnEnd_rect.
  match goal with
  | |- context [cornerOnUpdate _ _ _ _ _ ?e] => set (before := e)
  end.
  destruct (cornerOnUpdate_rect corner deltaX deltaY before)
    as (Hrect & _ & _).
  rewrite Hrect. subst before.
  match goal with
  | |- context [run _ _ _ ?e] => set (started := e)
  end.
  destruct (cornerUpdates_keep_base corner deltas started)
    as [Hbase Hratio].
  rewrite Hbase, Hratio. subst started.
  destruct (cornerOnStart_base (Some corner) ed) as [Hb Hr].
  now rewrite Hb, Hr.
Qed.

End CornerSession.

(** C5, at the failing input: in a 400 x 920 window with the ratio locked
    to 1:1, dragging the top-left handle of the rectangle (100, 100, 200,
    200) by (160, 150) and releasing leaves the rectangle (260, 260, 100,
    100): the bottom-right corner, (300, 300) before the drag, is at
    (360, 360) after it. *)
Theorem corner_session_moves_opposite_corner :
  let ed := Samples.squareLockedEditor in
  let ed' :=
    ImageEditorScreen.run
      Samples.W Samples.H
      (ImageEditorScreen.cornerSession
         (Some ImageEditorScreen.topLeft) [(160, 150)])
      ed in
  ImageEditorScreen.oppositeCorner
    ImageEditorScreen.topLeft
    (ImageEditorScreen.cropRect (ImageEditorScreen.cells ed))
  = mkPoint 300 300
  /\ ImageEditorScreen.cropRect (ImageEditorScreen.cells ed')
     = mkRect 260 260 100 100
  /\ ImageEditorScreen.oppositeCorner
       ImageEditorScreen.topLeft
       (ImageEditorScreen.cropRect (ImageEditorScreen.cells ed'))
     = mkPoint 360 360.
Proof.
  intros ed ed'.
  assert (Hrect : ImageEditorScreen.cropRect (ImageEditorScreen.cells ed')
                  = mkRect 260 260 100 100).
  { subst ed'.
    pose proof (cornerSession_rect Samples.W Samples.H
                  ImageEditorScreen.topLeft [] 160 150 ed) as Hsession.
    cbn [app] in Hsession. rewrite Hsession.
    replace (ImageEditorScreen.aspectRatio (ImageEditorScreen.react ed))
      with ratio_1_1 by reflexivity.
    replace (ImageEditorScreen.cropRect (ImageEditorScreen.cells ed))
      with (mkRect 100 100 200 200) by reflexivity.
    unfold Spec.clampRect. rewrite clampCropToBounds_axes.
    unfold ImageEditorScreen.cornerResize, JsMath.gt, Rabs.
    decide_reals.
    cbn [rect_x rect_y rect_width rect_height ImageEditorScreen.isLeft
         ImageEditorScreen.isTop ImageEditorScreen.targetAspect_of].
    unfold Spec.clampAxis, ImageEditorScreen.EDITOR_HEIGHT,
      ImageEditorScreen.MIN_CROP_SIZE, Samples.W, Samples.H,
      JsMath.gt, JsMath.lt, Rmax.
    decide_reals; cbn [fst snd]; decide_reals; f_equal; lra. }
  split; [|split].
  - subst ed. unfold ImageEditorScreen.oppositeCorner.
    replace (ImageEditorScreen.cropRect
               (ImageEditorScreen.cells Samples.squareLockedEditor))
      with (mkRect 100 100 200 200) by reflexivity.
    simpl. f_equal; lra.
  - exact Hrect.
  - rewrite Hrect. unfold ImageEditorScreen.oppositeCorner; simpl.
    f_equal; lra.
Qed.

(** ** Pinch *)

Section Pinch.

Import ImageEditorScreen.

Lemma pinchOnUpdate_scale e_scale ed :
  cells (pinchOnUpdate e_scale ed) scale
  = Rmax (Spec.minScaleOf ed) (Rmin (cells ed baseScale * e_scale) 3)
  /\ Spec.minScaleOf (pinchOnUpdate e_scale ed) = Spec.minScaleOf ed.
Proof. destruct ed as [st c stack]; destruct st. split; reflexivity. Qed.

End Pinch.

(** C6, counterexample: a 100 x 100 image under a 400 x 400 crop frame has
    minScale 4; a pinch update by factor 1 leaves the scale at 4, above 3. *)
Lemma pinch_scale_exceeds_3 :
  let ed' :=
    ImageEditorScreen.run
      Samples.W Samples.H
      [ImageEditorScreen.PinchStart; ImageEditorScreen.PinchUpdate 1]
      Samples.smallImageEditor in
  ~ (Spec.minScaleOf ed'
     <= ImageEditorScreen.cells ed' ImageEditorScreen.scale <= 3).
Proof.
  intros ed' [_ Hle]. subst ed'.
  change (ImageEditorScreen.run _ _ _ _)
    with (ImageEditorScreen.pinchOnUpdate
            1 (ImageEditorScreen.pinchOnStart Samples.smallImageEditor))
    in Hle.
  destruct (pinchOnUpdate_scale
              1 (ImageEditorScreen.pinchOnStart Samples.smallImageEditor))
    as [Hscale _].
  rewrite Hscale in Hle.
  replace (Spec.minScaleOf
             (ImageEditorScreen.pinchOnStart Samples.smallImageEditor))
    with (Rmax (400 / 100) (400 / 100)) in Hle by reflexivity.
  pose proof (Rmax_l (Rmax (400 / 100) (400 / 100))
                     (Rmin (ImageEditorScreen.cells
                              (ImageEditorScreen.pinchOnStart
                                 Samples.smallImageEditor)
                              ImageEditorScreen.baseScale * 1) 3)) as H1.
  pose proof (Rmax_l (400 / 100) (400 / 100)) as H2.
  lra.
Qed.

(** C6, as the code has it: for every sequence of gesture callbacks and
    every pinch update in it, right after the update the scale is
    max(minScale, min(baseScale * factor, 3)) with minScale taken from the
    crop size and the original image size of that moment; hence
    minScale <= scale <= max(minScale, 3), and scale <= 3 whenever
    minScale <= 3. *)
Theorem pinch_scale_bounds :
  forall (SCREEN_WIDTH SCREEN_HEIGHT : R)
         (evs : list ImageEditorScreen.GestureEvent) (e_scale : R)
         (ed : ImageEditorScreen.Editor),
    let before := ImageEditorScreen.run SCREEN_WIDTH SCREEN_HEIGHT evs ed in
    let ed' :=
      ImageEditorScreen.run
        SCREEN_WIDTH SCREEN_HEIGHT
        (evs ++ [ImageEditorScreen.PinchUpdate e_scale]) ed in
    ImageEditorScreen.cells ed' ImageEditorScreen.scale
    = Rmax (Spec.minScaleOf ed')
           (Rmin (ImageEditorScreen.cells before ImageEditorScreen.baseScale
                  * e_scale) 3)
    /\ Spec.minScaleOf ed'
       <= ImageEditorScreen.cells ed' ImageEditorScreen.scale
       <= Rmax (Spec.minScaleOf ed') 3
    /\ (Spec.minScaleOf ed' <= 3 ->
        ImageEditorScreen.cells ed' ImageEditorScreen.scale <= 3).
Proof.
  intros W H evs e_scale ed before ed'.
  assert (Hstep : ed' = ImageEditorScreen.pinchOnUpdate e_scale before).
  { subst ed' before. now rewrite run_app. }
  destruct (pinchOnUpdate_scale e_scale before) as [Hscale Hmin].
  rewrite Hstep, Hmin, Hscale.
  set (m := Spec.minScaleOf before).
  set (candidate := ImageEditorScreen.cells before ImageEditorScreen.baseScale
                    * e_scale).
  split; [reflexivity|].
  unfold Rmax, Rmin. decide_reals; repeat split; intros; lra.
Qed.

(** ** Commit *)

(** C3, counterexample: with the scale at zero and every external call
    succeeding, the commit is not rejected: [handleSave] reports the saved
    file, with scale 0 in its metadata. *)
Lemma handleSave_zero_scale_not_rejected :
  let ed :=
    ImageEditorScreen.with_cells
      (ImageEditorScreen.write ImageEditorScreen.scale 0)
      Samples.squareLockedEditor in
  ImageEditorScreen.cells ed ImageEditorScreen.scale <= 0
  /\ ImageEditorScreen.handleSave Samples.goodEnv ed
     <> ImageEditorScreen.saveAlert
  /\ exists media,
      ImageEditorScreen.handleSave Samples.goodEnv ed
      = ImageEditorScreen.SaveDone media
      /\ ImageEditorScreen.meta_scale (ImageEditorScreen.editMetadata media)
         = 0.
Proof.
  intros ed.
  assert (Hdone : exists media,
             ImageEditorScreen.handleSave Samples.goodEnv ed
             = ImageEditorScreen.SaveDone media
             /\ ImageEditorScreen.meta_scale
                  (ImageEditorScreen.editMetadata media) = 0).
  { subst ed. unfold ImageEditorScreen.handleSave.
    cbn [ImageEditorScreen.react ImageEditorScreen.with_cells
         ImageEditorScreen.with_react Samples.squareLockedEditor
         Samples.editorWith ImageEditorScreen.initialEditor
         ImageEditorScreen.initialReact
         ImageEditorScreen.setImageUri ImageEditorScreen.setOriginalImageUri
         ImageEditorScreen.setImageSize ImageEditorScreen.setAspectRatio
         ImageEditorScreen.imageUri ImageEditorScreen.originalImageUri
         ImageEditorScreen.imageSize ImageEditorScreen.falsy
         size_width size_height orb].
    unfold JsMath.eq.
    destruct (Req_dec_T 1000 0) as [Habs|_]; [exfalso; lra|].
    cbn [orb negb andb Samples.goodEnv ImageEditorScreen.viewShotRef
         ImageEditorScreen.capture ImageEditorScreen.falsy
         ImageEditorScreen.fs_exists ImageEditorScreen.fs_mkdir
         ImageEditorScreen.fs_moveFile ImageEditorScreen.fs_stat].
    eexists. split; [reflexivity|]. reflexivity. }
  split; [subst ed; cbn; lra|].
  split; [|exact Hdone].
  destruct Hdone as (media & Hmedia & _). rewrite Hmedia. discriminate.
Qed.

Section CommitOutcomes.

Import ImageEditorScreen.

Lemma falsy_spec (s : option string) :
  falsy s = true <-> s = None \/ s = Some EmptyString.
Proof.
  destruct s as [[|c s']|]; simpl; split; intros H; try reflexivity;
    try discriminate; auto.
  - destruct H as [H|H]; discriminate.
Qed.

Lemma eq_spec (a b : R) : JsMath.eq a b = true <-> a = b.
Proof.
  unfold JsMath.eq. destruct (Req_dec_T a b); split; intros H;
    try reflexivity; try assumption; try discriminate; contradiction.
Qed.

(** The three outcomes of [handleSave], by the editor and the answers of
    the external calls. *)
Lemma handleSave_cases env ed :
  (Spec.imageMissing ed /\ handleSave env ed = SaveSkipped)
  \/ (~ Spec.imageMissing ed /\ ~ Spec.callsSucceed env
      /\ handleSave env ed = saveAlert)
  \/ (~ Spec.imageMissing ed /\ Spec.callsSucceed env
      /\ exists media,
          handleSave env ed = SaveDone media
          /\ meta_scale (editMetadata media) = cells ed scale
          /\ meta_crop (editMetadata media)
             = mkRect (cells ed cropX) (cells ed cropY)
                      (cells ed cropWidth) (cells ed cropHeight)).
Proof.
  unfold handleSave, Spec.imageMissing.
  destruct (falsy (imageUri (react ed))) eqn:Huri.
  { left. split; [left; now apply falsy_spec | reflexivity]. }
  destruct (falsy (originalImageUri (react ed))) eqn:Horig.
  { left. split; [right; left; now apply falsy_spec | reflexivity]. }
  destruct (JsMath.eq (size_width (imageSize (react ed))) 0) eqn:Hw.
  { left. split; [right; right; left; now apply eq_spec | reflexivity]. }
  destruct (JsMath.eq (size_height (imageSize (react ed))) 0) eqn:Hh.
  { left. split; [right; right; right; now apply eq_spec | reflexivity]. }
  right. cbn [orb].
  assert (Hguard :
            ~ ((imageUri (react ed) = None
                \/ imageUri (react ed) = Some EmptyString)
               \/ (originalImageUri (react ed) = None
                   \/ originalImageUri (react ed) = Some EmptyString)
               \/ size_width (imageSize (react ed)) = 0
               \/ size_height (imageSize (react ed)) = 0)).
  { intros [H|[H|[H|H]]].
    - apply falsy_spec in H. congruence.
    - apply falsy_spec in H. congruence.
    - apply eq_spec in H. congruence.
    - apply eq_spec in H. congruence. }
  unfold Spec.callsSucceed.
  destruct (viewShotRef env) eqn:Hview; cbn [negb].
  2:{ left. split; [exact Hguard|]. split; [|reflexivity].
      intros (Hv & _). discriminate. }
  destruct (capture env) as [uri|] eqn:Hcapture.
  2:{ left. split; [exact Hguard|]. split; [|reflexivity].
      intros (_ & (uri & Hc & _) & _). discriminate. }
  destruct (falsy (Some uri)) eqn:Hcap.
  { left. split; [exact Hguard|]. split; [|reflexivity].
    intros (_ & (uri' & Hc & Hne) & _). injection Hc as <-.
    apply falsy_spec in Hcap. destruct Hcap as [Hcap|Hcap];
      [discriminate | injection Hcap as ->; now apply Hne]. }
  destruct (fs_exists env) as [dirExists|] eqn:Hexists.
  2:{ left. split; [exact Hguard|]. split; [|reflexivity].
      intros (_ & _ & [Hd|[Hd _]] & _); discriminate. }
  destruct (negb dirExists && negb (fs_mkdir env))%bool eqn:Hdir.
  { left. split; [exact Hguard|]. split; [|reflexivity].
    apply andb_prop in Hdir. destruct Hdir as [Hd Hm].
    intros (_ & _ & [He|[_ Hmk]] & _).
    - injection He as ->. discriminate.
    - rewrite Hmk in Hm. discriminate. }
  destruct (fs_moveFile env) eqn:Hmove; cbn [negb].
  2:{ left. split; [exact Hguard|]. split; [|reflexivity].
      intros (_ & _ & _ & Hmv & _). discriminate. }
  destruct (fs_stat env) as [size|] eqn:Hstat.
  2:{ left. split; [exact Hguard|]. split; [|reflexivity].
      intros (_ & _ & _ & _ & (size & Hs)). discriminate. }
  right. split; [exact Hguard|]. split.
  - split; [reflexivity|]. split.
    { exists uri. split; [reflexivity|]. intros ->. discriminate. }
    split.
    { destruct dirExists; [now left|right]. split; [reflexivity|].
      destruct (fs_mkdir env); [reflexivity|discriminate]. }
    split; [reflexivity|]. now exists size.
  - eexists. split; [reflexivity|]. split; reflexivity.
Qed.

End CommitOutcomes.

(** C3, as the code has it: [handleSave] never inspects the scale.  For
    every editor, every answer of the external calls and every value [s]
    (zero and negative ones included), committing with the scale at [s]
    has the outcome of committing with any other scale, a saved commit
    recording [s] itself in the metadata; no screen-to-image conversion,
    hence no division by the scale, is part of the commit.  What decides
    the outcome is the image and the external calls alone: the commit
    returns without a report exactly when a URI or an image dimension is
    missing, it ends in the generic failure alert exactly when the image is
    there and one of the external calls fails, and it is saved exactly when
    the image is there and every external call succeeds; a saved commit
    records the scale cell as it is and the crop rectangle in screen
    coordinates. *)
Theorem handleSave_ignores_scale :
  forall (env : ImageEditorScreen.SaveEnv) (ed : ImageEditorScreen.Editor)
         (s : R),
    ImageEditorScreen.handleSave
      env
      (ImageEditorScreen.with_cells
         (ImageEditorScreen.write ImageEditorScreen.scale s) ed)
    = Spec.recordScale s (ImageEditorScreen.handleSave env ed)
    /\ (ImageEditorScreen.handleSave env ed = ImageEditorScreen.SaveSkipped
        <-> Spec.imageMissing ed)
    /\ (ImageEditorScreen.handleSave env ed = ImageEditorScreen.saveAlert
        <-> ~ Spec.imageMissing ed /\ ~ Spec.callsSucceed env)
    /\ ((exists media,
           ImageEditorScreen.handleSave env ed
           = ImageEditorScreen.SaveDone media)
        <-> ~ Spec.imageMissing ed /\ Spec.callsSucceed env)
    /\ (forall media,
          ImageEditorScreen.handleSave env ed
          = ImageEditorScreen.SaveDone media ->
          ImageEditorScreen.meta_scale (ImageEditorScreen.editMetadata media)
          = ImageEditorScreen.cells ed ImageEditorScreen.scale
          /\ ImageEditorScreen.meta_crop
               (ImageEditorScreen.editMetadata media)
             = mkRect
                 (ImageEditorScreen.cells ed ImageEditorScreen.cropX)
                 (ImageEditorScreen.cells ed ImageEditorScreen.cropY)
                 (ImageEditorScreen.cells ed ImageEditorScreen.cropWidth)
                 (ImageEditorScreen.cells ed ImageEditorScreen.cropHeight)).
Proof.
  intros env ed s. split.
  { destruct ed as [st c stack].
    unfold ImageEditorScreen.handleSave, ImageEditorScreen.with_cells.
    cbn [ImageEditorScreen.react ImageEditorScreen.cells].
    destruct (_ || _ || _ || _)%bool; [reflexivity|].
    destruct (ImageEditorScreen.viewShotRef env); [|reflexivity].
    destruct (ImageEditorScreen.capture env) as [capturedUri|];
      [|reflexivity].
    cbn [negb].
    destruct (ImageEditorScreen.falsy (Some capturedUri)); [reflexivity|].
    destruct (ImageEditorScreen.fs_exists env) as [dirExists|];
      [|reflexivity].
    destruct (negb dirExists && negb (ImageEditorScreen.fs_mkdir env))%bool;
      [reflexivity|].
    destruct (ImageEditorScreen.fs_moveFile env); [|reflexivity].
    destruct (ImageEditorScreen.fs_stat env) as [size|]; reflexivity. }
  unfold ImageEditorScreen.saveAlert.
  destruct (handleSave_cases env ed)
    as [(Hmiss & Hout)
       |[(Hpresent & Hfail & Hout)
        |(Hpresent & Hok & media & Hout & Hscale & Hcrop)]];
    unfold ImageEditorScreen.saveAlert in Hout; rewrite Hout.
  - split; [split; [intros _; exact Hmiss | reflexivity]|].
    split; [split; [discriminate | intros [Hp _]; contradiction]|].
    split; [|discriminate].
    split; [intros [m Hm]; discriminate | intros [Hp _]; contradiction].
  - split; [split; [discriminate | contradiction]|].
    split; [split; [intros _; now split | reflexivity]|].
    split; [|discriminate].
    split; [intros [m Hm]; discriminate | intros [_ Hc]; contradiction].
  - split; [split; [discriminate | contradiction]|].
    split; [split; [discriminate | intros [_ Hc]; contradiction]|].
    split; [split; [intros _; now split | intros _; now exists media]|].
    intros m [= <-]. now split.
Qed.

(** ** Screen-to-image conversion *)

Section Conversion.

Import ExifOrientation.

Lemma round_IZR (n : Z) : JsMath.round (IZR n) = IZR n.
Proof.
  unfold JsMath.round. f_equal. apply Zfloor_eq. lra.
Qed.

(** Rounding moves a number by at most one half. *)
Lemma round_near (v : R) : Rabs (JsMath.round v - v) <= / 2.
Proof.
  unfold JsMath.round.
  pose proof (Zfloor_bound (v + / 2)) as [Hlo Hhi].
  apply Rabs_le. lra.
Qed.

(** Unrotated, the displayed box is the scaled image. *)
Lemma displayBounds_unrotated (params : ImageDisplayParams) :
  rotation params = 0 ->
  displayedWidth (calculateImageDisplayBounds params)
  = imageWidth params * scale params
  /\ displayedHeight (calculateImageDisplayBounds params)
     = imageHeight params * scale params.
Proof.
  intros Hrot. unfold calculateImageDisplayBounds; simpl.
  rewrite Hrot.
  replace (0 * PI / 180) with 0 by lra.
  rewrite cos_0, sin_0, Rabs_R1, Rabs_R0. split; lra.
Qed.

Lemma neq_same (v : R) : JsMath.neq v v = false.
Proof. unfold JsMath.neq. now destruct (Req_dec_T v v). Qed.

Lemma neq_differs (a b : R) : a <> b -> JsMath.neq a b = true.
Proof. unfold JsMath.neq. now destruct (Req_dec_T a b). Qed.

End Conversion.

(** C1: with rotation 0, for every image at least one pixel wide and high,
    every viewport size, every strictly positive scale and every
    translation, [screenToImageCoordinates] maps the screen rectangle that
    is exactly the displayed image to x = 0, y = 0 and the image's width
    and height rounded to integers: within one half of them, and equal to
    them when they are whole numbers of pixels. *)
Theorem screenToImage_of_displayed_bounds :
  forall params : ExifOrientation.ImageDisplayParams,
    ExifOrientation.rotation params = 0 ->
    0 < ExifOrientation.scale params ->
    1 <= ExifOrientation.imageWidth params ->
    1 <= ExifOrientation.imageHeight params ->
    let r :=
      ExifOrientation.screenToImageCoordinates
        (Spec.displayedRect params) params in
    rect_x r = 0
    /\ rect_y r = 0
    /\ rect_width r = JsMath.round (ExifOrientation.imageWidth params)
    /\ rect_height r = JsMath.round (ExifOrientation.imageHeight params)
    /\ Rabs (rect_width r - ExifOrientation.imageWidth params) <= / 2
    /\ Rabs (rect_height r - ExifOrientation.imageHeight params) <= / 2
    /\ (forall w h : Z,
          ExifOrientation.imageWidth params = IZR w ->
          ExifOrientation.imageHeight params = IZR h ->
          r = mkRect 0 0 (IZR w) (IZR h)).
Proof.
  intros params Hrot Hscale Hw Hh r.
  destruct (displayBounds_unrotated params Hrot) as [Hdw Hdh].
  assert (Hr : r = mkRect 0 0
                 (JsMath.round (ExifOrientation.imageWidth params))
                 (JsMath.round (ExifOrientation.imageHeight params))).
  { subst r. unfold ExifOrientation.screenToImageCoordinates.
    rewrite Hrot, neq_same.
    unfold Spec.displayedRect; cbn [rect_x rect_y rect_width rect_height].
    rewrite Hdw, Hdh.
    set (b := ExifOrientation.calculateImageDisplayBounds params).
    replace ((ExifOrientation.displayedX b - ExifOrientation.displayedX b)
             / ExifOrientation.scale params) with 0 by (field; lra).
    replace ((ExifOrientation.displayedY b - ExifOrientation.displayedY b)
             / ExifOrientation.scale params) with 0 by (field; lra).
    replace (ExifOrientation.imageWidth params * ExifOrientation.scale params
             / ExifOrientation.scale params)
      with (ExifOrientation.imageWidth params) by (field; lra).
    replace (ExifOrientation.imageHeight params * ExifOrientation.scale params
             / ExifOrientation.scale params)
      with (ExifOrientation.imageHeight params) by (field; lra).
    assert (Hx : Rmax 0 (Rmin (ExifOrientation.imageWidth params - 1) 0) = 0)
      by (unfold Rmax, Rmin; decide_reals; lra).
    assert (Hy : Rmax 0 (Rmin (ExifOrientation.imageHeight params - 1) 0) = 0)
      by (unfold Rmax, Rmin; decide_reals; lra).
    rewrite Hx, Hy.
    assert (Hcw : Rmax 1 (Rmin (ExifOrientation.imageWidth params - 0)
                               (ExifOrientation.imageWidth params))
                  = ExifOrientation.imageWidth params)
      by (unfold Rmax, Rmin; decide_reals; lra).
    assert (Hch : Rmax 1 (Rmin (ExifOrientation.imageHeight params - 0)
                               (ExifOrientation.imageHeight params))
                  = ExifOrientation.imageHeight params)
      by (unfold Rmax, Rmin; decide_reals; lra).
    rewrite Hcw, Hch. now rewrite (round_IZR 0). }
  rewrite Hr; cbn [rect_x rect_y rect_width rect_height].
  repeat split; try reflexivity; try apply round_near.
  intros w h Hiw Hih. now rewrite Hiw, Hih, !round_IZR.
Qed.

(** C1, at a concrete input: a 1000 x 750 image at scale 1/2, panned by
    (50, -30) in a 400 x 800 viewport. *)
Lemma screenToImage_of_displayed_bounds_witness :
  ExifOrientation.rotation Samples.unrotatedParams = 0
  /\ 0 < ExifOrientation.scale Samples.unrotatedParams
  /\ 1 <= ExifOrientation.imageWidth Samples.unrotatedParams
  /\ 1 <= ExifOrientation.imageHeight Samples.unrotatedParams
  /\ ExifOrientation.screenToImageCoordinates
       (Spec.displayedRect Samples.unrotatedParams) Samples.unrotatedParams
     = mkRect 0 0 1000 750.
Proof.
  assert (Hrot : ExifOrientation.rotation Samples.unrotatedParams = 0)
    by reflexivity.
  assert (Hscale : 0 < ExifOrientation.scale Samples.unrotatedParams)
    by (simpl; lra).
  assert (Hw : 1 <= ExifOrientation.imageWidth Samples.unrotatedParams)
    by (simpl; lra).
  assert (Hh : 1 <= ExifOrientation.imageHeight Samples.unrotatedParams)
    by (simpl; lra).
  repeat (split; [assumption|]).
  apply (screenToImage_of_displayed_bounds
           Samples.unrotatedParams Hrot Hscale Hw Hh);
    reflexivity.
Defined.

(** ** The two conversions compared *)

Section TwoConversions.

Lemma displayedX_of_width (params : ExifOrientation.ImageDisplayParams) :
  let b := ExifOrientation.calculateImageDisplayBounds params in
  ExifOrientation.displayedX b
  = (ExifOrientation.displayWidth params
     - ExifOrientation.displayedWidth b) / 2
    + ExifOrientation.translateX params
  /\ ExifOrientation.displayedY b
     = (ExifOrientation.displayHeight params
        - ExifOrientation.displayedHeight b) / 2
       + ExifOrientation.translateY params.
Proof. split; reflexivity. Qed.

End TwoConversions.

(** C9, as the code has it: for every common input with rotation 0 and a
    strictly positive scale (any image size, display size, crop rectangle
    and translation), [calculateCropCoordinates] returns the rectangle that
    [screenToImageCoordinates] returns. *)
Theorem calculateCropCoordinates_agrees :
  forall (imageSize displaySize : Size) (cropArea : Rect)
         (transform : ImageProcessor.TransformParams),
    ImageProcessor.rotation transform = 0 ->
    0 < ImageProcessor.scale transform ->
    ImageProcessor.calculateCropCoordinates
      imageSize displaySize cropArea transform
    = ExifOrientation.screenToImageCoordinates
        cropArea (Spec.paramsOf imageSize displaySize transform).
Proof.
  intros imageSize displaySize cropArea transform Hrot _.
  destruct (displayedX_of_width
              (Spec.paramsOf imageSize displaySize transform)) as [Hx Hy].
  destruct (displayBounds_unrotated
              (Spec.paramsOf imageSize displaySize transform) Hrot)
    as [Hw Hh].
  rewrite Hw in Hx. rewrite Hh in Hy.
  unfold ExifOrientation.screenToImageCoordinates.
  rewrite Hx, Hy.
  reflexivity.
Qed.

(** C9, at a concrete input: the unrotated 200 x 100 image at scale 1. *)
Lemma calculateCropCoordinates_agrees_witness :
  ImageProcessor.rotation Samples.unrotated = 0
  /\ 0 < ImageProcessor.scale Samples.unrotated
  /\ ImageProcessor.calculateCropCoordinates
       Samples.wideImage Samples.squareDisplay Samples.centreCrop
       Samples.unrotated
     = ExifOrientation.screenToImageCoordinates
         Samples.centreCrop
         (Spec.paramsOf Samples.wideImage Samples.squareDisplay
                        Samples.unrotated).
Proof.
  assert (Hscale : 0 < ImageProcessor.scale Samples.unrotated)
    by (simpl; lra).
  split; [reflexivity|]. split; [exact Hscale|].
  apply (calculateCropCoordinates_agrees
           Samples.wideImage Samples.squareDisplay Samples.centreCrop
           Samples.unrotated eq_refl Hscale).
Defined.

Section QuarterTurn.

Lemma quarter_turn_trig :
  cos (90 * PI / 180) = 0 /\ sin (90 * PI / 180) = 1
  /\ cos (Ropp 90 * PI / 180) = 0 /\ sin (Ropp 90 * PI / 180) = -1.
Proof.
  replace (90 * PI / 180) with (PI / 2) by lra.
  replace (Ropp 90 * PI / 180) with (- (PI / 2)) by lra.
  rewrite cos_neg, sin_neg, cos_PI2, sin_PI2. repeat split; lra.
Qed.

(** Put the turned corners in closed form, then take the bounding box,
    clamp and round. *)
Ltac corners_are pts :=
  match goal with
  | |- context [map pt_x ?l] =>
      replace l with pts by (cbn [map pt_x pt_y]; repeat f_equal; lra)
  end.

Ltac no_minmax t :=
  lazymatch t with
  | context [Rmin] => fail
  | context [Rmax] => fail
  | _ => idtac
  end.

Ltac eval_minmax :=
  repeat match goal with
         | |- context [Rmin ?a ?b] =>
             no_minmax a; no_minmax b;
             first [ rewrite (Rmin_left a b) by lra
                   | rewrite (Rmin_right a b) by lra ]
         | |- context [Rmax ?a ?b] =>
             no_minmax a; no_minmax b;
             first [ rewrite (Rmax_left a b) by lra
                   | rewrite (Rmax_right a b) by lra ]
         end.

Ltac round_to_integers :=
  cbn [map pt_x pt_y JsMath.min_of JsMath.max_of fold_left];
  eval_minmax;
  f_equal;
  match goal with
  | |- JsMath.round ?e = IZR ?n =>
      replace e with (IZR n) by lra; apply round_IZR
  end.

Lemma screenToImage_quarter_turn :
  ExifOrientation.screenToImageCoordinates
    Samples.centreCrop
    (Spec.paramsOf Samples.wideImage Samples.squareDisplay
                   Samples.quarterTurn)
  = mkRect 50 99 100 1.
Proof.
  destruct quarter_turn_trig as (Hc & Hs & Hcn & Hsn).
  unfold ExifOrientation.screenToImageCoordinates,
    ExifOrientation.calculateImageDisplayBounds.
  cbn [Spec.paramsOf Samples.wideImage Samples.squareDisplay
       Samples.quarterTurn Samples.centreCrop
       ExifOrientation.rotation ExifOrientation.scale
       ExifOrientation.imageWidth ExifOrientation.imageHeight
       ExifOrientation.displayWidth ExifOrientation.displayHeight
       ExifOrientation.translateX ExifOrientation.translateY
       ExifOrientation.displayedX ExifOrientation.displayedY
       ImageProcessor.rotation ImageProcessor.scale
       ImageProcessor.translateX ImageProcessor.translateY
       size_width size_height rect_x rect_y rect_width rect_height].
  rewrite (neq_differs 90 0) by lra.
  rewrite Hc, Hs, Hcn, Hsn, Rabs_R0, Rabs_R1.
  cbv beta iota zeta.
  corners_are [mkPoint 50 200; mkPoint 50 100;
               mkPoint 150 200; mkPoint 150 100].
  round_to_integers.
Qed.

Lemma calculateCropCoordinates_quarter_turn :
  ImageProcessor.calculateCropCoordinates
    Samples.wideImage Samples.squareDisplay Samples.centreCrop
    Samples.quarterTurn
  = mkRect 0 50 100 50.
Proof.
  destruct quarter_turn_trig as (_ & _ & Hcn & Hsn).
  unfold ImageProcessor.calculateCropCoordinates.
  cbn [Samples.wideImage Samples.squareDisplay
       Samples.quarterTurn Samples.centreCrop
       ImageProcessor.rotation ImageProcessor.scale
       ImageProcessor.translateX ImageProcessor.translateY
       size_width size_height rect_x rect_y rect_width rect_height].
  rewrite (neq_differs 90 0) by lra.
  rewrite Hcn, Hsn.
  cbv beta iota zeta.
  corners_are [mkPoint 0 150; mkPoint 0 50;
               mkPoint 100 150; mkPoint 100 50].
  round_to_integers.
Qed.

End QuarterTurn.

(** C9, counterexample: a 200 x 100 image in a 400 x 400 viewport at scale
    1, turned by 90 degrees, with the crop rectangle (100, 100, 100, 100).
    [screenToImageCoordinates] centres the rotated 100 x 200 bounding box
    and returns (50, 99, 100, 1); [calculateCropCoordinates] centres the
    unrotated 200 x 100 image and returns (0, 50, 100, 50). *)
Lemma conversions_differ_at_quarter_turn :
  0 < ImageProcessor.scale Samples.quarterTurn
  /\ ExifOrientation.screenToImageCoordinates
       Samples.centreCrop
       (Spec.paramsOf Samples.wideImage Samples.squareDisplay
                      Samples.quarterTurn)
     = mkRect 50 99 100 1
  /\ ImageProcessor.calculateCropCoordinates
       Samples.wideImage Samples.squareDisplay Samples.centreCrop
       Samples.quarterTurn
     = mkRect 0 50 100 50
  /\ ImageProcessor.calculateCropCoordinates
       Samples.wideImage Samples.squareDisplay Samples.centreCrop
       Samples.quarterTurn
     <> ExifOrientation.screenToImageCoordinates
          Samples.centreCrop
          (Spec.paramsOf Samples.wideImage Samples.squareDisplay
                         Samples.quarterTurn).
Proof.
  split; [simpl; lra|].
  split; [apply screenToImage_quarter_turn|].
  split; [apply calculateCropCoordinates_quarter_turn|].
  rewrite screenToImage_quarter_turn, calculateCropCoordinates_quarter_turn.
  intros Heq. injection Heq as Hx _ _. lra.
Qed.

(* ================================================================== *)
(** * Further properties of the modelled code *)

(** ** The undo/redo stack *)

Section StackLaws.

Import UndoRedo.

Lemma pop_nonempty {A : Type} (arr : list A) :
  arr <> [] -> exists front v, arr = push front v.
Proof.
  intros Hne. destruct (rev arr) as [|v front] eqn:Hrev.
  - apply (f_equal (@rev A)) in Hrev. rewrite rev_involutive in Hrev.
    contradiction.
  - exists (rev front), v. unfold push.
    apply (f_equal (@rev A)) in Hrev. now rewrite rev_involutive in Hrev.
Qed.

Lemma pop_some {A : Type} (arr front : list A) (v : A) :
  pop arr = (Some v, front) -> arr = push front v.
Proof.
  destruct arr as [|a arr'] eqn:Harr; [discriminate|].
  destruct (pop_nonempty (a :: arr')) as (front' & v' & Hpush);
    [discriminate|].
  rewrite Hpush, pop_push. now intros [= -> ->].
Qed.

Lemma length_zero_nil {A : Type} (arr : list A) :
  Nat.eqb (List.length arr) 0 = true <-> arr = [].
Proof.
  destruct arr; simpl; split; intros H; try reflexivity; discriminate.
Qed.

(** The depth invariant one operation keeps. *)
Lemma applyOp_depth stack op :
  (0 <= maxStackSize stack)%Z ->
  (Z.of_nat (List.length (undoStack stack))
   + Z.of_nat (List.length (redoStack stack)) <= maxStackSize stack)%Z ->
  let stack' := Spec.applyOp stack op in
  maxStackSize stack' = maxStackSize stack
  /\ (Z.of_nat (List.length (undoStack stack'))
      + Z.of_nat (List.length (redoStack stack'))
      <= maxStackSize stack')%Z.
Proof.
  intros Hmax Hdepth. destruct stack as [u r m].
  cbn [undoStack redoStack maxStackSize] in *.
  destruct op as [state|cur|cur|]; cbv zeta; cbn [Spec.applyOp].
  - unfold saveState. cbn [undoStack redoStack maxStackSize].
    destruct (Z.gtb_spec (Z.of_nat (List.length (push u (cloneState state))))
                         m) as [Hover|Hfits];
      cbn [undoStack redoStack maxStackSize List.length];
      (split; [reflexivity|]).
    + rewrite length_push in Hover.
      destruct u as [|oldest rest]; cbn [List.length] in *;
        unfold shift, push; cbn [app tl]; rewrite ?length_app;
        cbn [List.length]; lia.
    + rewrite length_push in *. lia.
  - unfold undo. cbn [undoStack redoStack maxStackSize].
    destruct (Nat.eqb (List.length u) 0) eqn:Hempty;
      cbn [snd undoStack redoStack maxStackSize];
      [split; [reflexivity|lia]|].
    destruct (pop_nonempty u) as (front & v & Hu).
    { intros ->. discriminate. }
    rewrite Hu, pop_push. cbn [snd undoStack redoStack maxStackSize].
    split; [reflexivity|].
    rewrite Hu in Hdepth. rewrite !length_push in *. lia.
  - unfold redo. cbn [undoStack redoStack maxStackSize].
    destruct (Nat.eqb (List.length r) 0) eqn:Hempty;
      cbn [snd undoStack redoStack maxStackSize];
      [split; [reflexivity|lia]|].
    destruct (pop_nonempty r) as (front & v & Hr).
    { intros ->. discriminate. }
    rewrite Hr, pop_push. cbn [snd undoStack redoStack maxStackSize].
    split; [reflexivity|].
    rewrite Hr in Hdepth. rewrite !length_push in *. lia.
  - unfold clear. cbn [undoStack redoStack maxStackSize List.length].
    split; [reflexivity|lia].
Qed.

Lemma runOps_depth ops stack :
  (0 <= maxStackSize stack)%Z ->
  (Z.of_nat (List.length (undoStack stack))
   + Z.of_nat (List.length (redoStack stack)) <= maxStackSize stack)%Z ->
  let stack' := Spec.runOps ops stack in
  maxStackSize stack' = maxStackSize stack
  /\ (Z.of_nat (List.length (undoStack stack'))
      + Z.of_nat (List.length (redoStack stack'))
      <= maxStackSize stack')%Z.
Proof.
  revert stack. induction ops as [|op ops IH]; intros stack Hmax Hdepth.
  - split; [reflexivity|exact Hdepth].
  - destruct (applyOp_depth stack op Hmax Hdepth) as [Hm Hd].
    unfold Spec.runOps in *. simpl fold_left.
    destruct (IH (Spec.applyOp stack op)) as [Hm' Hd'];
      [now rewrite Hm | exact Hd |].
    cbv zeta. split; [now rewrite Hm', Hm | exact Hd'].
Qed.

End StackLaws.

(** X1: on a stack created with a bound of at least zero, after any
    sequence of [saveState], [undo], [redo] and [clear] calls the undo and
    the redo stack together hold at most [maxStackSize] entries, so neither
    ever exceeds the bound. *)
Theorem undoRedo_depth_bounded :
  forall (maxStackSize : Z) (ops : list Spec.StackOp),
    (0 <= maxStackSize)%Z ->
    let stack := Spec.runOps ops (UndoRedo.new maxStackSize) in
    (Z.of_nat (List.length (UndoRedo.undoStack stack))
     + Z.of_nat (List.length (UndoRedo.redoStack stack))
     <= maxStackSize)%Z.
Proof.
  intros m ops Hm stack.
  destruct (runOps_depth ops (UndoRedo.new m)) as [Hmax Hdepth];
    [exact Hm | simpl; lia |].
  fold stack in Hmax, Hdepth. simpl in Hmax. now rewrite Hmax in Hdepth.
Qed.

(** X1, at a concrete input: two saves, an undo and a redo on a stack of
    bound 1. *)
Lemma undoRedo_depth_bounded_witness :
  (0 <= 1)%Z
  /\ let stack :=
       Spec.runOps
         [Spec.OpSave Samples.snapshot0; Spec.OpSave Samples.snapshot1;
          Spec.OpUndo Samples.snapshot0; Spec.OpRedo Samples.snapshot1]
         (UndoRedo.new 1) in
     (Z.of_nat (List.length (UndoRedo.undoStack stack))
      + Z.of_nat (List.length (UndoRedo.redoStack stack)) <= 1)%Z.
Proof.
  split; [lia|].
  apply (undoRedo_depth_bounded 1). lia.
Defined.

(** X2: [saveState] on a full undo stack drops the oldest entry, keeps the
    others in order under the saved state, and empties the redo stack,
    whatever it held. *)
Theorem saveState_evicts_oldest :
  forall (state oldest : UndoRedo.EditorState)
         (rest redo : list UndoRedo.EditorState) (maxStackSize : Z),
    Z.of_nat (List.length (oldest :: rest)) = maxStackSize ->
    UndoRedo.saveState state (UndoRedo.mkStack (oldest :: rest) redo
                                               maxStackSize)
    = UndoRedo.mkStack (rest ++ [state]) [] maxStackSize.
Proof.
  intros state oldest rest redo m Hfull.
  unfold UndoRedo.saveState.
  cbn [UndoRedo.undoStack UndoRedo.maxStackSize].
  rewrite cloneState_value, length_push.
  destruct (Z.gtb_spec (Z.of_nat (S (List.length (oldest :: rest)))) m)
    as [_|Hfits]; [reflexivity | lia].
Qed.

(** X2, at a concrete input: a stack of bound 1 that holds one entry. *)
Lemma saveState_evicts_oldest_witness :
  Z.of_nat (List.length [Samples.snapshot0]) = 1%Z
  /\ UndoRedo.saveState
       Samples.snapshot1
       (UndoRedo.mkStack [Samples.snapshot0] [Samples.snapshot1] 1)
     = UndoRedo.mkStack [Samples.snapshot1] [] 1.
Proof.
  split; [reflexivity|].
  apply (saveState_evicts_oldest
           Samples.snapshot1 Samples.snapshot0 [] [Samples.snapshot1] 1).
  reflexivity.
Defined.

Lemma stack_can_spec :
  forall (currentState : UndoRedo.EditorState)
         (stack : UndoRedo.UndoRedoStack),
    (UndoRedo.canUndo stack = true ->
     exists previous,
       fst (UndoRedo.undo currentState stack) = Some previous)
    /\ (UndoRedo.canUndo stack = false ->
        UndoRedo.undo currentState stack = (None, stack))
    /\ (UndoRedo.canRedo stack = true ->
        exists next, fst (UndoRedo.redo currentState stack) = Some next)
    /\ (UndoRedo.canRedo stack = false ->
        UndoRedo.redo currentState stack = (None, stack)).
Proof.
  intros cur [u r m].
  unfold UndoRedo.canUndo, UndoRedo.canRedo, UndoRedo.undo, UndoRedo.redo.
  cbn [UndoRedo.undoStack UndoRedo.redoStack UndoRedo.maxStackSize].
  repeat split; intros Hcan.
  - destruct (Nat.eqb (List.length u) 0) eqn:Hempty; [discriminate|].
    destruct (pop_nonempty u) as (front & v & Hu);
      [intros ->; discriminate|].
    rewrite Hu, pop_push. now exists v.
  - destruct (Nat.eqb (List.length u) 0); [reflexivity|discriminate].
  - destruct (Nat.eqb (List.length r) 0) eqn:Hempty; [discriminate|].
    destruct (pop_nonempty r) as (front & v & Hr);
      [intros ->; discriminate|].
    rewrite Hr, pop_push. now exists v.
  - destruct (Nat.eqb (List.length r) 0); [reflexivity|discriminate].
Qed.

(** X3: [undo] succeeds exactly when [canUndo] says so and [redo] exactly
    when [canRedo] does; a call that has nothing to restore returns [null]
    and leaves both stacks as they were (the current state is not pushed
    anywhere). *)
Theorem undo_redo_agree_with_can :
  forall (currentState : UndoRedo.EditorState)
         (stack : UndoRedo.UndoRedoStack),
    (UndoRedo.canUndo stack = true ->
     exists previous,
       fst (UndoRedo.undo currentState stack) = Some previous)
    /\ (UndoRedo.canUndo stack = false ->
        UndoRedo.undo currentState stack = (None, stack))
    /\ (UndoRedo.canRedo stack = true ->
        exists next, fst (UndoRedo.redo currentState stack) = Some next)
    /\ (UndoRedo.canRedo stack = false ->
        UndoRedo.redo currentState stack = (None, stack)).
Proof. exact stack_can_spec. Qed.

Lemma redo_inverts_undo :
  forall (current previous : UndoRedo.EditorState)
         (stack stack' : UndoRedo.UndoRedoStack),
    UndoRedo.undo current stack = (Some previous, stack') ->
    UndoRedo.redo previous stack' = (Some current, stack).
Proof.
  intros cur prev [u r m] stack'. unfold UndoRedo.undo.
  cbn [UndoRedo.undoStack UndoRedo.redoStack UndoRedo.maxStackSize].
  destruct (Nat.eqb (List.length u) 0); [discriminate|].
  destruct (UndoRedo.pop u) as [popped front] eqn:Hpop.
  intros [= -> <-]. apply pop_some in Hpop. subst u.
  unfold UndoRedo.redo.
  cbn [UndoRedo.undoStack UndoRedo.redoStack UndoRedo.maxStackSize].
  rewrite length_push, pop_push, !cloneState_value. reflexivity.
Qed.

Lemma undo_inverts_redo :
  forall (current next : UndoRedo.EditorState)
         (stack stack' : UndoRedo.UndoRedoStack),
    UndoRedo.redo current stack = (Some next, stack') ->
    UndoRedo.undo next stack' = (Some current, stack).
Proof.
  intros cur next [u r m] stack'. unfold UndoRedo.redo.
  cbn [UndoRedo.undoStack UndoRedo.redoStack UndoRedo.maxStackSize].
  destruct (Nat.eqb (List.length r) 0); [discriminate|].
  destruct (UndoRedo.pop r) as [popped front] eqn:Hpop.
  intros [= -> <-]. apply pop_some in Hpop. subst r.
  unfold UndoRedo.undo.
  cbn [UndoRedo.undoStack UndoRedo.redoStack UndoRedo.maxStackSize].
  rewrite length_push, pop_push, !cloneState_value. reflexivity.
Qed.

(** X4: [undo] and [redo] invert each other.  When [undo] with current
    state [current] returns [other], calling [redo] with current state
    [other] on the resulting stack returns [current] and puts both stacks
    back as they were before the [undo]; and the same with the two
    operations exchanged. *)
Theorem undo_redo_mutually_inverse :
  forall (current other : UndoRedo.EditorState)
         (stack stack' : UndoRedo.UndoRedoStack),
    (UndoRedo.undo current stack = (Some other, stack') ->
     UndoRedo.redo other stack' = (Some current, stack))
    /\ (UndoRedo.redo current stack = (Some other, stack') ->
        UndoRedo.undo other stack' = (Some current, stack)).
Proof.
  intros current other stack stack'. split.
  - apply redo_inverts_undo.
  - apply undo_inverts_redo.
Qed.

(** X4, at a concrete input: one entry to undo. *)
Lemma undo_redo_mutually_inverse_witness :
  let stack := UndoRedo.mkStack [Samples.snapshot0] [] 50 in
  let stack' := UndoRedo.mkStack [] [Samples.snapshot1] 50 in
  UndoRedo.undo Samples.snapshot1 stack = (Some Samples.snapshot0, stack')
  /\ UndoRedo.redo Samples.snapshot0 stack'
     = (Some Samples.snapshot1, stack).
Proof.
  intros stack stack'.
  assert (Hundo : UndoRedo.undo Samples.snapshot1 stack
                  = (Some Samples.snapshot0, stack')) by reflexivity.
  split; [exact Hundo|].
  exact (proj1 (undo_redo_mutually_inverse
                  Samples.snapshot1 Samples.snapshot0 stack stack') Hundo).
Defined.

(** ** Snapshots of the editor *)

Section EditorSnapshots.

Import ImageEditorScreen.

Lemma snapshot_of_restored state ed :
  getCurrentEditorState (applyEditorState state ed) = state.
Proof.
  destruct state, ed as [st c stack]; destruct st.
  unfold getCurrentEditorState, applyEditorState; simpl.
  now rewrite !spread_id.
Qed.

Lemma applyEditorState_stack state ed :
  undoRedoStack (applyEditorState state ed) = undoRedoStack ed.
Proof. reflexivity. Qed.

Lemma with_stack_same ed : with_stack (undoRedoStack ed) ed = ed.
Proof. now destruct ed. Qed.

(** [handleUndo] when the stack's top entry is known. *)
Lemma handleUndo_top ed older top redo bound :
  undoRedoStack ed = UndoRedo.mkStack (UndoRedo.push older top) redo bound ->
  handleUndo ed
  = applyEditorState
      top
      (with_stack
         (UndoRedo.mkStack older
                           (UndoRedo.push redo (getCurrentEditorState ed))
                           bound)
         ed).
Proof.
  intros Hstack. unfold handleUndo, UndoRedo.undo. rewrite Hstack.
  cbn [UndoRedo.undoStack UndoRedo.redoStack UndoRedo.maxStackSize].
  rewrite length_push, pop_push, cloneState_value. reflexivity.
Qed.

End EditorSnapshots.

(** X5: taking a snapshot right after restoring one returns the restored
    snapshot: every recorded field survives [applyEditorState] followed by
    [getCurrentEditorState]. *)
Theorem snapshot_round_trip :
  forall (state : UndoRedo.EditorState) (ed : ImageEditorScreen.Editor),
    ImageEditorScreen.getCurrentEditorState
      (ImageEditorScreen.applyEditorState state ed)
    = state.
Proof. exact snapshot_of_restored. Qed.

(** X6: save-before-mutate works: after [saveStateBeforeAction] on an
    editor whose stack bound is at least one, whatever is then changed in
    the editor's state and cells, [handleUndo] brings the recorded state
    back to what it was when it was saved. *)
Theorem undo_restores_saved_state :
  forall ed ed' : ImageEditorScreen.Editor,
    (1 <= UndoRedo.maxStackSize (ImageEditorScreen.undoRedoStack ed))%Z ->
    ImageEditorScreen.undoRedoStack ed'
    = ImageEditorScreen.undoRedoStack
        (ImageEditorScreen.saveStateBeforeAction ed) ->
    ImageEditorScreen.getCurrentEditorState (ImageEditorScreen.handleUndo ed')
    = ImageEditorScreen.getCurrentEditorState ed.
Proof.
  intros ed ed' Hbound Hstack.
  destruct (saveState_top (ImageEditorScreen.getCurrentEditorState ed)
                          (ImageEditorScreen.undoRedoStack ed) Hbound)
    as [older Hsaved].
  unfold ImageEditorScreen.saveStateBeforeAction in Hstack.
  cbn [ImageEditorScreen.undoRedoStack ImageEditorScreen.with_stack]
    in Hstack.
  rewrite Hsaved in Hstack.
  rewrite (handleUndo_top ed' _ _ _ _ Hstack).
  apply snapshot_of_restored.
Qed.

(** X6, at a concrete input: the rotation changed after the save. *)
Lemma undo_restores_saved_state_witness :
  let ed := Samples.squareLockedEditor in
  let ed' :=
    ImageEditorScreen.with_react
      (ImageEditorScreen.setRotation 90)
      (ImageEditorScreen.saveStateBeforeAction ed) in
  (1 <= UndoRedo.maxStackSize (ImageEditorScreen.undoRedoStack ed))%Z
  /\ ImageEditorScreen.getCurrentEditorState
       (ImageEditorScreen.handleUndo ed')
     = ImageEditorScreen.getCurrentEditorState ed.
Proof.
  intros ed ed'.
  assert (Hbound : (1 <= UndoRedo.maxStackSize
                          (ImageEditorScreen.undoRedoStack ed))%Z)
    by (simpl; lia).
  split; [exact Hbound|].
  apply (undo_restores_saved_state ed ed' Hbound). reflexivity.
Defined.

(** X7: [handleUndo] followed by [handleRedo] is a round trip: when there
    is something to undo, the recorded state and both stacks end up as
    they were before the undo. *)
Theorem handleRedo_after_handleUndo :
  forall ed : ImageEditorScreen.Editor,
    UndoRedo.canUndo (ImageEditorScreen.undoRedoStack ed) = true ->
    let ed' := ImageEditorScreen.handleRedo (ImageEditorScreen.handleUndo ed) in
    ImageEditorScreen.getCurrentEditorState ed'
    = ImageEditorScreen.getCurrentEditorState ed
    /\ ImageEditorScreen.undoRedoStack ed'
       = ImageEditorScreen.undoRedoStack ed.
Proof.
  intros ed Hcan ed'. subst ed'.
  set (current := ImageEditorScreen.getCurrentEditorState ed).
  destruct (UndoRedo.undo current (ImageEditorScreen.undoRedoStack ed))
    as [[previous|] stack'] eqn:Hundo.
  - pose proof (redo_inverts_undo _ _ _ _ Hundo) as Hredo.
    unfold ImageEditorScreen.handleUndo. fold current. rewrite Hundo.
    unfold ImageEditorScreen.handleRedo.
    rewrite snapshot_of_restored, applyEditorState_stack.
    cbn [ImageEditorScreen.undoRedoStack ImageEditorScreen.with_stack].
    rewrite Hredo. split; [apply snapshot_of_restored | reflexivity].
  - exfalso.
    unfold UndoRedo.canUndo in Hcan. unfold UndoRedo.undo in Hundo.
    destruct (Nat.eqb (List.length
                         (UndoRedo.undoStack
                            (ImageEditorScreen.undoRedoStack ed))) 0)
      eqn:Hempty; [discriminate|].
    destruct (pop_nonempty
                (UndoRedo.undoStack (ImageEditorScreen.undoRedoStack ed)))
      as (front & v & Hu); [intros Hnil; now rewrite Hnil in Hempty|].
    rewrite Hu, pop_push in Hundo. discriminate.
Qed.

Lemma handleRedo_after_handleUndo_witness :
  let ed :=
    ImageEditorScreen.saveStateBeforeAction Samples.squareLockedEditor in
  UndoRedo.canUndo (ImageEditorScreen.undoRedoStack ed) = true
  /\ ImageEditorScreen.getCurrentEditorState
       (ImageEditorScreen.handleRedo (ImageEditorScreen.handleUndo ed))
     = ImageEditorScreen.getCurrentEditorState ed
  /\ ImageEditorScreen.undoRedoStack
       (ImageEditorScreen.handleRedo (ImageEditorScreen.handleUndo ed))
     = ImageEditorScreen.undoRedoStack ed.
Proof.
  intros ed.
  assert (Hcan : UndoRedo.canUndo (ImageEditorScreen.undoRedoStack ed) = true)
    by reflexivity.
  split; [exact Hcan|].
  exact (handleRedo_after_handleUndo ed Hcan).
Defined.

(** X8: with nothing to undo, [handleUndo] leaves the editor exactly as it
    is, and with nothing to redo so does [handleRedo]. *)
Theorem handleUndo_handleRedo_nothing_to_do :
  forall ed : ImageEditorScreen.Editor,
    (UndoRedo.canUndo (ImageEditorScreen.undoRedoStack ed) = false ->
     ImageEditorScreen.handleUndo ed = ed)
    /\ (UndoRedo.canRedo (ImageEditorScreen.undoRedoStack ed) = false ->
        ImageEditorScreen.handleRedo ed = ed).
Proof.
  intros ed.
  destruct (stack_can_spec
              (ImageEditorScreen.getCurrentEditorState ed)
              (ImageEditorScreen.undoRedoStack ed))
    as (_ & Hundo & _ & Hredo).
  split; intros Hcan.
  - unfold ImageEditorScreen.handleUndo. rewrite (Hundo Hcan).
    apply with_stack_same.
  - unfold ImageEditorScreen.handleRedo. rewrite (Hredo Hcan).
    apply with_stack_same.
Qed.

(** ** Rotation *)

Section Rotation.

Import ImageEditorScreen.

(** One [%] by 360: the result differs from the dividend by whole turns
    and lies strictly within one turn of zero, on the dividend's side. *)
Lemma rem_360 (a : R) :
  (exists k : Z, JsMath.rem a 360 = a + 360 * IZR k)
  /\ (0 <= a -> 0 <= JsMath.rem a 360 < 360)
  /\ (a < 0 -> -360 < JsMath.rem a 360 <= 0).
Proof.
  unfold JsMath.rem, JsMath.trunc.
  destruct (Rle_dec 0 (a / 360)) as [Hq|Hq].
  - pose proof (Zfloor_bound (a / 360)) as [Hlo Hhi].
    split; [|split].
    + exists (- Zfloor (a / 360))%Z. rewrite opp_IZR. lra.
    + intros _. lra.
    + intros Hneg. exfalso. lra.
  - pose proof (Zfloor_bound (- (a / 360))) as [Hlo Hhi].
    rewrite opp_IZR.
    split; [|split].
    + exists (Zfloor (- (a / 360))). lra.
    + intros Hpos. exfalso. lra.
    + intros _. lra.
Qed.

(** [((a % 360) + 360) % 360] is the representative of [a] in [0, 360). *)
Lemma normalise_360 (a : R) :
  let n := JsMath.rem (JsMath.rem a 360 + 360) 360 in
  0 <= n < 360 /\ Spec.sameAngle n a.
Proof.
  intros n. subst n.
  destruct (rem_360 a) as ([k1 Hk1] & Hpos1 & Hneg1).
  assert (Hinner : 0 <= JsMath.rem a 360 + 360).
  { destruct (Rle_dec 0 a) as [Ha|Ha]; [apply Hpos1 in Ha; lra|].
    assert (Ha' : a < 0) by lra. apply Hneg1 in Ha'. lra. }
  destruct (rem_360 (JsMath.rem a 360 + 360)) as ([k2 Hk2] & Hpos2 & _).
  split; [exact (Hpos2 Hinner)|].
  exists (k1 + 1 + k2)%Z. rewrite Hk2, Hk1, !plus_IZR. lra.
Qed.

Lemma sameAngle_refl a : Spec.sameAngle a a.
Proof. exists 0%Z. lra. Qed.

Lemma sameAngle_trans a b c :
  Spec.sameAngle a b -> Spec.sameAngle b c -> Spec.sameAngle a c.
Proof.
  intros [k Hk] [l Hl]. exists (k + l)%Z. rewrite plus_IZR. lra.
Qed.

Lemma sameAngle_shift a b d :
  Spec.sameAngle a b -> Spec.sameAngle (a + d) (b + d).
Proof. intros [k Hk]. exists k. lra. Qed.

(** Two angles of [0, 360) that differ by whole turns are equal. *)
Lemma sameAngle_unique a b :
  0 <= a < 360 -> 0 <= b < 360 -> Spec.sameAngle a b -> a = b.
Proof.
  intros Ha Hb [k Hk].
  assert (Hlo : (-1 < k)%Z) by (apply lt_IZR; lra).
  assert (Hhi : (k < 1)%Z) by (apply lt_IZR; lra).
  assert (k = 0%Z) by lia. subst k. lra.
Qed.

Lemma handleRotate_rotation ed :
  rotation (react (handleRotate ed))
  = JsMath.rem (JsMath.rem (rotation (react ed) + 90) 360 + 360) 360
  /\ cells (handleRotate ed) rotationValue
     = rotation (react (handleRotate ed))
  /\ undoRedoStack (handleRotate ed)
     = undoRedoStack (saveStateBeforeAction ed).
Proof. destruct ed as [st c stack]; destruct st. repeat split. Qed.

Lemma rotateTimes_angle n ed :
  0 <= rotation (react ed) < 360 ->
  0 <= rotation (react (Spec.rotateTimes n ed)) < 360
  /\ Spec.sameAngle (rotation (react (Spec.rotateTimes n ed)))
                    (rotation (react ed) + 90 * INR n).
Proof.
  revert ed. induction n as [|n IH]; intros ed Hrange.
  - split; [exact Hrange|]. exists 0%Z. simpl. lra.
  - destruct (handleRotate_rotation ed) as (Hrot & _ & _).
    destruct (normalise_360 (rotation (react ed) + 90)) as [Hn Hsame].
    rewrite <- Hrot in Hn, Hsame.
    destruct (IH (handleRotate ed) Hn) as [Hr Hs].
    cbn [Spec.rotateTimes]. split; [exact Hr|].
    eapply sameAngle_trans; [exact Hs|].
    rewrite S_INR.
    replace (rotation (react ed) + 90 * (INR n + 1))
      with (rotation (react ed) + 90 + 90 * INR n) by lra.
    now apply sameAngle_shift.
Qed.

End Rotation.

(** X9: [handleRotate] turns by a quarter: for every rotation the editor
    holds (normalised or not, also the -90 an EXIF orientation can set),
    the new rotation lies in [0, 360), differs from rotation + 90 by whole
    turns, and is also the value the animated cell is sent to. *)
Theorem handleRotate_normalises :
  forall ed : ImageEditorScreen.Editor,
    let ed' := ImageEditorScreen.handleRotate ed in
    let r' := ImageEditorScreen.rotation (ImageEditorScreen.react ed') in
    0 <= r' < 360
    /\ Spec.sameAngle
         r' (ImageEditorScreen.rotation (ImageEditorScreen.react ed) + 90)
    /\ ImageEditorScreen.cells ed' ImageEditorScreen.rotationValue = r'.
Proof.
  intros ed ed' r'. subst r' ed'.
  destruct (handleRotate_rotation ed) as (Hrot & Hcell & _).
  rewrite Hcell, Hrot.
  destruct (normalise_360
              (ImageEditorScreen.rotation (ImageEditorScreen.react ed) + 90))
    as [Hrange Hsame].
  repeat split; try apply Hrange. exact Hsame.
Qed.

(** X10: four presses of the rotate button are a full turn: starting from
    a rotation in [0, 360), the rotation after four [handleRotate] calls is
    the rotation before them. *)
Theorem handleRotate_four_times :
  forall ed : ImageEditorScreen.Editor,
    0 <= ImageEditorScreen.rotation (ImageEditorScreen.react ed) < 360 ->
    ImageEditorScreen.rotation
      (ImageEditorScreen.react (Spec.rotateTimes 4 ed))
    = ImageEditorScreen.rotation (ImageEditorScreen.react ed).
Proof.
  intros ed Hrange.
  destruct (rotateTimes_angle 4 ed Hrange) as [Hr [k Hk]].
  apply sameAngle_unique; [exact Hr | exact Hrange |].
  exists (k + 1)%Z. rewrite Hk, plus_IZR. simpl. lra.
Qed.

Lemma handleRotate_four_times_witness :
  0 <= ImageEditorScreen.rotation
         (ImageEditorScreen.react Samples.squareLockedEditor) < 360
  /\ ImageEditorScreen.rotation
       (ImageEditorScreen.react
          (Spec.rotateTimes 4 Samples.squareLockedEditor))
     = ImageEditorScreen.rotation
         (ImageEditorScreen.react Samples.squareLockedEditor).
Proof.
  assert (Hrange : 0 <= ImageEditorScreen.rotation
                          (ImageEditorScreen.react
                             Samples.squareLockedEditor) < 360)
    by (simpl; lra).
  split; [exact Hrange|].
  exact (handleRotate_four_times Samples.squareLockedEditor Hrange).
Defined.

(** ** Discrete actions and undo *)

Section Actions.

Import ImageEditorScreen.

(** Undo right after an action that saved the state of [ed] first. *)
Lemma undo_after_saving ed ed' :
  (1 <= UndoRedo.maxStackSize (undoRedoStack ed))%Z ->
  undoRedoStack ed' = undoRedoStack (saveStateBeforeAction ed) ->
  getCurrentEditorState (handleUndo ed') = getCurrentEditorState ed.
Proof.
  intros Hbound Hstack.
  destruct (saveState_top (getCurrentEditorState ed) (undoRedoStack ed)
                          Hbound) as [older Hsaved].
  unfold saveStateBeforeAction in Hstack.
  cbn [undoRedoStack with_stack] in Hstack. rewrite Hsaved in Hstack.
  rewrite (handleUndo_top ed' _ _ _ _ Hstack).
  apply snapshot_of_restored.
Qed.

Lemma handleStickerDelete_stack stickerId ed :
  undoRedoStack (handleStickerDelete stickerId ed)
  = undoRedoStack (saveStateBeforeAction ed).
Proof.
  unfold handleStickerDelete.
  destruct (selectedStickerId (react (saveStateBeforeAction ed)))
    as [selected|]; [destruct (String.eqb selected stickerId)|];
    reflexivity.
Qed.

Lemma handleStickerDelete_stickers stickerId ed :
  textStickers (react (handleStickerDelete stickerId ed))
  = filter (fun s => negb (String.eqb (sticker_id s) stickerId))
           (textStickers (react ed))
  /\ selectedStickerId (react (handleStickerDelete stickerId ed))
     = match selectedStickerId (react ed) with
       | Some selected =>
           if String.eqb selected stickerId then None else Some selected
       | None => None
       end.
Proof.
  destruct ed as [st c stack]; destruct st as
      [a b c0 d e f g h i j k l m n o p q r t].
  unfold handleStickerDelete; cbn.
  destruct q as [selected|]; [destruct (String.eqb selected stickerId)|];
    split; reflexivity.
Qed.

End Actions.

(** X11: the actions save before they mutate.  On an editor whose stack
    bound is at least one, an undo right after a rotation, after the
    deletion of a sticker, after a completed drawing stroke or after a
    sticker edit brings the recorded state (rotation, transform, crop
    size, filters, drawings, stickers) back to what it was before the
    action. *)
Theorem undo_reverts_action :
  forall (ed : ImageEditorScreen.Editor) (stickerId : string)
         (path : DrawingPath) (updatedSticker : TextSticker),
    (1 <= UndoRedo.maxStackSize (ImageEditorScreen.undoRedoStack ed))%Z ->
    let before := ImageEditorScreen.getCurrentEditorState ed in
    ImageEditorScreen.getCurrentEditorState
      (ImageEditorScreen.handleUndo (ImageEditorScreen.handleRotate ed))
    = before
    /\ ImageEditorScreen.getCurrentEditorState
         (ImageEditorScreen.handleUndo
            (ImageEditorScreen.handleStickerDelete stickerId ed))
       = before
    /\ ImageEditorScreen.getCurrentEditorState
         (ImageEditorScreen.handleUndo
            (ImageEditorScreen.handleDrawingComplete
               path (ImageEditorScreen.handleDrawingStart ed)))
       = before
    /\ ImageEditorScreen.getCurrentEditorState
         (ImageEditorScreen.handleUndo
            (ImageEditorScreen.handleStickerUpdate
               updatedSticker
               (ImageEditorScreen.handleStickerUpdateStart ed)))
       = before.
Proof.
  intros ed stickerId path updatedSticker Hbound before. subst before.
  repeat split; apply undo_after_saving; try exact Hbound.
  - apply handleRotate_rotation.
  - apply handleStickerDelete_stack.
  - reflexivity.
  - reflexivity.
Qed.

Lemma undo_reverts_action_witness :
  let ed := Samples.squareLockedEditor in
  (1 <= UndoRedo.maxStackSize (ImageEditorScreen.undoRedoStack ed))%Z
  /\ ImageEditorScreen.getCurrentEditorState
       (ImageEditorScreen.handleUndo (ImageEditorScreen.handleRotate ed))
     = ImageEditorScreen.getCurrentEditorState ed.
Proof.
  intros ed.
  assert (Hbound : (1 <= UndoRedo.maxStackSize
                          (ImageEditorScreen.undoRedoStack ed))%Z)
    by (simpl; lia).
  split; [exact Hbound|].
  apply (undo_reverts_action
           ed "sticker_1"%string
           (mkDrawingPath "d1" [mkPoint 1 2] "#FF0000" 5)
           (mkTextSticker "sticker_1" "Hello" 10 20 24 "#FFFFFF"
                          None None None)
           Hbound).
Defined.

(** X12: [handleStickerDelete] removes every sticker with the given id and
    nothing else: a sticker is in the list afterwards exactly when it was
    there before and has another id; the order of the others is kept; and
    the selection never points at the deleted id afterwards. *)
Theorem handleStickerDelete_removes_only_that_id :
  forall (stickerId : string) (ed : ImageEditorScreen.Editor),
    let ed' := ImageEditorScreen.handleStickerDelete stickerId ed in
    let before :=
      ImageEditorScreen.textStickers (ImageEditorScreen.react ed) in
    let after :=
      ImageEditorScreen.textStickers (ImageEditorScreen.react ed') in
    (forall s, In s after <-> In s before /\ sticker_id s <> stickerId)
    /\ (forall l1 l2 s1 s2,
          after = l1 ++ s1 :: s2 :: l2 ->
          exists m1 m2 m3, before = m1 ++ s1 :: m2 ++ s2 :: m3)
    /\ ImageEditorScreen.selectedStickerId (ImageEditorScreen.react ed')
       <> Some stickerId.
Proof.
  intros stickerId ed ed' before after. subst ed' before after.
  destruct (handleStickerDelete_stickers stickerId ed) as [Hlist Hsel].
  rewrite Hlist, Hsel. clear Hlist Hsel.
  set (stickers := ImageEditorScreen.textStickers
                     (ImageEditorScreen.react ed)).
  split; [|split].
  - intros s. rewrite filter_In. split; intros [Hin Hid]; split;
      try exact Hin.
    + intros Heq. rewrite Heq, String.eqb_refl in Hid. discriminate.
    + apply negb_true_iff, String.eqb_neq. exact Hid.
  - clearbody stickers. induction stickers as [|s rest IH];
      intros l1 l2 s1 s2 Hsplit.
    + destruct l1; discriminate.
    + cbn [filter] in Hsplit.
      destruct (negb (String.eqb (sticker_id s) stickerId)).
      * destruct l1 as [|x l1'].
        -- injection Hsplit as Hs1 Hrest. subst s1.
           assert (Hin : In s2 (filter
                                  (fun s0 => negb (String.eqb (sticker_id s0)
                                                              stickerId))
                                  rest))
             by (rewrite Hrest; now left).
           apply filter_In in Hin. destruct Hin as [Hin _].
           apply in_split in Hin. destruct Hin as (m2 & m3 & Hm).
           exists [], m2, m3. now rewrite Hm.
        -- injection Hsplit as Hx Hrest. subst x.
           destruct (IH _ _ _ _ Hrest) as (m1 & m2 & m3 & Hm).
           exists (s :: m1), m2, m3. now rewrite Hm.
      * destruct (IH _ _ _ _ Hsplit) as (m1 & m2 & m3 & Hm).
        exists (s :: m1), m2, m3. now rewrite Hm.
  - destruct (ImageEditorScreen.selectedStickerId
                (ImageEditorScreen.react ed)) as [selected|];
      [|discriminate].
    destruct (String.eqb selected stickerId) eqn:Hsel; [discriminate|].
    intros [= Heq]. rewrite Heq, String.eqb_refl in Hsel. discriminate.
Qed.

(** X13: [handleStickerUpdate] never adds, drops or reorders stickers: the
    ids are the same list afterwards; a sticker with another id keeps its
    place and its value, a sticker with the updated id is replaced by the
    update; and when no sticker has that id the list is unchanged. *)
Theorem handleStickerUpdate_replaces_in_place :
  forall (updatedSticker : TextSticker) (ed : ImageEditorScreen.Editor),
    let before :=
      ImageEditorScreen.textStickers (ImageEditorScreen.react ed) in
    let after :=
      ImageEditorScreen.textStickers
        (ImageEditorScreen.react
           (ImageEditorScreen.handleStickerUpdate updatedSticker ed)) in
    map sticker_id after = map sticker_id before
    /\ (forall i s,
          nth_error before i = Some s ->
          sticker_id s <> sticker_id updatedSticker ->
          nth_error after i = Some s)
    /\ (forall i s,
          nth_error before i = Some s ->
          sticker_id s = sticker_id updatedSticker ->
          nth_error after i = Some updatedSticker)
    /\ ((forall s, In s before ->
                   sticker_id s <> sticker_id updatedSticker) ->
        after = before).
Proof.
  intros u ed before after.
  assert (Hafter :
            after
            = map (fun s => if String.eqb (sticker_id s) (sticker_id u)
                            then u else s) before).
  { subst after before. destruct ed as [st c stack]; now destruct st. }
  rewrite Hafter. clear Hafter after. clearbody before.
  split; [|split; [|split]].
  - rewrite map_map. apply map_ext. intros s.
    destruct (String.eqb (sticker_id s) (sticker_id u)) eqn:Hid;
      [|reflexivity].
    symmetry. now apply String.eqb_eq.
  - intros i s Hnth Hid. rewrite nth_error_map, Hnth. cbn.
    apply String.eqb_neq in Hid. now rewrite Hid.
  - intros i s Hnth Hid. rewrite nth_error_map, Hnth. cbn.
    apply String.eqb_eq in Hid. now rewrite Hid.
  - intros Hnone. induction before as [|s rest IH]; [reflexivity|].
    cbn [map]. rewrite IH by (intros s' Hin; apply Hnone; now right).
    assert (Hid : sticker_id s <> sticker_id u) by (apply Hnone; now left).
    apply String.eqb_neq in Hid. now rewrite Hid.
Qed.

(** ** Commit outcomes *)

(** X14: [handleSave] returns without any report exactly when the preview
    URI or the original URI is missing or empty, or the image width or
    height is 0; and it reports a saved file only if the view-shot ref was
    set, the capture returned a non-empty URI, the output directory existed
    or was created, the move succeeded and the file could be stat'ed, the
    reported size being the stat'ed one. *)
Theorem handleSave_outcomes :
  forall (env : ImageEditorScreen.SaveEnv) (ed : ImageEditorScreen.Editor),
    let st := ImageEditorScreen.react ed in
    (ImageEditorScreen.handleSave env ed = ImageEditorScreen.SaveSkipped
     <-> (ImageEditorScreen.imageUri st = None
          \/ ImageEditorScreen.imageUri st = Some EmptyString)
         \/ (ImageEditorScreen.originalImageUri st = None
             \/ ImageEditorScreen.originalImageUri st = Some EmptyString)
         \/ size_width (ImageEditorScreen.imageSize st) = 0
         \/ size_height (ImageEditorScreen.imageSize st) = 0)
    /\ (forall media,
          ImageEditorScreen.handleSave env ed
          = ImageEditorScreen.SaveDone media ->
          ImageEditorScreen.viewShotRef env = true
          /\ (exists uri, ImageEditorScreen.capture env = Some uri
                          /\ uri <> EmptyString)
          /\ (ImageEditorScreen.fs_exists env = Some true
              \/ (ImageEditorScreen.fs_exists env = Some false
                  /\ ImageEditorScreen.fs_mkdir env = true))
          /\ ImageEditorScreen.fs_moveFile env = true
          /\ ImageEditorScreen.fs_stat env
             = Some (ImageEditorScreen.media_size media)).
Proof.
  intros env ed st. unfold ImageEditorScreen.handleSave. fold st.
  destruct (ImageEditorScreen.falsy (ImageEditorScreen.imageUri st))
    eqn:Huri.
  { cbn [orb]. split; [|discriminate].
    split; [intros _; left; now apply falsy_spec | reflexivity]. }
  destruct (ImageEditorScreen.falsy (ImageEditorScreen.originalImageUri st))
    eqn:Horig.
  { cbn [orb]. split; [|discriminate].
    split; [intros _; right; left; now apply falsy_spec | reflexivity]. }
  destruct (JsMath.eq (size_width (ImageEditorScreen.imageSize st)) 0)
    eqn:Hw.
  { cbn [orb]. split; [|discriminate].
    split; [intros _; right; right; left; now apply eq_spec | reflexivity]. }
  destruct (JsMath.eq (size_height (ImageEditorScreen.imageSize st)) 0)
    eqn:Hh.
  { cbn [orb]. split; [|discriminate].
    split; [intros _; right; right; right; now apply eq_spec
           | reflexivity]. }
  cbn [orb].
  assert (Hguard :
            ~ ((ImageEditorScreen.imageUri st = None
                \/ ImageEditorScreen.imageUri st = Some EmptyString)
               \/ (ImageEditorScreen.originalImageUri st = None
                   \/ ImageEditorScreen.originalImageUri st
                      = Some EmptyString)
               \/ size_width (ImageEditorScreen.imageSize st) = 0
               \/ size_height (ImageEditorScreen.imageSize st) = 0)).
  { intros [H|[H|[H|H]]].
    - apply falsy_spec in H. congruence.
    - apply falsy_spec in H. congruence.
    - apply eq_spec in H. congruence.
    - apply eq_spec in H. congruence. }
  unfold ImageEditorScreen.saveAlert.
  destruct (ImageEditorScreen.viewShotRef env); cbn [negb];
    [|split; [split; [discriminate|contradiction]|discriminate]].
  destruct (ImageEditorScreen.capture env) as [uri|];
    [|split; [split; [discriminate|contradiction]|discriminate]].
  destruct (ImageEditorScreen.falsy (Some uri)) eqn:Hcap;
    [split; [split; [discriminate|contradiction]|discriminate]|].
  destruct (ImageEditorScreen.fs_exists env) as [dirExists|];
    [|split; [split; [discriminate|contradiction]|discriminate]].
  destruct (negb dirExists && negb (ImageEditorScreen.fs_mkdir env))%bool
    eqn:Hdir;
    [split; [split; [discriminate|contradiction]|discriminate]|].
  destruct (ImageEditorScreen.fs_moveFile env); cbn [negb];
    [|split; [split; [discriminate|contradiction]|discriminate]].
  destruct (ImageEditorScreen.fs_stat env) as [size|];
    [|split; [split; [discriminate|contradiction]|discriminate]].
  split; [split; [discriminate|contradiction]|].
  intros media [= <-]. cbn [ImageEditorScreen.media_size].
  repeat split.
  - exists uri. split; [reflexivity|]. intros ->. discriminate.
  - destruct dirExists; [now left|right].
    split; [reflexivity|].
    destruct (ImageEditorScreen.fs_mkdir env); [reflexivity|discriminate].
Qed.

Section CommitMetadata.

Import ImageEditorScreen.

(** A commit that is saved, taken apart. *)
Lemma handleSave_done env ed media :
  handleSave env ed = SaveDone media ->
  exists finalPath size,
    media
    = mkMediaFile
        ("file://" ++ finalPath)%string (outputFileName env) "image/jpeg"
        size
        (mkEditMetadata
           (JsMath.rem (JsMath.rem (rotation (react ed)) 360 + 360) 360)
           (cells ed scale) (cells ed translateX) (cells ed translateY)
           (mkRect (cells ed cropX) (cells ed cropY)
                   (cells ed cropWidth) (cells ed cropHeight))
           (aspectRatio (react ed))
           (brightness (react ed)) (contrast (react ed))
           (saturation (react ed))
           (match drawings (react ed) with [] => None | ds => Some ds end)
           (match textStickers (react ed) with
            | [] => None | ts => Some ts end)
           (exifOrientation (react ed))).
Proof.
  unfold handleSave, saveAlert.
  destruct (_ || _ || _ || _)%bool; [discriminate|].
  destruct (viewShotRef env); cbn [negb]; [|discriminate].
  destruct (capture env) as [uri|]; [|discriminate].
  destruct (falsy (Some uri)); [discriminate|].
  destruct (fs_exists env) as [dirExists|]; [|discriminate].
  destruct (negb dirExists && negb (fs_mkdir env))%bool; [discriminate|].
  destruct (fs_moveFile env); cbn [negb]; [|discriminate].
  destruct (fs_stat env) as [size|]; [|discriminate].
  intros [= <-]. eexists _, size. reflexivity.
Qed.

Lemma handleSave_sample_done :
  exists media,
    handleSave Samples.goodEnv Samples.squareLockedEditor = SaveDone media.
Proof.
  unfold handleSave.
  cbn [react with_cells with_react Samples.squareLockedEditor
       Samples.editorWith initialEditor initialReact
       setImageUri setOriginalImageUri setImageSize setAspectRatio
       imageUri originalImageUri imageSize falsy
       size_width size_height orb].
  unfold JsMath.eq.
  destruct (Req_dec_T 1000 0) as [Habs|_]; [exfalso; lra|].
  cbn [orb negb andb Samples.goodEnv viewShotRef capture falsy
       fs_exists fs_mkdir fs_moveFile fs_stat].
  eexists. reflexivity.
Qed.

End CommitMetadata.

(** X15: what a saved commit records: the rotation normalised into
    [0, 360) (a whole number of turns away from the editor's rotation),
    the scale and the translation as the cells hold them, the crop
    rectangle in screen coordinates exactly as the crop cells hold it, the
    MIME type image/jpeg and the generated file name; an empty drawing or
    sticker layer is recorded as absent, a non-empty one as it is. *)
Theorem handleSave_metadata :
  forall (env : ImageEditorScreen.SaveEnv) (ed : ImageEditorScreen.Editor)
         (media : ImageEditorScreen.MediaFile),
    ImageEditorScreen.handleSave env ed = ImageEditorScreen.SaveDone media ->
    let meta := ImageEditorScreen.editMetadata media in
    let st := ImageEditorScreen.react ed in
    0 <= ImageEditorScreen.meta_rotation meta < 360
    /\ Spec.sameAngle (ImageEditorScreen.meta_rotation meta)
                      (ImageEditorScreen.rotation st)
    /\ ImageEditorScreen.meta_scale meta
       = ImageEditorScreen.cells ed ImageEditorScreen.scale
    /\ ImageEditorScreen.meta_translateX meta
       = ImageEditorScreen.cells ed ImageEditorScreen.translateX
    /\ ImageEditorScreen.meta_translateY meta
       = ImageEditorScreen.cells ed ImageEditorScreen.translateY
    /\ ImageEditorScreen.meta_crop meta
       = ImageEditorScreen.cropRect (ImageEditorScreen.cells ed)
    /\ ImageEditorScreen.media_type media = "image/jpeg"%string
    /\ ImageEditorScreen.media_name media
       = ImageEditorScreen.outputFileName env
    /\ (ImageEditorScreen.meta_drawings meta = None
        <-> ImageEditorScreen.drawings st = [])
    /\ (forall ds, ImageEditorScreen.meta_drawings meta = Some ds ->
                   ds = ImageEditorScreen.drawings st)
    /\ (ImageEditorScreen.meta_textStickers meta = None
        <-> ImageEditorScreen.textStickers st = [])
    /\ (forall ts, ImageEditorScreen.meta_textStickers meta = Some ts ->
                   ts = ImageEditorScreen.textStickers st).
Proof.
  intros env ed media Hdone meta st.
  destruct (handleSave_done env ed media Hdone) as (finalPath & size & Hm).
  subst meta st. rewrite Hm.
  cbn [ImageEditorScreen.editMetadata ImageEditorScreen.meta_rotation
       ImageEditorScreen.meta_scale ImageEditorScreen.meta_translateX
       ImageEditorScreen.meta_translateY ImageEditorScreen.meta_crop
       ImageEditorScreen.media_type ImageEditorScreen.media_name
       ImageEditorScreen.meta_drawings ImageEditorScreen.meta_textStickers].
  destruct (normalise_360
              (ImageEditorScreen.rotation (ImageEditorScreen.react ed)))
    as [Hrange Hsame].
  split; [exact Hrange|]. split; [exact Hsame|].
  do 6 (split; [reflexivity|]).
  destruct (ImageEditorScreen.drawings (ImageEditorScreen.react ed))
    as [|d ds'];
    destruct (ImageEditorScreen.textStickers (ImageEditorScreen.react ed))
    as [|t ts'];
    repeat split; intros; try reflexivity; try discriminate; congruence.
Qed.

Lemma handleSave_metadata_witness :
  exists media,
    ImageEditorScreen.handleSave Samples.goodEnv Samples.squareLockedEditor
    = ImageEditorScreen.SaveDone media
    /\ 0 <= ImageEditorScreen.meta_rotation
              (ImageEditorScreen.editMetadata media) < 360
    /\ ImageEditorScreen.meta_crop (ImageEditorScreen.editMetadata media)
       = ImageEditorScreen.cropRect
           (ImageEditorScreen.cells Samples.squareLockedEditor).
Proof.
  destruct handleSave_sample_done as [media Hdone].
  exists media. split; [exact Hdone|].
  pose proof (handleSave_metadata
                Samples.goodEnv Samples.squareLockedEditor media Hdone)
    as (Hrange & _ & _ & _ & _ & Hcrop & _).
  split; [exact Hrange | exact Hcrop].
Defined.

(** ** Pan and pinch sessions *)

Section Sessions.

Import ImageEditorScreen.

Variables SCREEN_WIDTH SCREEN_HEIGHT : R.

Lemma panOnUpdate_cells tx ty ed :
  let ed' := panOnUpdate tx ty ed in
  cells ed' translateX = cells ed baseTranslateX + tx
  /\ cells ed' translateY = cells ed baseTranslateY + ty
  /\ cells ed' baseTranslateX = cells ed baseTranslateX
  /\ cells ed' baseTranslateY = cells ed baseTranslateY.
Proof. repeat split. Qed.

Lemma panUpdates_keep_base deltas ed :
  let ed' :=
    run SCREEN_WIDTH SCREEN_HEIGHT
        (map (fun d => PanUpdate (fst d) (snd d)) deltas) ed in
  cells ed' baseTranslateX = cells ed baseTranslateX
  /\ cells ed' baseTranslateY = cells ed baseTranslateY.
Proof.
  revert ed. induction deltas as [|d deltas IH]; intros ed;
    [split; reflexivity|].
  cbv zeta in *. rewrite map_cons, run_cons. cbn [step].
  destruct (IH (panOnUpdate (fst d) (snd d) ed)) as [Hx Hy].
  rewrite Hx, Hy. split; reflexivity.
Qed.

Lemma pinchUpdates_keep_base factors ed :
  let ed' := run SCREEN_WIDTH SCREEN_HEIGHT (map PinchUpdate factors) ed in
  cells ed' baseScale = cells ed baseScale
  /\ Spec.minScaleOf ed' = Spec.minScaleOf ed.
Proof.
  revert ed. induction factors as [|f factors IH]; intros ed;
    [split; reflexivity|].
  cbv zeta in *. rewrite map_cons, run_cons. cbn [step].
  destruct (IH (pinchOnUpdate f ed)) as [Hb Hm].
  rewrite Hb, Hm.
  destruct (pinchOnUpdate_scale f ed) as [_ Hmin].
  split; [reflexivity | exact Hmin].
Qed.

End Sessions.

(** X16: pan deltas are cumulative from the start of the gesture: after a
    pan session (onStart, any updates, a last update by (dx, dy), onEnd)
    the translation is the translation before the session plus (dx, dy),
    whatever the earlier updates were, and the base values equal the
    current ones again. *)
Theorem pan_session_last_delta_wins :
  forall (SCREEN_WIDTH SCREEN_HEIGHT : R) (deltas : list (R * R))
         (dx dy : R) (ed : ImageEditorScreen.Editor),
    let ed' :=
      ImageEditorScreen.run
        SCREEN_WIDTH SCREEN_HEIGHT
        (Spec.panSession (deltas ++ [(dx, dy)])) ed in
    ImageEditorScreen.cells ed' ImageEditorScreen.translateX
    = ImageEditorScreen.cells ed ImageEditorScreen.translateX + dx
    /\ ImageEditorScreen.cells ed' ImageEditorScreen.translateY
       = ImageEditorScreen.cells ed ImageEditorScreen.translateY + dy
    /\ ImageEditorScreen.cells ed' ImageEditorScreen.baseTranslateX
       = ImageEditorScreen.cells ed' ImageEditorScreen.translateX
    /\ ImageEditorScreen.cells ed' ImageEditorScreen.baseTranslateY
       = ImageEditorScreen.cells ed' ImageEditorScreen.translateY.
Proof.
  intros W H deltas dx dy ed ed'. subst ed'.
  unfold Spec.panSession. rewrite map_app. cbn [map fst snd].
  rewrite run_cons, !run_app, !run_cons, !run_nil.
  cbn [ImageEditorScreen.step].
  match goal with
  | |- context [ImageEditorScreen.run _ _ _ ?e] => set (started := e)
  end.
  destruct (panUpdates_keep_base W H deltas started) as [Hx Hy].
  set (before := ImageEditorScreen.run W H _ started) in *.
  assert (Hend : forall e,
             ImageEditorScreen.cells (ImageEditorScreen.panOnEnd e)
                                     ImageEditorScreen.translateX
             = ImageEditorScreen.cells e ImageEditorScreen.translateX
             /\ ImageEditorScreen.cells (ImageEditorScreen.panOnEnd e)
                                        ImageEditorScreen.translateY
                = ImageEditorScreen.cells e ImageEditorScreen.translateY
             /\ ImageEditorScreen.cells (ImageEditorScreen.panOnEnd e)
                                        ImageEditorScreen.baseTranslateX
                = ImageEditorScreen.cells e ImageEditorScreen.translateX
             /\ ImageEditorScreen.cells (ImageEditorScreen.panOnEnd e)
                                        ImageEditorScreen.baseTranslateY
                = ImageEditorScreen.cells e ImageEditorScreen.translateY)
    by (intros e; repeat split).
  destruct (Hend (ImageEditorScreen.panOnUpdate dx dy before))
    as (Htx & Hty & Hbx & Hby).
  rewrite Htx, Hty, Hbx, Hby.
  destruct (panOnUpdate_cells dx dy before) as (Hux & Huy & _ & _).
  rewrite Hux, Huy, Hx, Hy.
  subst started. repeat split.
Qed.

(** X17: pinch factors are cumulative from the start of the gesture: after
    a pinch session ending with an update by [factor], the scale is
    max(minScale, min(s0 * factor, 3)) for the scale [s0] and the minScale
    the editor had before the session, whatever the earlier updates were,
    and the base scale equals the scale again. *)
Theorem pinch_session_last_factor_wins :
  forall (SCREEN_WIDTH SCREEN_HEIGHT : R) (factors : list R) (factor : R)
         (ed : ImageEditorScreen.Editor),
    let ed' :=
      ImageEditorScreen.run
        SCREEN_WIDTH SCREEN_HEIGHT
        (Spec.pinchSession (factors ++ [factor])) ed in
    ImageEditorScreen.cells ed' ImageEditorScreen.scale
    = Rmax (Spec.minScaleOf ed)
           (Rmin (ImageEditorScreen.cells ed ImageEditorScreen.scale
                  * factor) 3)
    /\ ImageEditorScreen.cells ed' ImageEditorScreen.baseScale
       = ImageEditorScreen.cells ed' ImageEditorScreen.scale.
Proof.
  intros W H factors factor ed ed'. subst ed'.
  unfold Spec.pinchSession. rewrite map_app. cbn [map].
  rewrite run_cons, !run_app, !run_cons, !run_nil.
  cbn [ImageEditorScreen.step].
  match goal with
  | |- context [ImageEditorScreen.run _ _ _ ?e] => set (started := e)
  end.
  destruct (pinchUpdates_keep_base W H factors started) as [Hb Hm].
  set (before := ImageEditorScreen.run W H _ started) in *.
  assert (Hend : forall e,
             ImageEditorScreen.cells (ImageEditorScreen.pinchOnEnd e)
                                     ImageEditorScreen.scale
             = ImageEditorScreen.cells e ImageEditorScreen.scale
             /\ ImageEditorScreen.cells (ImageEditorScreen.pinchOnEnd e)
                                        ImageEditorScreen.baseScale
                = ImageEditorScreen.cells e ImageEditorScreen.scale)
    by (intros e; split; reflexivity).
  destruct (Hend (ImageEditorScreen.pinchOnUpdate factor before))
    as [Hs Hbs].
  rewrite Hs, Hbs.
  destruct (pinchOnUpdate_scale factor before) as [Hscale _].
  rewrite Hscale, Hb, Hm.
  subst started. split; reflexivity.
Qed.

(** ** The crop rectangle's invariants *)

Section CropInvariants.

Import ImageEditorScreen.

Variables SCREEN_WIDTH SCREEN_HEIGHT : R.

Lemma validCrop_axes (r : Rect) :
  Spec.validCrop SCREEN_WIDTH SCREEN_HEIGHT r
  <-> (0 <= rect_x r /\ MIN_CROP_SIZE <= rect_width r
       /\ rect_x r + rect_width r <= SCREEN_WIDTH)
      /\ (0 <= rect_y r /\ MIN_CROP_SIZE <= rect_height r
          /\ rect_y r + rect_height r <= EDITOR_HEIGHT SCREEN_HEIGHT).
Proof. unfold Spec.validCrop. tauto. Qed.

Lemma clampAxis_in_range limit pos len :
  MIN_CROP_SIZE <= limit ->
  let r := Spec.clampAxis limit pos len in
  0 <= fst r /\ MIN_CROP_SIZE <= snd r /\ fst r + snd r <= limit.
Proof.
  intros Hlimit r. subst r.
  destruct (clampAxis_settled limit pos len) as [Hin|[Hshort _]];
    [exact Hin | lra].
Qed.

Lemma clamp_valid x y width height :
  MIN_CROP_SIZE <= SCREEN_WIDTH ->
  MIN_CROP_SIZE <= EDITOR_HEIGHT SCREEN_HEIGHT ->
  Spec.validCrop SCREEN_WIDTH SCREEN_HEIGHT
                 (clampCropToBounds SCREEN_WIDTH SCREEN_HEIGHT
                                    x y width height).
Proof.
  intros Hw Hh. rewrite clampCropToBounds_axes. apply validCrop_axes.
  cbn [rect_x rect_y rect_width rect_height].
  split; [now apply clampAxis_in_range | now apply clampAxis_in_range].
Qed.

Lemma clamp_of_valid (r : Rect) :
  Spec.validCrop SCREEN_WIDTH SCREEN_HEIGHT r ->
  Spec.clampRect SCREEN_WIDTH SCREEN_HEIGHT r = r.
Proof.
  intros Hvalid. apply validCrop_axes in Hvalid.
  destruct Hvalid as [Hx Hy].
  unfold Spec.clampRect. rewrite clampCropToBounds_axes.
  rewrite (clampAxis_fixpoint SCREEN_WIDTH (rect_x r) (rect_width r))
    by (left; exact Hx).
  rewrite (clampAxis_fixpoint (EDITOR_HEIGHT SCREEN_HEIGHT)
                              (rect_y r) (rect_height r))
    by (left; exact Hy).
  now destruct r.
Qed.

(** Every callback other than a corner update leaves the crop cells. *)
Lemma step_cropRect ed ev :
  MIN_CROP_SIZE <= SCREEN_WIDTH ->
  MIN_CROP_SIZE <= EDITOR_HEIGHT SCREEN_HEIGHT ->
  Spec.validCrop SCREEN_WIDTH SCREEN_HEIGHT (cropRect (cells ed)) ->
  Spec.validCrop SCREEN_WIDTH SCREEN_HEIGHT
                 (cropRect (cells (step SCREEN_WIDTH SCREEN_HEIGHT ed ev))).
Proof.
  intros Hw Hh Hvalid.
  destruct ev as [| tx ty | | | s | | h | [corner|] dx dy | h |];
    try exact Hvalid.
  cbn [step].
  destruct (cornerOnUpdate_rect SCREEN_WIDTH SCREEN_HEIGHT
                                corner dx dy ed) as (Hrect & _ & _).
  rewrite Hrect. unfold Spec.clampRect. now apply clamp_valid.
Qed.

End CropInvariants.

(** X18: in a window whose width and editor height are at least the
    minimum crop size, [clampCropToBounds] returns, for every input, a
    rectangle inside the editor area (x >= 0, y >= 0, x + width <=
    SCREEN_WIDTH, y + height <= EDITOR_HEIGHT) that is at least 100 wide
    and 100 high. *)
Theorem clampCropToBounds_valid :
  forall (SCREEN_WIDTH SCREEN_HEIGHT x y width height : R),
    ImageEditorScreen.MIN_CROP_SIZE <= SCREEN_WIDTH ->
    ImageEditorScreen.MIN_CROP_SIZE
    <= ImageEditorScreen.EDITOR_HEIGHT SCREEN_HEIGHT ->
    Spec.validCrop
      SCREEN_WIDTH SCREEN_HEIGHT
      (ImageEditorScreen.clampCropToBounds
         SCREEN_WIDTH SCREEN_HEIGHT x y width height).
Proof.
  intros W H x y width height Hw Hh. now apply clamp_valid.
Qed.

Lemma clampCropToBounds_valid_witness :
  ImageEditorScreen.MIN_CROP_SIZE <= Samples.W
  /\ ImageEditorScreen.MIN_CROP_SIZE
     <= ImageEditorScreen.EDITOR_HEIGHT Samples.H
  /\ Spec.validCrop
       Samples.W Samples.H
       (ImageEditorScreen.clampCropToBounds
          Samples.W Samples.H (-50) 790 30 500).
Proof.
  assert (Hw : ImageEditorScreen.MIN_CROP_SIZE <= Samples.W)
    by (unfold ImageEditorScreen.MIN_CROP_SIZE, Samples.W; lra).
  assert (Hh : ImageEditorScreen.MIN_CROP_SIZE
               <= ImageEditorScreen.EDITOR_HEIGHT Samples.H)
    by (unfold ImageEditorScreen.MIN_CROP_SIZE,
          ImageEditorScreen.EDITOR_HEIGHT, Samples.H; lra).
  split; [exact Hw|]. split; [exact Hh|].
  exact (clampCropToBounds_valid Samples.W Samples.H (-50) 790 30 500 Hw Hh).
Defined.

(** X19: a rectangle that already respects the editor area and the minimum
    size is returned by [clampCropToBounds] unchanged. *)
Theorem clampCropToBounds_keeps_valid :
  forall (SCREEN_WIDTH SCREEN_HEIGHT : R) (r : Rect),
    Spec.validCrop SCREEN_WIDTH SCREEN_HEIGHT r ->
    ImageEditorScreen.clampCropToBounds
      SCREEN_WIDTH SCREEN_HEIGHT
      (rect_x r) (rect_y r) (rect_width r) (rect_height r)
    = r.
Proof.
  intros W H r Hvalid. now apply clamp_of_valid.
Qed.

Lemma clampCropToBounds_keeps_valid_witness :
  Spec.validCrop Samples.W Samples.H Samples.baseRect
  /\ ImageEditorScreen.clampCropToBounds
       Samples.W Samples.H
       (rect_x Samples.baseRect) (rect_y Samples.baseRect)
       (rect_width Samples.baseRect) (rect_height Samples.baseRect)
     = Samples.baseRect.
Proof.
  assert (Hvalid : Spec.validCrop Samples.W Samples.H Samples.baseRect).
  { unfold Spec.validCrop, ImageEditorScreen.MIN_CROP_SIZE,
      ImageEditorScreen.EDITOR_HEIGHT, Samples.W, Samples.H,
      Samples.baseRect; simpl. lra. }
  split; [exact Hvalid|].
  exact (clampCropToBounds_keeps_valid
           Samples.W Samples.H Samples.baseRect Hvalid).
Defined.

(** X20: the gestures keep the crop rectangle's invariants: in a window at
    least as large as the minimum crop size, if the crop rectangle is
    inside the editor area and at least 100 x 100, it still is after any
    sequence of pan, pinch and corner callbacks. *)
Theorem gestures_keep_crop_valid :
  forall (SCREEN_WIDTH SCREEN_HEIGHT : R)
         (evs : list ImageEditorScreen.GestureEvent)
         (ed : ImageEditorScreen.Editor),
    ImageEditorScreen.MIN_CROP_SIZE <= SCREEN_WIDTH ->
    ImageEditorScreen.MIN_CROP_SIZE
    <= ImageEditorScreen.EDITOR_HEIGHT SCREEN_HEIGHT ->
    Spec.validCrop
      SCREEN_WIDTH SCREEN_HEIGHT
      (ImageEditorScreen.cropRect (ImageEditorScreen.cells ed)) ->
    Spec.validCrop
      SCREEN_WIDTH SCREEN_HEIGHT
      (ImageEditorScreen.cropRect
         (ImageEditorScreen.cells
            (ImageEditorScreen.run SCREEN_WIDTH SCREEN_HEIGHT evs ed))).
Proof.
  intros W H evs. induction evs as [|ev evs IH]; intros ed Hw Hh Hvalid;
    [exact Hvalid|].
  rewrite run_cons. apply IH; try assumption.
  now apply step_cropRect.
Qed.

Lemma gestures_keep_crop_valid_witness :
  let evs :=
    ImageEditorScreen.cornerSession
      (Some ImageEditorScreen.topLeft) [(160, 150); (-500, 20)]
    ++ Spec.pinchSession [2]
    ++ Spec.panSession [(50, -30)] in
  ImageEditorScreen.MIN_CROP_SIZE <= Samples.W
  /\ ImageEditorScreen.MIN_CROP_SIZE
     <= ImageEditorScreen.EDITOR_HEIGHT Samples.H
  /\ Spec.validCrop
       Samples.W Samples.H
       (ImageEditorScreen.cropRect
          (ImageEditorScreen.cells Samples.squareLockedEditor))
  /\ Spec.validCrop
       Samples.W Samples.H
       (ImageEditorScreen.cropRect
          (ImageEditorScreen.cells
             (ImageEditorScreen.run Samples.W Samples.H evs
                                    Samples.squareLockedEditor))).
Proof.
  intros evs.
  assert (Hw : ImageEditorScreen.MIN_CROP_SIZE <= Samples.W)
    by (unfold ImageEditorScreen.MIN_CROP_SIZE, Samples.W; lra).
  assert (Hh : ImageEditorScreen.MIN_CROP_SIZE
               <= ImageEditorScreen.EDITOR_HEIGHT Samples.H)
    by (unfold ImageEditorScreen.MIN_CROP_SIZE,
          ImageEditorScreen.EDITOR_HEIGHT, Samples.H; lra).
  assert (Hvalid : Spec.validCrop
                     Samples.W Samples.H
                     (ImageEditorScreen.cropRect
                        (ImageEditorScreen.cells
                           Samples.squareLockedEditor))).
  { change (ImageEditorScreen.cropRect
              (ImageEditorScreen.cells Samples.squareLockedEditor))
      with (mkRect 100 100 200 200).
    unfold Spec.validCrop, ImageEditorScreen.MIN_CROP_SIZE,
      ImageEditorScreen.EDITOR_HEIGHT, Samples.W, Samples.H; simpl. lra. }
  split; [exact Hw|]. split; [exact Hh|]. split; [exact Hvalid|].
  exact (gestures_keep_crop_valid
           Samples.W Samples.H evs Samples.squareLockedEditor Hw Hh Hvalid).
Defined.

(** ** Corner sessions, further *)

Section CornerSessionsMore.

Import ImageEditorScreen.

Lemma cornerResize_opposite handle ratio base deltaX deltaY :
  oppositeCorner handle (cornerResize handle ratio base deltaX deltaY)
  = oppositeCorner handle base.
Proof.
  destruct ratio.
  - unfold cornerResize, oppositeCorner.
    destruct handle; simpl; f_equal; lra.
  - apply cornerResize_fixes_opposite. discriminate.
  - apply cornerResize_fixes_opposite. discriminate.
  - apply cornerResize_fixes_opposite. discriminate.
Qed.

Lemma targetAspect_nonzero ratio : targetAspect_of ratio <> 0.
Proof. destruct ratio; unfold targetAspect_of; lra. Qed.

Lemma cornerResize_ratio handle ratio base deltaX deltaY :
  ratio <> free ->
  let r := cornerResize handle ratio base deltaX deltaY in
  rect_width r = rect_height r * targetAspect_of ratio.
Proof.
  intros Hlocked r. subst r.
  pose proof (targetAspect_nonzero ratio) as Ht.
  destruct (Rgt_dec (Rabs deltaX) (Rabs deltaY)) as [Hgt|Hle].
  - destruct (cornerResize_width_primary handle ratio base deltaX deltaY
                                         Hlocked Hgt) as [Hw Hh].
    rewrite Hh, Hw. field. exact Ht.
  - destruct (cornerResize_height_primary handle ratio base deltaX deltaY
                                          Hlocked Hle) as [Hh Hw].
    rewrite Hw, Hh. reflexivity.
Qed.

Lemma cornerSession_end SCREEN_WIDTH SCREEN_HEIGHT handle deltas ed :
  run SCREEN_WIDTH SCREEN_HEIGHT (cornerSession handle deltas) ed
  = cornerOnEnd
      handle
      (run SCREEN_WIDTH SCREEN_HEIGHT
           (map (fun d => CornerUpdate handle (fst d) (snd d)) deltas)
           (cornerOnStart handle ed)).
Proof.
  unfold cornerSession.
  rewrite run_cons, run_app, run_cons, run_nil. reflexivity.
Qed.

Lemma cornerOnEnd_rest handle ed :
  baseCropRect (cells (cornerOnEnd handle ed)) = cropRect (cells ed)
  /\ activeHandle (react (cornerOnEnd handle ed)) = None.
Proof. destruct ed as [st c stack]; destruct st. split; reflexivity. Qed.

End CornerSessionsMore.

(** X21: corner deltas are cumulative from the start of the drag: the crop
    rectangle a corner session leaves is the clamped resize of the pre-drag
    rectangle by the last delta alone, whatever the earlier updates were;
    when the session ends the base rectangle equals the crop rectangle and
    no handle is active. *)
Theorem corner_session_last_delta_wins :
  forall (SCREEN_WIDTH SCREEN_HEIGHT : R) (corner : ImageEditorScreen.Corner)
         (deltas : list (R * R)) (deltaX deltaY : R)
         (ed : ImageEditorScreen.Editor),
    let ed' :=
      ImageEditorScreen.run
        SCREEN_WIDTH SCREEN_HEIGHT
        (ImageEditorScreen.cornerSession
           (Some corner) (deltas ++ [(deltaX, deltaY)]))
        ed in
    ImageEditorScreen.cropRect (ImageEditorScreen.cells ed')
    = Spec.clampRect
        SCREEN_WIDTH SCREEN_HEIGHT
        (ImageEditorScreen.cornerResize
           corner
           (ImageEditorScreen.aspectRatio (ImageEditorScreen.react ed))
           (ImageEditorScreen.cropRect (ImageEditorScreen.cells ed))
           deltaX deltaY)
    /\ ImageEditorScreen.baseCropRect (ImageEditorScreen.cells ed')
       = ImageEditorScreen.cropRect (ImageEditorScreen.cells ed')
    /\ ImageEditorScreen.activeHandle (ImageEditorScreen.react ed') = None.
Proof.
  intros W H corner deltas deltaX deltaY ed ed'.
  split; [apply cornerSession_rect|].
  subst ed'. rewrite cornerSession_end.
  destruct (cornerOnEnd_rest
              (Some corner)
              (ImageEditorScreen.run
                 W H
                 (map (fun d => ImageEditorScreen.CornerUpdate
                                  (Some corner) (fst d) (snd d))
                      (deltas ++ [(deltaX, deltaY)]))
                 (ImageEditorScreen.cornerOnStart (Some corner) ed)))
    as [Hbase Hhandle].
  rewrite Hbase, Hhandle, cornerOnEnd_rect. split; reflexivity.
Qed.

(** X22: when the resized rectangle needs no clamping (it is inside the
    editor area and at least 100 x 100), a corner session leaves exactly
    that rectangle: the corner diagonally opposite the dragged one is where
    it was before the drag, under every ratio setting, and under a locked
    ratio the width is the height times the target ratio. *)
Theorem corner_session_unclamped :
  forall (SCREEN_WIDTH SCREEN_HEIGHT : R) (corner : ImageEditorScreen.Corner)
         (deltas : list (R * R)) (deltaX deltaY : R)
         (ed : ImageEditorScreen.Editor),
    let ratio :=
      ImageEditorScreen.aspectRatio (ImageEditorScreen.react ed) in
    let before := ImageEditorScreen.cropRect (ImageEditorScreen.cells ed) in
    let after :=
      ImageEditorScreen.cropRect
        (ImageEditorScreen.cells
           (ImageEditorScreen.run
              SCREEN_WIDTH SCREEN_HEIGHT
              (ImageEditorScreen.cornerSession
                 (Some corner) (deltas ++ [(deltaX, deltaY)]))
              ed)) in
    Spec.validCrop
      SCREEN_WIDTH SCREEN_HEIGHT
      (ImageEditorScreen.cornerResize corner ratio before deltaX deltaY) ->
    after = ImageEditorScreen.cornerResize corner ratio before deltaX deltaY
    /\ ImageEditorScreen.oppositeCorner corner after
       = ImageEditorScreen.oppositeCorner corner before
    /\ (ratio <> free ->
        rect_width after
        = rect_height after * ImageEditorScreen.targetAspect_of ratio).
Proof.
  intros W H corner deltas deltaX deltaY ed ratio before after Hvalid.
  assert (Hafter : after = ImageEditorScreen.cornerResize
                             corner ratio before deltaX deltaY).
  { subst after. rewrite cornerSession_rect. now apply clamp_of_valid. }
  rewrite Hafter. split; [reflexivity|].
  split; [apply cornerResize_opposite|].
  intros Hlocked. now apply cornerResize_ratio.
Qed.

Lemma corner_session_unclamped_witness :
  let ed := Samples.squareLockedEditor in
  Spec.validCrop
    Samples.W Samples.H
    (ImageEditorScreen.cornerResize
       ImageEditorScreen.topLeft
       (ImageEditorScreen.aspectRatio (ImageEditorScreen.react ed))
       (ImageEditorScreen.cropRect (ImageEditorScreen.cells ed))
       60 50)
  /\ ImageEditorScreen.oppositeCorner
       ImageEditorScreen.topLeft
       (ImageEditorScreen.cropRect
          (ImageEditorScreen.cells
             (ImageEditorScreen.run
                Samples.W Samples.H
                (ImageEditorScreen.cornerSession
                   (Some ImageEditorScreen.topLeft) ([] ++ [(60, 50)]))
                ed)))
     = ImageEditorScreen.oppositeCorner
         ImageEditorScreen.topLeft
         (ImageEditorScreen.cropRect (ImageEditorScreen.cells ed)).
Proof.
  intros ed.
  assert (Hvalid :
            Spec.validCrop
              Samples.W Samples.H
              (ImageEditorScreen.cornerResize
                 ImageEditorScreen.topLeft
                 (ImageEditorScreen.aspectRatio (ImageEditorScreen.react ed))
                 (ImageEditorScreen.cropRect (ImageEditorScreen.cells ed))
                 60 50)).
  { change (ImageEditorScreen.aspectRatio (ImageEditorScreen.react ed))
      with ratio_1_1.
    change (ImageEditorScreen.cropRect (ImageEditorScreen.cells ed))
      with (mkRect 100 100 200 200).
    destruct (cornerResize_width_primary
                ImageEditorScreen.topLeft ratio_1_1 (mkRect 100 100 200 200)
                60 50) as [Hw Hh].
    { discriminate. }
    { unfold Rabs. decide_reals. lra. }
    pose proof (cornerResize_opposite
                  ImageEditorScreen.topLeft ratio_1_1
                  (mkRect 100 100 200 200) 60 50) as Hopp.
    unfold ImageEditorScreen.oppositeCorner in Hopp.
    cbn [ImageEditorScreen.isLeft ImageEditorScreen.isTop] in Hopp.
    injection Hopp as Hx Hy.
    unfold Spec.dragWidth in Hw, Hh.
    cbn [ImageEditorScreen.isLeft rect_width
         ImageEditorScreen.targetAspect_of] in Hw, Hh.
    cbn [rect_x rect_y rect_width rect_height] in Hx, Hy.
    unfold Spec.validCrop, ImageEditorScreen.MIN_CROP_SIZE,
      ImageEditorScreen.EDITOR_HEIGHT, Samples.W, Samples.H.
    lra. }
  split; [exact Hvalid|].
  apply (corner_session_unclamped
           Samples.W Samples.H ImageEditorScreen.topLeft [] 60 50 ed Hvalid).
Defined.

(** ** Aspect-ratio selection *)

Section AspectSelection.

Import ImageEditorScreen.

Variables SCREEN_WIDTH SCREEN_HEIGHT : R.

Ltac no_test t :=
  lazymatch t with
  | context [JsMath.gt] => fail
  | context [JsMath.lt] => fail
  | _ => idtac
  end.

(** Case analysis on the tests of the fitting code, innermost first. *)
Ltac split_tests :=
  repeat (match goal with
          | |- context [JsMath.gt ?a ?b] =>
              no_test a; no_test b; destruct (JsMath.gt a b)
          | |- context [JsMath.lt ?a ?b] =>
              no_test a; no_test b; destruct (JsMath.lt a b)
          end; cbv beta iota).

(** The update is: fit the size, centre it where the rectangle was,
    clamp; the base rectangle follows the crop rectangle. *)
Lemma updateCropForAspectRatio_rect ed :
  aspectRatio (react ed) <> free ->
  let fit :=
    Spec.aspectFit SCREEN_WIDTH SCREEN_HEIGHT (aspectRatio (react ed))
                   (cells ed cropWidth) (cells ed cropHeight) in
  let ed' := updateCropForAspectRatio SCREEN_WIDTH SCREEN_HEIGHT ed in
  cropRect (cells ed')
  = Spec.clampRect
      SCREEN_WIDTH SCREEN_HEIGHT
      (mkRect (cells ed cropX + cells ed cropWidth / 2 - fst fit / 2)
              (cells ed cropY + cells ed cropHeight / 2 - snd fit / 2)
              (fst fit) (snd fit))
  /\ baseCropRect (cells ed') = cropRect (cells ed').
Proof.
  intros Hlocked fit ed'. subst fit ed'.
  unfold updateCropForAspectRatio, Spec.aspectFit, Spec.clampRect.
  destruct (aspectRatio (react ed)) eqn:Hratio; [contradiction| | |];
    cbv zeta; split_tests;
    cbn [fst snd rect_x rect_y rect_width rect_height];
    match goal with
    | |- context [clampCropToBounds ?a ?b ?c ?d ?e ?f] =>
        destruct (clampCropToBounds a b c d e f)
    end; split; reflexivity.
Qed.

(** Every step of the fitting code re-derives the other side from the
    ratio, so the fitted size has the ratio exactly. *)
Lemma aspectFit_ratio ratio currentWidth currentHeight :
  ratio <> free ->
  let fit :=
    Spec.aspectFit SCREEN_WIDTH SCREEN_HEIGHT ratio
                   currentWidth currentHeight in
  fst fit = snd fit * targetAspect_of ratio.
Proof.
  intros Hlocked fit. subst fit.
  pose proof (targetAspect_nonzero ratio) as Ht.
  unfold Spec.aspectFit. cbv zeta.
  set (t := targetAspect_of ratio) in *.
  split_tests; cbn [fst snd]; try reflexivity; field; exact Ht.
Qed.

End AspectSelection.

(** X23: [updateCropForAspectRatio] does nothing under the free setting;
    under a locked ratio, in a window at least as large as the minimum crop
    size, it leaves a crop rectangle inside the editor area and at least
    100 x 100, with the base rectangle equal to it. *)
Theorem updateCropForAspectRatio_valid :
  forall (SCREEN_WIDTH SCREEN_HEIGHT : R) (ed : ImageEditorScreen.Editor),
    ImageEditorScreen.MIN_CROP_SIZE <= SCREEN_WIDTH ->
    ImageEditorScreen.MIN_CROP_SIZE
    <= ImageEditorScreen.EDITOR_HEIGHT SCREEN_HEIGHT ->
    let ratio :=
      ImageEditorScreen.aspectRatio (ImageEditorScreen.react ed) in
    let ed' :=
      ImageEditorScreen.updateCropForAspectRatio
        SCREEN_WIDTH SCREEN_HEIGHT ed in
    (ratio = free -> ed' = ed)
    /\ (ratio <> free ->
        Spec.validCrop
          SCREEN_WIDTH SCREEN_HEIGHT
          (ImageEditorScreen.cropRect (ImageEditorScreen.cells ed'))
        /\ ImageEditorScreen.baseCropRect (ImageEditorScreen.cells ed')
           = ImageEditorScreen.cropRect (ImageEditorScreen.cells ed')).
Proof.
  intros W H ed Hw Hh ratio ed'. split.
  - intros Hfree. subst ed' ratio.
    unfold ImageEditorScreen.updateCropForAspectRatio. now rewrite Hfree.
  - intros Hlocked.
    destruct (updateCropForAspectRatio_rect W H ed Hlocked) as [Hrect Hbase].
    fold ed' in Hrect, Hbase. split; [|exact Hbase].
    rewrite Hrect. unfold Spec.clampRect. now apply clamp_valid.
Qed.

Lemma updateCropForAspectRatio_valid_witness :
  let ed := Samples.wideCropEditor in
  ImageEditorScreen.MIN_CROP_SIZE <= Samples.W
  /\ ImageEditorScreen.MIN_CROP_SIZE
     <= ImageEditorScreen.EDITOR_HEIGHT Samples.H
  /\ Spec.validCrop
       Samples.W Samples.H
       (ImageEditorScreen.cropRect
          (ImageEditorScreen.cells
             (ImageEditorScreen.updateCropForAspectRatio
                Samples.W Samples.H ed))).
Proof.
  intros ed.
  assert (Hw : ImageEditorScreen.MIN_CROP_SIZE <= Samples.W)
    by (unfold ImageEditorScreen.MIN_CROP_SIZE, Samples.W; lra).
  assert (Hh : ImageEditorScreen.MIN_CROP_SIZE
               <= ImageEditorScreen.EDITOR_HEIGHT Samples.H)
    by (unfold ImageEditorScreen.MIN_CROP_SIZE,
          ImageEditorScreen.EDITOR_HEIGHT, Samples.H; lra).
  split; [exact Hw|]. split; [exact Hh|].
  apply (updateCropForAspectRatio_valid Samples.W Samples.H ed Hw Hh).
  discriminate.
Defined.

(** X24: when the fitted rectangle, centred where the crop rectangle was,
    needs no clamping, [updateCropForAspectRatio] under a locked ratio
    leaves exactly that rectangle: its centre is the old centre and its
    width is its height times the target ratio. *)
Theorem updateCropForAspectRatio_unclamped :
  forall (SCREEN_WIDTH SCREEN_HEIGHT : R) (ed : ImageEditorScreen.Editor),
    let ratio :=
      ImageEditorScreen.aspectRatio (ImageEditorScreen.react ed) in
    let before := ImageEditorScreen.cropRect (ImageEditorScreen.cells ed) in
    let fit :=
      Spec.aspectFit SCREEN_WIDTH SCREEN_HEIGHT ratio
                     (rect_width before) (rect_height before) in
    let fitted :=
      mkRect (pt_x (Spec.centre before) - fst fit / 2)
             (pt_y (Spec.centre before) - snd fit / 2)
             (fst fit) (snd fit) in
    let after :=
      ImageEditorScreen.cropRect
        (ImageEditorScreen.cells
           (ImageEditorScreen.updateCropForAspectRatio
              SCREEN_WIDTH SCREEN_HEIGHT ed)) in
    ratio <> free ->
    Spec.validCrop SCREEN_WIDTH SCREEN_HEIGHT fitted ->
    after = fitted
    /\ Spec.centre after = Spec.centre before
    /\ rect_width after
       = rect_height after * ImageEditorScreen.targetAspect_of ratio.
Proof.
  intros W H ed ratio before fit fitted after Hlocked Hvalid.
  destruct (updateCropForAspectRatio_rect W H ed Hlocked) as [Hrect _].
  assert (Hafter : after = fitted).
  { subst after. rewrite Hrect. now apply clamp_of_valid. }
  rewrite Hafter. split; [reflexivity|]. split.
  - subst fitted. unfold Spec.centre.
    cbn [rect_x rect_y rect_width rect_height pt_x pt_y]. f_equal; lra.
  - subst fitted. cbn [rect_width rect_height].
    now apply aspectFit_ratio.
Qed.

Lemma updateCropForAspectRatio_unclamped_witness :
  let ed := Samples.wideCropEditor in
  ImageEditorScreen.aspectRatio (ImageEditorScreen.react ed) <> free
  /\ ImageEditorScreen.cropRect
       (ImageEditorScreen.cells
          (ImageEditorScreen.updateCropForAspectRatio
             Samples.W Samples.H ed))
     = mkRect 60 10 200 200.
Proof.
  intros ed.
  assert (Hlocked : ImageEditorScreen.aspectRatio
                      (ImageEditorScreen.react ed) <> free)
    by discriminate.
  split; [exact Hlocked|].
  assert (Hfit : Spec.aspectFit Samples.W Samples.H ratio_1_1 300 200
                 = (200, 200)).
  { unfold Spec.aspectFit, ImageEditorScreen.targetAspect_of,
      ImageEditorScreen.EDITOR_HEIGHT, ImageEditorScreen.MIN_CROP_SIZE,
      Samples.W, Samples.H, JsMath.gt, JsMath.lt.
    cbv zeta. decide_reals. cbv beta iota. decide_reals. cbv beta iota.
    decide_reals. f_equal; lra. }
  pose proof (updateCropForAspectRatio_unclamped Samples.W Samples.H ed)
    as Hthm.
  cbv zeta in Hthm.
  change (ImageEditorScreen.aspectRatio (ImageEditorScreen.react ed))
    with ratio_1_1 in Hthm.
  change (ImageEditorScreen.cropRect (ImageEditorScreen.cells ed))
    with (mkRect 10 10 300 200) in Hthm.
  cbn [rect_x rect_y rect_width rect_height Spec.centre pt_x pt_y] in Hthm.
  rewrite Hfit in Hthm. cbn [fst snd] in Hthm.
  destruct Hthm as (Hafter & _ & _).
  - discriminate.
  - unfold Spec.validCrop, ImageEditorScreen.MIN_CROP_SIZE,
      ImageEditorScreen.EDITOR_HEIGHT, Samples.W, Samples.H.
    cbn [rect_x rect_y rect_width rect_height]. lra.
  - rewrite Hafter. f_equal; lra.
Defined.

(** ** The converted rectangle *)

Section ConvertedRectangle.

Import ExifOrientation.

Lemma round_mono (a b : R) : a <= b -> JsMath.round a <= JsMath.round b.
Proof.
  intros Hab. unfold JsMath.round. apply IZR_le, Zfloor_le. lra.
Qed.

Lemma round_upper (a : R) : JsMath.round a <= a + / 2.
Proof.
  unfold JsMath.round. pose proof (Zfloor_bound (a + / 2)). lra.
Qed.

Lemma round_integer (a : R) : Spec.isInteger (JsMath.round a).
Proof. now exists (Zfloor (a + / 2)). Qed.

(** The closing clamp and rounding, whatever rectangle reaches it. *)
Lemma clamped_rounded_range (w h : Z) (cx cy cw ch : R) :
  (1 <= w)%Z -> (1 <= h)%Z ->
  let x := Rmax 0 (Rmin (IZR w - 1) cx) in
  let y := Rmax 0 (Rmin (IZR h - 1) cy) in
  let width := Rmax 1 (Rmin (IZR w - x) cw) in
  let height := Rmax 1 (Rmin (IZR h - y) ch) in
  (0 <= JsMath.round x <= IZR w - 1
   /\ 1 <= JsMath.round width <= IZR w
   /\ JsMath.round x + JsMath.round width <= IZR w + 1)
  /\ (0 <= JsMath.round y <= IZR h - 1
      /\ 1 <= JsMath.round height <= IZR h
      /\ JsMath.round y + JsMath.round height <= IZR h + 1).
Proof.
  intros Hw Hh x y width height.
  apply IZR_le in Hw, Hh.
  assert (Haxis : forall (n : Z) (c l : R),
             1 <= IZR n ->
             let p := Rmax 0 (Rmin (IZR n - 1) c) in
             let e := Rmax 1 (Rmin (IZR n - p) l) in
             0 <= JsMath.round p <= IZR n - 1
             /\ 1 <= JsMath.round e <= IZR n
             /\ JsMath.round p + JsMath.round e <= IZR n + 1).
  { intros n c l Hn p e.
    assert (Hp : 0 <= p <= IZR n - 1).
    { subst p. split; [apply Rmax_l|].
      apply Rmax_lub; [lra | apply Rmin_l]. }
    assert (He : 1 <= e <= IZR n - p).
    { subst e. split; [apply Rmax_l|].
      apply Rmax_lub; [lra | apply Rmin_l]. }
    pose proof (round_mono 0 p (proj1 Hp)) as Hp0.
    pose proof (round_mono p (IZR n - 1) (proj2 Hp)) as Hp1.
    pose proof (round_mono 1 e (proj1 He)) as He0.
    assert (Hen : e <= IZR n) by lra.
    pose proof (round_mono e (IZR n) Hen) as He1.
    rewrite (round_IZR 0) in Hp0. rewrite (round_IZR 1) in He0.
    rewrite <- minus_IZR, round_IZR, minus_IZR in Hp1.
    rewrite round_IZR in He1.
    pose proof (round_upper p). pose proof (round_upper e).
    repeat split; lra. }
  split; [exact (Haxis w cx cw Hw) | exact (Haxis h cy ch Hh)].
Qed.

(** The function always ends in that clamp and rounding. *)
Lemma screenToImage_tail screenCrop params :
  exists cx cy cw ch,
    screenToImageCoordinates screenCrop params
    = let x := Rmax 0 (Rmin (imageWidth params - 1) cx) in
      let y := Rmax 0 (Rmin (imageHeight params - 1) cy) in
      mkRect (JsMath.round x) (JsMath.round y)
             (JsMath.round (Rmax 1 (Rmin (imageWidth params - x) cw)))
             (JsMath.round (Rmax 1 (Rmin (imageHeight params - y) ch))).
Proof.
  unfold screenToImageCoordinates.
  destruct (JsMath.neq (rotation params) 0); do 4 eexists; reflexivity.
Qed.

End ConvertedRectangle.

(** X25: for an image of whole pixel dimensions at least 1 x 1, every
    screen rectangle and every transform whose scale is not 0,
    [screenToImageCoordinates] returns whole numbers with
    0 <= x <= imageWidth - 1, 0 <= y <= imageHeight - 1,
    1 <= width <= imageWidth and 1 <= height <= imageHeight; the right and
    bottom edges exceed the image by at most one pixel.  (At scale 0 the
    code divides by zero and nothing of this is claimed.) *)
Theorem screenToImageCoordinates_range :
  forall (screenCrop : Rect) (params : ExifOrientation.ImageDisplayParams)
         (w h : Z),
    ExifOrientation.scale params <> 0 ->
    ExifOrientation.imageWidth params = IZR w ->
    ExifOrientation.imageHeight params = IZR h ->
    (1 <= w)%Z -> (1 <= h)%Z ->
    let r := ExifOrientation.screenToImageCoordinates screenCrop params in
    (Spec.isInteger (rect_x r) /\ Spec.isInteger (rect_y r)
     /\ Spec.isInteger (rect_width r) /\ Spec.isInteger (rect_height r))
    /\ 0 <= rect_x r <= IZR w - 1
    /\ 0 <= rect_y r <= IZR h - 1
    /\ 1 <= rect_width r <= IZR w
    /\ 1 <= rect_height r <= IZR h
    /\ rect_x r + rect_width r <= IZR w + 1
    /\ rect_y r + rect_height r <= IZR h + 1.
Proof.
  intros screenCrop params w h _ Hiw Hih Hw Hh r.
  destruct (screenToImage_tail screenCrop params)
    as (cx & cy & cw & ch & Hr).
  subst r. rewrite Hr, Hiw, Hih. cbv zeta.
  cbn [rect_x rect_y rect_width rect_height].
  destruct (clamped_rounded_range w h cx cy cw ch Hw Hh)
    as ((Hx & Hwd & Hxw) & (Hy & Hht & Hyh)).
  split; [repeat split; apply round_integer|].
  repeat split; lra.
Qed.

Lemma screenToImageCoordinates_range_witness :
  let params :=
    Spec.paramsOf Samples.wideImage Samples.squareDisplay
                  Samples.unrotated in
  let r :=
    ExifOrientation.screenToImageCoordinates Samples.centreCrop params in
  ExifOrientation.scale params <> 0
  /\ ExifOrientation.imageWidth params = IZR 200
  /\ ExifOrientation.imageHeight params = IZR 100
  /\ 0 <= rect_x r <= IZR 200 - 1
  /\ rect_x r + rect_width r <= IZR 200 + 1.
Proof.
  intros params r.
  assert (Hscale : ExifOrientation.scale params <> 0)
    by (simpl; lra).
  assert (Hiw : ExifOrientation.imageWidth params = IZR 200)
    by reflexivity.
  assert (Hih : ExifOrientation.imageHeight params = IZR 100)
    by reflexivity.
  split; [exact Hscale|]. split; [exact Hiw|]. split; [exact Hih|].
  pose proof (screenToImageCoordinates_range
                Samples.centreCrop params 200 100 Hscale Hiw Hih)
    as Hrange.
  destruct Hrange as (_ & Hx & _ & _ & _ & Hxw & _); [lia | lia |].
  split; [exact Hx | exact Hxw].
Defined.

(** Reduce [Rmin] and [Rmax] of known numbers, innermost first. *)
Ltac no_minmax_inside t :=
  lazymatch t with
  | context [Rmin] => fail
  | context [Rmax] => fail
  | _ => idtac
  end.

Ltac reduce_minmax :=
  repeat match goal with
         | |- context [Rmin ?a ?b] =>
             no_minmax_inside a; no_minmax_inside b;
             first [ rewrite (Rmin_left a b) by lra
                   | rewrite (Rmin_right a b) by lra ]
         | |- context [Rmax ?a ?b] =>
             no_minmax_inside a; no_minmax_inside b;
             first [ rewrite (Rmax_left a b) by lra
                   | rewrite (Rmax_right a b) by lra ]
         end.

Lemma round_value (v : R) (n : Z) :
  IZR n <= v + / 2 < IZR n + 1 -> JsMath.round v = IZR n.
Proof. intros Hv. unfold JsMath.round. f_equal. now apply Zfloor_eq. Qed.

(** X26: the one-pixel overhang of X25 does occur: there is an unrotated
    input at scale 1, on a 10 x 10 image, for which the returned rectangle
    starts at x = 1 and is 10 wide, so x + width = imageWidth + 1: the
    rectangle is rounded after it is clamped, and both x and width can
    round up. *)
Theorem screenToImageCoordinates_can_overhang :
  exists (screenCrop : Rect) (params : ExifOrientation.ImageDisplayParams),
    ExifOrientation.imageWidth params = 10
    /\ ExifOrientation.rotation params = 0
    /\ ExifOrientation.scale params = 1
    /\ rect_x (ExifOrientation.screenToImageCoordinates screenCrop params)
       = 1
    /\ rect_width
         (ExifOrientation.screenToImageCoordinates screenCrop params)
       = 10.
Proof.
  exists (mkRect (1 / 2) 0 20 5),
         (ExifOrientation.mkParams 10 10 10 10 1 0 0 0).
  do 3 (split; [reflexivity|]).
  unfold ExifOrientation.screenToImageCoordinates,
    ExifOrientation.calculateImageDisplayBounds.
  cbn [ExifOrientation.rotation ExifOrientation.scale
       ExifOrientation.imageWidth ExifOrientation.imageHeight
       ExifOrientation.displayWidth ExifOrientation.displayHeight
       ExifOrientation.translateX ExifOrientation.translateY
       ExifOrientation.displayedX ExifOrientation.displayedY
       rect_x rect_y rect_width rect_height].
  rewrite neq_same.
  replace (0 * PI / 180) with 0 by lra.
  rewrite cos_0, sin_0, Rabs_R0, Rabs_R1.
  cbv beta iota zeta. cbn [rect_x rect_width].
  reduce_minmax.
  split; apply round_value; lra.
Qed.

(** ** The displayed bounding box *)

(** X27: the box [calculateImageDisplayBounds] returns is centred on the
    viewport centre moved by the translation, for every rotation; it is the
    same for a rotation and for the opposite rotation; at rotation 0 it is
    the scaled image itself; and when the image size and the scale are not
    negative, neither side is negative nor longer than the scaled width and
    the scaled height together. *)
Theorem calculateImageDisplayBounds_geometry :
  forall (iw ih dw dh s tx ty r : R),
    let bounds rot :=
      ExifOrientation.calculateImageDisplayBounds
        (ExifOrientation.mkParams iw ih dw dh s tx ty rot) in
    ExifOrientation.displayedX (bounds r)
    + ExifOrientation.displayedWidth (bounds r) / 2 = dw / 2 + tx
    /\ ExifOrientation.displayedY (bounds r)
       + ExifOrientation.displayedHeight (bounds r) / 2 = dh / 2 + ty
    /\ bounds (- r) = bounds r
    /\ ExifOrientation.displayedWidth (bounds 0) = iw * s
    /\ ExifOrientation.displayedHeight (bounds 0) = ih * s
    /\ (0 <= iw -> 0 <= ih -> 0 <= s ->
        0 <= ExifOrientation.displayedWidth (bounds r) <= iw * s + ih * s
        /\ 0 <= ExifOrientation.displayedHeight (bounds r)
           <= iw * s + ih * s).
Proof.
  intros iw ih dw dh s tx ty r bounds. subst bounds.
  unfold ExifOrientation.calculateImageDisplayBounds.
  cbn [ExifOrientation.rotation ExifOrientation.scale
       ExifOrientation.imageWidth ExifOrientation.imageHeight
       ExifOrientation.displayWidth ExifOrientation.displayHeight
       ExifOrientation.translateX ExifOrientation.translateY
       ExifOrientation.displayedX ExifOrientation.displayedY
       ExifOrientation.displayedWidth ExifOrientation.displayedHeight].
  split; [lra|]. split; [lra|].
  split.
  { replace (- r * PI / 180) with (- (r * PI / 180)) by lra.
    now rewrite cos_neg, sin_neg, Rabs_Ropp. }
  replace (0 * PI / 180) with 0 by lra.
  rewrite cos_0, sin_0, Rabs_R0, Rabs_R1.
  split; [lra|]. split; [lra|].
  intros Hiw Hih Hs.
  pose proof (Rabs_pos (cos (r * PI / 180))) as Hc.
  pose proof (Rabs_pos (sin (r * PI / 180))) as Hn.
  assert (Hc1 : Rabs (cos (r * PI / 180)) <= 1)
    by (apply Rabs_le; apply COS_bound).
  assert (Hn1 : Rabs (sin (r * PI / 180)) <= 1)
    by (apply Rabs_le; apply SIN_bound).
  pose proof (Rmult_le_pos _ _ Hiw Hs) as Hsw.
  pose proof (Rmult_le_pos _ _ Hih Hs) as Hsh.
  split; split; nra.
Qed.

(** ** EXIF helpers *)

Section ExifHelpers.

Import ExifOrientation.

Lemma orientation_cases (o : Z) :
  (o = 1 \/ o = 2 \/ o = 3 \/ o = 4 \/ o = 5 \/ o = 6 \/ o = 7 \/ o = 8
   \/ ~ (1 <= o <= 8))%Z.
Proof. lia. Qed.

Lemma of_code_unknown (o : Z) : ~ (1 <= o <= 8)%Z -> of_code o = None.
Proof.
  intros Ho. destruct o as [|p|p]; try reflexivity.
  do 4 (destruct p as [p|p|]; try reflexivity; try (exfalso; lia)).
Qed.

Lemma needsSwap_unknown (o : Z) :
  ~ (1 <= o <= 8)%Z ->
  ((o =? code Rotate90) || (o =? code Rotate270)
   || (o =? code Rotate90FlipHorizontal)
   || (o =? code Rotate90FlipVertical))%Z%bool = false.
Proof.
  intros Ho. cbn [code].
  rewrite !orb_false_iff. repeat split; apply Z.eqb_neq; lia.
Qed.

End ExifHelpers.

(** X28: the EXIF helpers agree with each other: [getCorrectedDimensions]
    swaps width and height exactly for the orientations that
    [getRotationForOrientation] turns by a quarter (90 or -90); applying it
    twice with the same code gives the original dimensions back; and a code
    outside 1..8 is treated as Normal by all three helpers (rotation 0, no
    mirror, no swap). *)
Theorem exif_helpers_consistent :
  forall (width height : R) (orientation : Z),
    let d :=
      ExifOrientation.getCorrectedDimensions width height orientation in
    let turn := ExifOrientation.getRotationForOrientation orientation in
    ExifOrientation.getCorrectedDimensions
      (size_width d) (size_height d) orientation
    = mkSize width height
    /\ (Z.abs turn = 90%Z -> d = mkSize height width)
    /\ (Z.abs turn <> 90%Z -> d = mkSize width height)
    /\ (~ (1 <= orientation <= 8)%Z ->
        turn = 0%Z
        /\ ExifOrientation.getScaleForOrientation orientation = (1, 1)%Z
        /\ d = mkSize width height).
Proof.
  intros width height o d turn. subst d turn.
  destruct (orientation_cases o)
    as [->|[->|[->|[->|[->|[->|[->|[->|Hunknown]]]]]]]];
    try (split; [reflexivity|];
         split; [intros H; first [reflexivity | discriminate H]|];
         split; [intros H;
                 first [reflexivity | exfalso; apply H; reflexivity]|];
         intros H; exfalso; lia).
  unfold ExifOrientation.getCorrectedDimensions,
    ExifOrientation.getRotationForOrientation,
    ExifOrientation.getScaleForOrientation.
  rewrite (needsSwap_unknown o Hunknown), (of_code_unknown o Hunknown).
  cbn [size_width size_height].
  repeat split; intros H; try reflexivity; discriminate H.
Qed.

(** ** Covering the crop frame *)

Section Coverage.

Lemma div_le_iff (a b c : R) : 0 < c -> (a / c <= b <-> a <= c * b).
Proof.
  intros Hc. assert (Ha : a = a / c * c) by (field; lra).
  set (q := a / c) in *. clearbody q. subst a.
  split; intros H; nra.
Qed.

Lemma minScale_threshold (iw ih cw ch s : R) :
  0 < iw -> 0 < ih ->
  (ExifOrientation.calculateMinScale iw ih cw ch <= s
   <-> cw <= iw * s /\ ch <= ih * s).
Proof.
  intros Hiw Hih. unfold ExifOrientation.calculateMinScale.
  rewrite <- (div_le_iff cw s iw Hiw), <- (div_le_iff ch s ih Hih).
  split.
  - intros Hmax. split.
    + eapply Rle_trans; [apply Rmax_l | exact Hmax].
    + eapply Rle_trans; [apply Rmax_r | exact Hmax].
  - intros [Hw Hh]. now apply Rmax_lub.
Qed.

End Coverage.

(** X29: [calculateMinScale] is exactly the coverage threshold: for an
    image of positive size, a scale is at least the minimum scale if and
    only if the scaled image is at least as wide and as high as the crop
    frame.  Hence after every pinch update, in any sequence of gesture
    callbacks, the scaled image covers the crop frame. *)
Theorem minScale_covers_crop :
  forall (SCREEN_WIDTH SCREEN_HEIGHT : R)
         (evs : list ImageEditorScreen.GestureEvent) (e_scale : R)
         (ed : ImageEditorScreen.Editor) (s : R),
    let before := ImageEditorScreen.run SCREEN_WIDTH SCREEN_HEIGHT evs ed in
    let image :=
      ImageEditorScreen.imageSize (ImageEditorScreen.react before) in
    let cropW := ImageEditorScreen.cells before ImageEditorScreen.cropWidth in
    let cropH :=
      ImageEditorScreen.cells before ImageEditorScreen.cropHeight in
    let ed' :=
      ImageEditorScreen.run
        SCREEN_WIDTH SCREEN_HEIGHT
        (evs ++ [ImageEditorScreen.PinchUpdate e_scale]) ed in
    0 < size_width image -> 0 < size_height image ->
    (ExifOrientation.calculateMinScale
       (size_width image) (size_height image) cropW cropH <= s
     <-> cropW <= size_width image * s /\ cropH <= size_height image * s)
    /\ ImageEditorScreen.cells ed' ImageEditorScreen.cropWidth
       <= size_width
            (ImageEditorScreen.imageSize (ImageEditorScreen.react ed'))
          * ImageEditorScreen.cells ed' ImageEditorScreen.scale
    /\ ImageEditorScreen.cells ed' ImageEditorScreen.cropHeight
       <= size_height
            (ImageEditorScreen.imageSize (ImageEditorScreen.react ed'))
          * ImageEditorScreen.cells ed' ImageEditorScreen.scale.
Proof.
  intros W H evs e_scale ed s before image cropW cropH ed' Hiw Hih.
  split; [now apply minScale_threshold|].
  assert (Hstep : ed' = ImageEditorScreen.pinchOnUpdate e_scale before).
  { subst ed' before. now rewrite run_app. }
  destruct (pinchOnUpdate_scale e_scale before) as [Hscale _].
  rewrite Hstep, Hscale.
  change (ImageEditorScreen.cells
            (ImageEditorScreen.pinchOnUpdate e_scale before)
            ImageEditorScreen.cropWidth) with cropW.
  change (ImageEditorScreen.cells
            (ImageEditorScreen.pinchOnUpdate e_scale before)
            ImageEditorScreen.cropHeight) with cropH.
  change (ImageEditorScreen.imageSize
            (ImageEditorScreen.react
               (ImageEditorScreen.pinchOnUpdate e_scale before)))
    with image.
  apply (minScale_threshold (size_width image) (size_height image)
                            cropW cropH _ Hiw Hih).
  apply Rmax_l.
Qed.

Lemma minScale_covers_crop_witness :
  let ed := Samples.smallImageEditor in
  let ed' :=
    ImageEditorScreen.run
      Samples.W Samples.H
      ([ImageEditorScreen.PinchStart] ++ [ImageEditorScreen.PinchUpdate 2])
      ed in
  0 < size_width (ImageEditorScreen.imageSize (ImageEditorScreen.react ed))
  /\ 0 < size_height
           (ImageEditorScreen.imageSize (ImageEditorScreen.react ed))
  /\ ImageEditorScreen.cells ed' ImageEditorScreen.cropWidth
     <= size_width
          (ImageEditorScreen.imageSize (ImageEditorScreen.react ed'))
        * ImageEditorScreen.cells ed' ImageEditorScreen.scale.
Proof.
  intros ed ed'.
  assert (Hiw : 0 < size_width
                      (ImageEditorScreen.imageSize
                         (ImageEditorScreen.react ed))) by (simpl; lra).
  assert (Hih : 0 < size_height
                      (ImageEditorScreen.imageSize
                         (ImageEditorScreen.react ed))) by (simpl; lra).
  split; [exact Hiw|]. split; [exact Hih|].
  apply (minScale_covers_crop
           Samples.W Samples.H [ImageEditorScreen.PinchStart] 2 ed 1
           Hiw Hih).
Defined.

(** ** Preview dimensions *)

Section Preview.

(** The downscaling branch. *)
Lemma preview_scaled (w h : R) (m : Z) :
  0 < w -> 0 < h -> 1 <= IZR m -> IZR m < Rmax w h ->
  let q := IZR m / Rmax w h in
  JsMath.round (w * q) <= IZR m
  /\ JsMath.round (h * q) <= IZR m
  /\ 0 < q < 1
  /\ Rmax (JsMath.round (w * q)) (JsMath.round (h * q)) = IZR m.
Proof.
  intros Hw Hh Hm Hlong q. subst q.
  set (longer := Rmax w h) in *.
  assert (Hwl : w <= longer) by apply Rmax_l.
  assert (Hhl : h <= longer) by apply Rmax_r.
  assert (Hq : IZR m / longer * longer = IZR m) by (field; lra).
  set (q := IZR m / longer) in *.
  assert (Hq0 : 0 < q) by nra.
  assert (Hq1 : q < 1) by nra.
  assert (Hwq : w * q <= IZR m) by nra.
  assert (Hhq : h * q <= IZR m) by nra.
  pose proof (round_mono _ _ Hwq) as Hrw.
  pose proof (round_mono _ _ Hhq) as Hrh.
  rewrite round_IZR in Hrw, Hrh.
  split; [exact Hrw|]. split; [exact Hrh|]. split; [lra|].
  assert (Hcase : w = longer \/ h = longer)
    by (subst longer; unfold Rmax; destruct (Rle_dec w h); auto).
  destruct Hcase as [Hc|Hc].
  - assert (Hexact : JsMath.round (w * q) = IZR m)
      by (rewrite Hc, Rmult_comm, Hq; apply round_IZR).
    rewrite Hexact. apply Rmax_left. exact Hrh.
  - assert (Hexact : JsMath.round (h * q) = IZR m)
      by (rewrite Hc, Rmult_comm, Hq; apply round_IZR).
    rewrite Hexact. apply Rmax_right. exact Hrw.
Qed.

End Preview.

(** X30: for an image of positive size and a whole maximum dimension of at
    least 1, [calculatePreviewDimensions] returns a preview no wider and no
    higher than the maximum, with a scale in (0, 1]; an image already
    within the maximum is returned as it is with scale 1; a larger image
    has its longer side brought to exactly the maximum. *)
Theorem calculatePreviewDimensions_fits :
  forall (originalWidth originalHeight : R) (maxDimension : Z),
    0 < originalWidth -> 0 < originalHeight -> (1 <= maxDimension)%Z ->
    let p :=
      ImageOptimizer.calculatePreviewDimensions
        originalWidth originalHeight (IZR maxDimension) in
    ImageOptimizer.preview_width p <= IZR maxDimension
    /\ ImageOptimizer.preview_height p <= IZR maxDimension
    /\ 0 < ImageOptimizer.preview_scale p <= 1
    /\ (originalWidth <= IZR maxDimension ->
        originalHeight <= IZR maxDimension ->
        p = ImageOptimizer.mkPreview originalWidth originalHeight 1)
    /\ (IZR maxDimension < Rmax originalWidth originalHeight ->
        Rmax (ImageOptimizer.preview_width p)
             (ImageOptimizer.preview_height p)
        = IZR maxDimension).
Proof.
  intros w h m Hw Hh Hm p. subst p.
  apply IZR_le in Hm.
  unfold ImageOptimizer.calculatePreviewDimensions, JsMath.le.
  destruct (Rle_dec w (IZR m)) as [Hwm|Hwm];
    destruct (Rle_dec h (IZR m)) as [Hhm|Hhm]; cbn [andb];
    cbn [ImageOptimizer.preview_width ImageOptimizer.preview_height
         ImageOptimizer.preview_scale].
  - repeat split; try lra.
    intros Hbig. exfalso. unfold Rmax in Hbig.
    destruct (Rle_dec w h); lra.
  - assert (Hlong : IZR m < Rmax w h)
      by (unfold Rmax; destruct (Rle_dec w h); lra).
    destruct (preview_scaled w h m Hw Hh Hm Hlong) as (H1 & H2 & H3 & H4).
    repeat split; try assumption; try lra; intros; exfalso; lra.
  - assert (Hlong : IZR m < Rmax w h)
      by (unfold Rmax; destruct (Rle_dec w h); lra).
    destruct (preview_scaled w h m Hw Hh Hm Hlong) as (H1 & H2 & H3 & H4).
    repeat split; try assumption; try lra; intros; exfalso; lra.
  - assert (Hlong : IZR m < Rmax w h)
      by (unfold Rmax; destruct (Rle_dec w h); lra).
    destruct (preview_scaled w h m Hw Hh Hm Hlong) as (H1 & H2 & H3 & H4).
    repeat split; try assumption; try lra; intros; exfalso; lra.
Qed.

Lemma calculatePreviewDimensions_fits_witness :
  0 < 4000 /\ 0 < 3000 /\ (1 <= 1024)%Z
  /\ ImageOptimizer.preview_width
       (ImageOptimizer.calculatePreviewDimensions 4000 3000 (IZR 1024))
     <= IZR 1024.
Proof.
  assert (Hw : 0 < 4000) by lra.
  assert (Hh : 0 < 3000) by lra.
  assert (Hm : (1 <= 1024)%Z) by lia.
  split; [exact Hw|]. split; [exact Hh|]. split; [exact Hm|].
  apply (calculatePreviewDimensions_fits 4000 3000 1024 Hw Hh Hm).
Defined.
